(** * postgres-user-manager: the reconciliation engine, embedded and verified

    A shallow embedding of [internal/database] (the [Manager] and its
    operations), of [internal/config] ([GetDatabaseConnection]) and of the
    [sync] command of [cmd], followed by the theorems that settle the
    properties stated about them.

    Conventions of the embedding:
    - Go strings are byte strings ([string]); [error] values are their
      message text, so [fmt.Errorf("...: %w", err)] is concatenation;
    - the database server is not part of the program: an open [*sql.DB] is a
      record of behaviours ([sqlDB]) over an abstract server state [DB];
    - every operation runs in the monad [M]: it reads and updates the server
      state and emits the [Event]s (driver calls and log entries) it performs,
      in program order;
    - a [logrus.Fields] map is the list of its entries in source order; the
      logger's level filter, [rows.Close()] and the value of [time.Now()]
      (an argument where it is read) play no part in what is proved. *)

From stdpp Require Import base decidable option list strings pretty gmap.
From Stdlib Require Import Ascii ZArith Lia.

Local Open Scope Z_scope.
Local Open Scope stdpp_scope.

(** ** Strings *)

(** The double quote and the single quote, as bytes. *)
Definition dquote : ascii := Ascii.Ascii false true false false false true false false.
Definition squote : ascii := Ascii.Ascii true true true false false true false false.

(** [strings.ReplaceAll(s, old, new)] for a one-byte [old], which is how both
    call sites of the source use it. *)
Fixpoint ReplaceAll (s : string) (old : ascii) (new : string) : string :=
  match s with
  | EmptyString => EmptyString
  | String c rest =>
      if decide (c = old) then new +:+ ReplaceAll rest old new
      else String c (ReplaceAll rest old new)
  end.

(** The verb [%d] of [fmt]: decimal digits, with a leading minus sign for a
    negative number. *)
Definition fmt_d (n : Z) : string := pretty n.

Definition error := string.

(** A Go [(value, error)] pair in which exactly one side is meaningful. *)
Inductive result (A : Type) : Type :=
| Ok (a : A)
| Err (e : error).
Arguments Ok {A} a.
Arguments Err {A} e.

(** ** internal/structs *)

Module UserConfig.
Record t := mk {
  Username : string;
  Password : string;
  Groups : list string;
  Privileges : list string;
  Databases : list string;
  Enabled : bool;
  Description : string;
  AuthMethod : string;
  IAMRole : string;
  CanLogin : bool;
  ConnectionLimit : Z
}.
End UserConfig.

Module GroupConfig.
Record t := mk {
  Name : string;
  Privileges : list string;
  Databases : list string;
  Description : string;
  Inherit : bool
}.
End GroupConfig.

Module Config.
Record t := mk {
  Users : list UserConfig.t;
  Groups : list GroupConfig.t
}.
End Config.

Module DatabaseUser.
Record t := mk {
  Username : string;
  Groups : list string;
  Privileges : list string;
  Databases : list string;
  Exists : bool;
  LastChecked : Z
}.
End DatabaseUser.

Module SyncResult.
Record t := mk {
  UsersCreated : list string;
  UsersModified : list string;
  UsersRemoved : list string;
  GroupsCreated : list string;
  GroupsModified : list string;
  GroupsRemoved : list string;
  Errors : list error
}.
(** [&structs.SyncResult{}] *)
Definition empty : t := mk [] [] [] [] [] [] [].
Definition addGroupCreated (r : t) (name : string) : t :=
  mk (UsersCreated r) (UsersModified r) (UsersRemoved r)
     (GroupsCreated r ++ [name]) (GroupsModified r) (GroupsRemoved r) (Errors r).
Definition addUserCreated (r : t) (name : string) : t :=
  mk (UsersCreated r ++ [name]) (UsersModified r) (UsersRemoved r)
     (GroupsCreated r) (GroupsModified r) (GroupsRemoved r) (Errors r).
Definition addError (r : t) (e : error) : t :=
  mk (UsersCreated r) (UsersModified r) (UsersRemoved r)
     (GroupsCreated r) (GroupsModified r) (GroupsRemoved r) (Errors r ++ [e]).
End SyncResult.

Module DatabaseConnection.
Record t := mk {
  Host : string;
  Port : Z;
  Database : string;
  Username : string;
  Password : string;
  SSLMode : string;
  IAMAuth : bool;
  AWSRegion : string;
  IAMToken : string
}.
End DatabaseConnection.

(** ** The driver boundary and the trace *)

Inductive Level := InfoLevel | WarnLevel | ErrorLevel.

(** A value of a [logrus.Fields] entry. *)
Inductive FieldValue :=
| VString (s : string)
| VStrings (l : list string)
| VInt (n : Z)
| VBool (b : bool).

Inductive Event :=
| EvLog (lvl : Level) (fields : list (string * FieldValue)) (msg : string)
| EvOpen (driverName connStr : string)
| EvPing
| EvClose
| EvExec (query : string)
| EvQueryRow (query : string) (args : list string)
| EvQuery (query : string) (args : list string).

(** What [QueryRow(...).Scan(&exists)] can give. *)
Inductive RowResult :=
| RowFound
| ErrNoRows
| RowErr (e : error).

(** The statements a trace sent through [db.Exec], in order. *)
Fixpoint execs (evs : list Event) : list string :=
  match evs with
  | [] => []
  | EvExec q :: rest => q :: execs rest
  | _ :: rest => execs rest
  end.

(** The reads a trace sent through [db.QueryRow] and [db.Query], in order,
    each with its SQL text and its bound parameters. *)
Fixpoint reads (evs : list Event) : list (string * list string) :=
  match evs with
  | [] => []
  | EvQueryRow q args :: rest => (q, args) :: reads rest
  | EvQuery q args :: rest => (q, args) :: reads rest
  | _ :: rest => reads rest
  end.

(** The messages a trace logged, in order. *)
Fixpoint logged (evs : list Event) : list string :=
  match evs with
  | [] => []
  | EvLog _ _ msg :: rest => msg :: logged rest
  | _ :: rest => logged rest
  end.

(** An open [*sql.DB]: what the server answers to each driver call, over the
    server state [DB].  Reads do not change the server state; [Exec] may.  A
    row of [Query] is the scanned group name, or the error of its [Scan]. *)
Record sqlDB (DB : Type) := {
  sqlPing : DB → option error;
  sqlExec : string → DB → DB * option error;
  sqlQueryRow : string → list string → DB → RowResult;
  sqlQuery : string → list string → DB → result (list (result string))
}.
Arguments sqlPing {DB} _ _.
Arguments sqlExec {DB} _ _ _.
Arguments sqlQueryRow {DB} _ _ _ _.
Arguments sqlQuery {DB} _ _ _ _.

(** Computations over the server state that emit a trace. *)
Definition M (DB : Type) (A : Type) : Type := DB → A * DB * list Event.

Global Instance M_ret {DB} : MRet (M DB) := λ A a d, (a, d, []).
Global Instance M_bind {DB} : MBind (M DB) := λ A B f m d,
  let '(a, d1, l1) := m d in
  let '(b, d2, l2) := f a d1 in
  (b, d2, l1 ++ l2).

(** The [Manager] of [internal/database]; its [logger] field is the trace of
    [M]. *)
Record Manager (DB : Type) := {
  db : sqlDB DB;
  dryRun : bool
}.
Arguments db {DB} _.
Arguments dryRun {DB} _.

Section Database.

Context {DB : Type}.
Local Abbreviation M := (M DB).
Local Abbreviation sqlDB := (sqlDB DB).
Local Abbreviation Manager := (Manager DB).

Definition emit (ev : Event) : M unit := λ d, (tt, d, [ev]).

Definition Info (fields : list (string * FieldValue)) (msg : string) : M unit :=
  emit (EvLog InfoLevel fields msg).
Definition Warn (fields : list (string * FieldValue)) (msg : string) : M unit :=
  emit (EvLog WarnLevel fields msg).
Definition Error (fields : list (string * FieldValue)) (msg : string) : M unit :=
  emit (EvLog ErrorLevel fields msg).

Definition dbPing (db : sqlDB) : M (option error) :=
  λ d, (sqlPing db d, d, [EvPing]).
Definition dbExec (db : sqlDB) (query : string) : M (option error) :=
  λ d, let '(d', e) := sqlExec db query d in (e, d', [EvExec query]).
Definition dbQueryRow (db : sqlDB) (query : string) (args : list string) : M RowResult :=
  λ d, (sqlQueryRow db query args d, d, [EvQueryRow query args]).
Definition dbQuery (db : sqlDB) (query : string) (args : list string)
  : M (result (list (result string))) :=
  λ d, (sqlQuery db query args d, d, [EvQuery query args]).
Definition dbClose (db : sqlDB) : M unit := emit EvClose.

(** ** internal/database *)

(** *** Helper methods *)

Definition quoteIdentifier (name : string) : string :=
  String dquote (ReplaceAll name dquote (String dquote (String dquote "")))
    +:+ String dquote "".

Definition escapeString (s : string) : string :=
  ReplaceAll s squote (String squote (String squote "")).

(** *** Reads *)

Definition userExistsQuery : string := "SELECT 1 FROM pg_user WHERE usename = $1".
Definition groupExistsQuery : string := "SELECT 1 FROM pg_roles WHERE rolname = $1".

Definition existsOf (r : RowResult) : bool * option error :=
  match r with
  | ErrNoRows => (false, None)
  | RowErr e => (false, Some e)
  | RowFound => (true, None)
  end.

Definition UserExists (m : Manager) (username : string) : M (bool * option error) :=
  r ← dbQueryRow (db m) userExistsQuery [username];
  mret (existsOf r).

Definition GroupExists (m : Manager) (groupName : string) : M (bool * option error) :=
  r ← dbQueryRow (db m) groupExistsQuery [groupName];
  mret (existsOf r).

(** *** CreateUser *)

Definition dryRunLog (query : string) : M unit :=
  Info [("query", VString query)] "DRY RUN: Would execute query".

Definition buildCreateUserQuery (m : Manager) (user : UserConfig.t) : M string :=
  let query := "CREATE USER " +:+ quoteIdentifier (UserConfig.Username user) in
  query ← (if decide (UserConfig.AuthMethod user = "iam") then
             Info [("username", VString (UserConfig.Username user))]
                  "Creating user for IAM authentication (no password)";;
             mret query
           else if decide (UserConfig.Password user ≠ "") then
             mret (query +:+ " WITH PASSWORD '"
                     +:+ escapeString (UserConfig.Password user) +:+ "'")
           else mret query);
  let query := if UserConfig.CanLogin user then query +:+ " LOGIN"
               else query +:+ " NOLOGIN" in
  let query :=
    if decide (UserConfig.ConnectionLimit user ≠ 0) then
      if decide (UserConfig.ConnectionLimit user = -1) then
        query +:+ " CONNECTION LIMIT -1"
      else query +:+ " CONNECTION LIMIT " +:+ fmt_d (UserConfig.ConnectionLimit user)
    else query in
  mret query.

Definition grantRDSIAMRoleQuery (username : string) : string :=
  "GRANT rds_iam TO " +:+ quoteIdentifier username.

Definition grantRDSIAMRole (m : Manager) (username : string) : M (option error) :=
  Info [("username", VString username)] "Granting rds_iam role for IAM authentication";;
  let query := grantRDSIAMRoleQuery username in
  if dryRun m then
    dryRunLog query;;
    mret None
  else
    e ← dbExec (db m) query;
    match e with
    | Some err => mret (Some ("failed to grant rds_iam role: " +:+ err))
    | None =>
        Info [("username", VString username)] "Successfully granted rds_iam role";;
        mret None
    end.

Definition revokeRDSIAMRoleQuery (username : string) : string :=
  "REVOKE rds_iam FROM " +:+ quoteIdentifier username.

Definition revokeRDSIAMRole (m : Manager) (username : string) : M (option error) :=
  Info [("username", VString username)] "Revoking rds_iam role";;
  let query := revokeRDSIAMRoleQuery username in
  if dryRun m then
    dryRunLog query;;
    mret None
  else
    e ← dbExec (db m) query;
    match e with
    | Some err => mret (Some ("failed to revoke rds_iam role: " +:+ err))
    | None =>
        Info [("username", VString username)] "Successfully revoked rds_iam role";;
        mret None
    end.

Definition CreateUser (m : Manager) (user : UserConfig.t) : M (option error) :=
  let username := UserConfig.Username user in
  Info [("username", VString username);
        ("auth_method", VString (UserConfig.AuthMethod user))] "Creating user";;
  '(exists_, err) ← UserExists m username;
  match err with
  | Some err => mret (Some ("failed to check if user exists: " +:+ err))
  | None =>
      if exists_ : bool then
        Info [("username", VString username)] "User already exists, skipping creation";;
        mret None
      else
        query ← buildCreateUserQuery m user;
        if dryRun m then
          dryRunLog query;;
          mret None
        else
          e ← dbExec (db m) query;
          match e with
          | Some err =>
              mret (Some ("failed to create user " +:+ username +:+ ": " +:+ err))
          | None =>
              e ← (if decide (UserConfig.AuthMethod user = "iam") then
                     grantRDSIAMRole m username
                   else mret None);
              match e with
              | Some err =>
                  mret (Some ("failed to grant rds_iam role to user " +:+ username
                                +:+ ": " +:+ err))
              | None =>
                  Info [("username", VString username)] "User created successfully";;
                  mret None
              end
          end
  end.

(** *** DropUser *)

Definition dropUserQuery (username : string) : string :=
  "DROP USER " +:+ quoteIdentifier username.

Definition DropUser (m : Manager) (username : string) : M (option error) :=
  Info [("username", VString username)] "Dropping user";;
  '(exists_, err) ← UserExists m username;
  match err with
  | Some err => mret (Some ("failed to check if user exists: " +:+ err))
  | None =>
      if negb exists_ then
        Info [("username", VString username)] "User does not exist, skipping deletion";;
        mret None
      else
        let query := dropUserQuery username in
        if dryRun m then
          dryRunLog query;;
          mret None
        else
          e ← dbExec (db m) query;
          match e with
          | Some err =>
              mret (Some ("failed to drop user " +:+ username +:+ ": " +:+ err))
          | None =>
              Info [("username", VString username)] "User dropped successfully";;
              mret None
          end
  end.

(** *** CreateGroup *)

Definition createGroupQuery (group : GroupConfig.t) : string :=
  let query := "CREATE ROLE " +:+ quoteIdentifier (GroupConfig.Name group) in
  if GroupConfig.Inherit group then query +:+ " INHERIT" else query +:+ " NOINHERIT".

Definition CreateGroup (m : Manager) (group : GroupConfig.t) : M (option error) :=
  let name := GroupConfig.Name group in
  Info [("group", VString name)] "Creating group";;
  '(exists_, err) ← GroupExists m name;
  match err with
  | Some err => mret (Some ("failed to check if group exists: " +:+ err))
  | None =>
      if exists_ : bool then
        Info [("group", VString name)] "Group already exists, skipping creation";;
        mret None
      else
        let query := createGroupQuery group in
        if dryRun m then
          dryRunLog query;;
          mret None
        else
          e ← dbExec (db m) query;
          match e with
          | Some err =>
              mret (Some ("failed to create group " +:+ name +:+ ": " +:+ err))
          | None =>
              Info [("group", VString name)] "Group created successfully";;
              mret None
          end
  end.

(** *** GrantPrivileges and RevokePrivileges *)

Definition grantQuery (priv db target : string) : string :=
  "GRANT " +:+ priv +:+ " ON DATABASE " +:+ quoteIdentifier db
    +:+ " TO " +:+ quoteIdentifier target.

Definition grantError (priv db target : string) (err : error) : error :=
  "failed to grant " +:+ priv +:+ " on " +:+ db +:+ " to " +:+ target +:+ ": " +:+ err.

(** The inner loop, [for _, priv := range privileges], of one database.  A
    [Some] result is the [return] of the enclosing function. *)
Fixpoint grantEachPrivilege (m : Manager) (target database : string)
    (privileges : list string) : M (option error) :=
  match privileges with
  | [] => mret None
  | priv :: rest =>
      let query := grantQuery priv database target in
      if dryRun m then
        dryRunLog query;;
        grantEachPrivilege m target database rest
      else
        e ← dbExec (db m) query;
        match e with
        | Some err => mret (Some (grantError priv database target err))
        | None => grantEachPrivilege m target database rest
        end
  end.

(** The outer loop, [for _, db := range databases]; the loop variable is
    [database] here, [db] being the manager's field. *)
Fixpoint grantEachDatabase (m : Manager) (target : string)
    (privileges databases : list string) : M (option error) :=
  match databases with
  | [] => mret None
  | database :: rest =>
      e ← grantEachPrivilege m target database privileges;
      match e with
      | Some err => mret (Some err)
      | None => grantEachDatabase m target privileges rest
      end
  end.

Definition GrantPrivileges (m : Manager) (target : string)
    (privileges databases : list string) : M (option error) :=
  Info [("target", VString target); ("privileges", VStrings privileges);
        ("databases", VStrings databases)] "Granting privileges";;
  e ← grantEachDatabase m target privileges databases;
  match e with
  | Some err => mret (Some err)
  | None =>
      Info [("target", VString target)] "Privileges granted successfully";;
      mret None
  end.

Definition revokeQuery (priv db target : string) : string :=
  "REVOKE " +:+ priv +:+ " ON DATABASE " +:+ quoteIdentifier db
    +:+ " FROM " +:+ quoteIdentifier target.

Definition revokeError (priv db target : string) (err : error) : error :=
  "failed to revoke " +:+ priv +:+ " on " +:+ db +:+ " from " +:+ target +:+ ": " +:+ err.

Fixpoint revokeEachPrivilege (m : Manager) (target database : string)
    (privileges : list string) : M (option error) :=
  match privileges with
  | [] => mret None
  | priv :: rest =>
      let query := revokeQuery priv database target in
      if dryRun m then
        dryRunLog query;;
        revokeEachPrivilege m target database rest
      else
        e ← dbExec (db m) query;
        match e with
        | Some err => mret (Some (revokeError priv database target err))
        | None => revokeEachPrivilege m target database rest
        end
  end.

Fixpoint revokeEachDatabase (m : Manager) (target : string)
    (privileges databases : list string) : M (option error) :=
  match databases with
  | [] => mret None
  | database :: rest =>
      e ← revokeEachPrivilege m target database privileges;
      match e with
      | Some err => mret (Some err)
      | None => revokeEachDatabase m target privileges rest
      end
  end.

Definition RevokePrivileges (m : Manager) (target : string)
    (privileges databases : list string) : M (option error) :=
  Info [("target", VString target); ("privileges", VStrings privileges);
        ("databases", VStrings databases)] "Revoking privileges";;
  e ← revokeEachDatabase m target privileges databases;
  match e with
  | Some err => mret (Some err)
  | None =>
      Info [("target", VString target)] "Privileges revoked successfully";;
      mret None
  end.

(** *** Group membership *)

Definition addUserToGroupQuery (username groupName : string) : string :=
  "GRANT " +:+ quoteIdentifier groupName +:+ " TO " +:+ quoteIdentifier username.

Definition AddUserToGroup (m : Manager) (username groupName : string)
  : M (option error) :=
  Info [("username", VString username); ("group", VString groupName)]
       "Adding user to group";;
  let query := addUserToGroupQuery username groupName in
  if dryRun m then
    dryRunLog query;;
    mret None
  else
    e ← dbExec (db m) query;
    match e with
    | Some err =>
        mret (Some ("failed to add user " +:+ username +:+ " to group " +:+ groupName
                      +:+ ": " +:+ err))
    | None =>
        Info [("username", VString username); ("group", VString groupName)]
             "User added to group successfully";;
        mret None
    end.

Definition removeUserFromGroupQuery (username groupName : string) : string :=
  "REVOKE " +:+ quoteIdentifier groupName +:+ " FROM " +:+ quoteIdentifier username.

Definition RemoveUserFromGroup (m : Manager) (username groupName : string)
  : M (option error) :=
  Info [("username", VString username); ("group", VString groupName)]
       "Removing user from group";;
  let query := removeUserFromGroupQuery username groupName in
  if dryRun m then
    dryRunLog query;;
    mret None
  else
    e ← dbExec (db m) query;
    match e with
    | Some err =>
        mret (Some ("failed to remove user " +:+ username +:+ " from group "
                      +:+ groupName +:+ ": " +:+ err))
    | None =>
        Info [("username", VString username); ("group", VString groupName)]
             "User removed from group successfully";;
        mret None
    end.

(** *** GetUserInfo *)

Definition groupQuery : string :=
  "
		SELECT r.rolname 
		FROM pg_auth_members m 
		JOIN pg_roles r ON m.roleid = r.oid 
		JOIN pg_roles u ON m.member = u.oid 
		WHERE u.rolname = $1".

(** [for rows.Next() { rows.Scan(&groupName) ... }]: the first row whose
    [Scan] fails ends the function with that error. *)
Fixpoint scanGroups (rows : list (result string)) (groups : list string)
  : result (list string) :=
  match rows with
  | [] => Ok groups
  | Err e :: _ => Err e
  | Ok groupName :: rest => scanGroups rest (groups ++ [groupName])
  end.

(** [now] is the reading of [time.Now()]. *)
Definition GetUserInfo (m : Manager) (now : Z) (username : string)
  : M (result DatabaseUser.t) :=
  '(exists_, err) ← UserExists m username;
  match err with
  | Some err => mret (Err err)
  | None =>
      if negb exists_ then
        mret (Ok (DatabaseUser.mk username [] [] [] exists_ now))
      else
        rows ← dbQuery (db m) groupQuery [username];
        match rows with
        | Err err => mret (Err ("failed to get user groups: " +:+ err))
        | Ok rows =>
            match scanGroups rows [] with
            | Err err => mret (Err err)
            | Ok groups => mret (Ok (DatabaseUser.mk username groups [] [] exists_ now))
            end
        end
  end.

(** *** SyncConfiguration *)

(** The body of [for _, group := range config.Groups]; [continue] is the
    early result. *)
Definition syncGroup (m : Manager) (result : SyncResult.t) (group : GroupConfig.t)
  : M SyncResult.t :=
  let name := GroupConfig.Name group in
  e ← CreateGroup m group;
  match e with
  | Some err =>
      mret (SyncResult.addError result
              ("failed to create group " +:+ name +:+ ": " +:+ err))
  | None =>
      let result := SyncResult.addGroupCreated result name in
      e ← GrantPrivileges m name (GroupConfig.Privileges group)
            (GroupConfig.Databases group);
      match e with
      | Some err =>
          mret (SyncResult.addError result
                  ("failed to grant privileges to group " +:+ name +:+ ": " +:+ err))
      | None => mret result
      end
  end.

Fixpoint syncGroups (m : Manager) (result : SyncResult.t) (groups : list GroupConfig.t)
  : M SyncResult.t :=
  match groups with
  | [] => mret result
  | group :: rest =>
      result ← syncGroup m result group;
      syncGroups m result rest
  end.

(** [for _, groupName := range user.Groups] *)
Fixpoint addUserToGroups (m : Manager) (result : SyncResult.t) (username : string)
    (groups : list string) : M SyncResult.t :=
  match groups with
  | [] => mret result
  | groupName :: rest =>
      e ← AddUserToGroup m username groupName;
      let result :=
        match e with
        | Some err =>
            SyncResult.addError result
              ("failed to add user " +:+ username +:+ " to group " +:+ groupName
                 +:+ ": " +:+ err)
        | None => result
        end in
      addUserToGroups m result username rest
  end.

(** The body of [for _, user := range config.Users]. *)
Definition syncUser (m : Manager) (result : SyncResult.t) (user : UserConfig.t)
  : M SyncResult.t :=
  let username := UserConfig.Username user in
  if negb (UserConfig.Enabled user) then
    Info [("username", VString username)] "User is disabled, skipping";;
    mret result
  else
    e ← CreateUser m user;
    match e with
    | Some err =>
        mret (SyncResult.addError result
                ("failed to create user " +:+ username +:+ ": " +:+ err))
    | None =>
        let result := SyncResult.addUserCreated result username in
        result ← addUserToGroups m result username (UserConfig.Groups user);
        e ← GrantPrivileges m username (UserConfig.Privileges user)
              (UserConfig.Databases user);
        match e with
        | Some err =>
            mret (SyncResult.addError result
                    ("failed to grant privileges to user " +:+ username +:+ ": " +:+ err))
        | None => mret result
        end
    end.

Fixpoint syncUsers (m : Manager) (result : SyncResult.t) (users : list UserConfig.t)
  : M SyncResult.t :=
  match users with
  | [] => mret result
  | user :: rest =>
      result ← syncUser m result user;
      syncUsers m result rest
  end.

Definition SyncConfiguration (m : Manager) (config : Config.t)
  : M (SyncResult.t * option error) :=
  Info [] "Starting configuration synchronization";;
  let result := SyncResult.empty in
  result ← syncGroups m result (Config.Groups config);
  result ← syncUsers m result (Config.Users config);
  Info [("users_created", VInt (Z.of_nat (length (SyncResult.UsersCreated result))));
        ("groups_created", VInt (Z.of_nat (length (SyncResult.GroupsCreated result))));
        ("errors", VInt (Z.of_nat (length (SyncResult.Errors result))))]
       "Configuration synchronization completed";;
  mret (result, None).

(** *** NewManager *)

(** ["host=%s port=%d user=%s password=%s dbname=%s sslmode=%s"] *)
Definition connString (conn : DatabaseConnection.t) (password : string) : string :=
  "host=" +:+ DatabaseConnection.Host conn
    +:+ " port=" +:+ fmt_d (DatabaseConnection.Port conn)
    +:+ " user=" +:+ DatabaseConnection.Username conn
    +:+ " password=" +:+ password
    +:+ " dbname=" +:+ DatabaseConnection.Database conn
    +:+ " sslmode=" +:+ DatabaseConnection.SSLMode conn.

(** [sqlOpen] is [sql.Open]: the handle a driver name and a connection string
    give, or its error. *)
Definition NewManager (sqlOpen : string → string → result sqlDB)
    (conn : DatabaseConnection.t) (dryRun : bool) : M (result Manager) :=
  connStr ←
    (if DatabaseConnection.IAMAuth conn then
       Info [] "Setting up database connection with IAM authentication";;
       password ←
         (if decide (DatabaseConnection.IAMToken conn = "") then
            Warn [] "IAM token not provided - in production this would be generated using AWS SDK";;
            mret "PLACEHOLDER_IAM_TOKEN"
          else mret (DatabaseConnection.IAMToken conn));
       mret (connString conn password)
     else
       Info [] "Setting up database connection with password authentication";;
       mret (connString conn (DatabaseConnection.Password conn)));
  emit (EvOpen "postgres" connStr);;
  match sqlOpen "postgres" connStr with
  | Err err => mret (Err ("failed to open database connection: " +:+ err))
  | Ok db =>
      if negb dryRun then
        e ← dbPing db;
        match e with
        | Some err => mret (Err ("failed to ping database: " +:+ err))
        | None =>
            Info [] "Database connection established successfully";;
            mret (Ok {| db := db; dryRun := dryRun |})
        end
      else
        Info [] "Database connection configured (skipping ping in dry-run mode)";;
        mret (Ok {| db := db; dryRun := dryRun |})
  end.

(** [Close]; the handle of a [Manager] built by [NewManager] is never nil. *)
Definition Close (m : Manager) : M unit := dbClose (db m).

End Database.

(** ** internal/config *)

(** [strconv.Atoi]: an optional sign, then one or more decimal digits, and a
    value that fits the 64-bit [int]; [None] is its error. *)
Definition digitOf (c : ascii) : option Z :=
  let n := Z.of_nat (nat_of_ascii c) in
  if decide (48 ≤ n ≤ 57) then Some (n - 48) else None.

Fixpoint digitsFrom (acc : Z) (s : string) : option Z :=
  match s with
  | EmptyString => Some acc
  | String c rest =>
      match digitOf c with
      | Some d => digitsFrom (acc * 10 + d) rest
      | None => None
      end
  end.

Definition Atoi (s : string) : option Z :=
  let '(neg, digits) :=
    match s with
    | String "+" rest => (false, rest)
    | String "-" rest => (true, rest)
    | _ => (false, s)
    end in
  match digits with
  | EmptyString => None
  | _ =>
      n ← digitsFrom 0 digits;
      let n := if neg : bool then - n else n in
      if decide (- 2 ^ 63 ≤ n < 2 ^ 63) then Some n else None
  end.

(** What [os.Stat] followed by [os.ReadFile] finds at a path. *)
Inductive FileResult :=
| NotExist
| ReadError (e : error)
| Content (data : string).

(** The process's surroundings: its environment variables, its files, the
    JSON decoder of [structs.Config], and [sql.Open]. *)
Record World (DB : Type) := {
  environ : gmap string string;
  readFile : string → FileResult;
  jsonUnmarshal : string → result Config.t;
  sqlOpen : string → string → result (sqlDB DB)
}.
Arguments environ {DB} _.
Arguments readFile {DB} _ _.
Arguments jsonUnmarshal {DB} _ _.
Arguments sqlOpen {DB} _ _ _.

Section Command.

Context {DB : Type}.
Local Abbreviation M := (M DB).
Local Abbreviation World := (World DB).

(** [os.Getenv]: the empty string for an unset variable. *)
Definition Getenv (w : World) (key : string) : string :=
  default "" (environ w !! key).

Definition getEnvOrDefault (w : World) (key defaultValue : string) : string :=
  let value := Getenv w key in
  if decide (value ≠ "") then value else defaultValue.

Definition LoadConfig (w : World) (configPath : string) : M (result Config.t) :=
  Info [("path", VString configPath)] "Loading configuration file";;
  match readFile w configPath with
  | NotExist => mret (Err ("configuration file not found: " +:+ configPath))
  | ReadError err => mret (Err ("failed to read configuration file: " +:+ err))
  | Content data =>
      match jsonUnmarshal w data with
      | Err err => mret (Err ("failed to parse configuration file: " +:+ err))
      | Ok config =>
          Info [("users", VInt (Z.of_nat (length (Config.Users config))));
                ("groups", VInt (Z.of_nat (length (Config.Groups config))))]
               "Configuration loaded successfully";;
          mret (Ok config)
      end
  end.

Definition GetDatabaseConnection (w : World) : M (result DatabaseConnection.t) :=
  Info [] "Reading database connection from environment variables";;
  let Host := getEnvOrDefault w "POSTGRES_HOST" "localhost" in
  let Database := getEnvOrDefault w "POSTGRES_DB" "postgres" in
  let Username := getEnvOrDefault w "POSTGRES_USER" "postgres" in
  let Password := Getenv w "POSTGRES_PASSWORD" in
  let SSLMode := getEnvOrDefault w "POSTGRES_SSLMODE" "require" in
  let IAMAuth := bool_decide (getEnvOrDefault w "POSTGRES_IAM_AUTH" "false" = "true") in
  let AWSRegion := getEnvOrDefault w "AWS_REGION" "us-east-1" in
  let portStr := getEnvOrDefault w "POSTGRES_PORT" "5432" in
  match Atoi portStr with
  | None => mret (Err ("invalid POSTGRES_PORT: " +:+ portStr))
  | Some port =>
      checked ←
        (if IAMAuth then
           Info [] "Using IAM authentication for database connection";;
           if decide (AWSRegion = "") then
             mret (Err "AWS_REGION environment variable is required for IAM authentication")
           else
             SSLMode ←
               (if decide (SSLMode = "disable") then
                  Warn [] "Forcing SSL mode to 'require' for IAM authentication";;
                  mret "require"
                else mret SSLMode);
             mret (Ok (DatabaseConnection.mk Host port Database Username Password
                         SSLMode IAMAuth AWSRegion (Getenv w "POSTGRES_IAM_TOKEN")))
         else
           Info [] "Using password authentication for database connection";;
           if decide (Password = "") then
             mret (Err "POSTGRES_PASSWORD environment variable is required for password authentication")
           else
             mret (Ok (DatabaseConnection.mk Host port Database Username Password
                         SSLMode IAMAuth AWSRegion "")));
      match checked with
      | Err err => mret (Err err)
      | Ok conn =>
          Info [("host", VString (DatabaseConnection.Host conn));
                ("port", VInt (DatabaseConnection.Port conn));
                ("database", VString (DatabaseConnection.Database conn));
                ("username", VString (DatabaseConnection.Username conn));
                ("sslmode", VString (DatabaseConnection.SSLMode conn));
                ("iam_auth", VBool (DatabaseConnection.IAMAuth conn));
                ("aws_region", VString (DatabaseConnection.AWSRegion conn))]
               "Database connection configuration loaded";;
          mret (Ok conn)
      end
  end.

(** ** cmd *)

(** [Logger.Error(err)] for each collected error. *)
Fixpoint reportErrors (errs : list error) : M unit :=
  match errs with
  | [] => mret tt
  | err :: rest => Error [] err;; reportErrors rest
  end.

(** [runSync], with the flags [--config] and [--dry-run] as arguments; the
    deferred [dbManager.Close()] runs on every path after [NewManager]. *)
Definition runSync (w : World) (configPath : string) (dryRun : bool)
  : M (option error) :=
  Info [] "Starting sync operation";;
  cfg ← LoadConfig w configPath;
  match cfg with
  | Err err => mret (Some ("failed to load configuration: " +:+ err))
  | Ok cfg =>
      dbConn ← GetDatabaseConnection w;
      match dbConn with
      | Err err => mret (Some ("failed to get database connection: " +:+ err))
      | Ok dbConn =>
          dbManager ← NewManager (sqlOpen w) dbConn dryRun;
          match dbManager with
          | Err err => mret (Some ("failed to initialize database manager: " +:+ err))
          | Ok dbManager =>
              '(result, err) ← SyncConfiguration dbManager cfg;
              ret ←
                match err with
                | Some err => mret (Some ("sync failed: " +:+ err))
                | None =>
                    Info [("users_created",
                           VInt (Z.of_nat (length (SyncResult.UsersCreated result))));
                          ("users_modified",
                           VInt (Z.of_nat (length (SyncResult.UsersModified result))));
                          ("users_removed",
                           VInt (Z.of_nat (length (SyncResult.UsersRemoved result))));
                          ("groups_created",
                           VInt (Z.of_nat (length (SyncResult.GroupsCreated result))));
                          ("errors",
                           VInt (Z.of_nat (length (SyncResult.Errors result))))]
                         "Sync completed";;
                    reportErrors (SyncResult.Errors result);;
                    if decide (0 < Z.of_nat (length (SyncResult.Errors result))) then
                      mret (Some ("sync completed with "
                                    +:+ fmt_d (Z.of_nat (length (SyncResult.Errors result)))
                                    +:+ " errors"))
                    else mret None
                end;
              Close dbManager;;
              mret ret
          end
      end
  end.

End Command.

(** ** Statements and their interpolation points

    Every statement text the manager sends through [Exec] comes from one of
    nine formatting sites.  [pieces] records, for each site, the fixed text of
    its format string and how each argument reaches it: through
    [quoteIdentifier] ([Ident]), through [escapeString] ([Literal]), through
    [%d] ([Number]), or as it is ([Verbatim]). *)

Inductive Piece :=
| Text (s : string)
| Ident (name : string)
| Literal (s : string)
| Number (n : Z)
| Verbatim (s : string).

Definition renderPiece (p : Piece) : string :=
  match p with
  | Text s => s
  | Ident name => quoteIdentifier name
  | Literal s => escapeString s
  | Number n => fmt_d n
  | Verbatim s => s
  end.

Definition render (ps : list Piece) : string :=
  foldr (λ p acc, renderPiece p +:+ acc) "" ps.

Inductive Stmt :=
| CreateUserStmt (user : UserConfig.t)
| GrantRDSIAMStmt (username : string)
| RevokeRDSIAMStmt (username : string)
| DropUserStmt (username : string)
| CreateRoleStmt (group : GroupConfig.t)
| GrantStmt (priv db target : string)
| RevokeStmt (priv db target : string)
| AddMemberStmt (username groupName : string)
| RemoveMemberStmt (username groupName : string).

Definition pieces (st : Stmt) : list Piece :=
  match st with
  | CreateUserStmt user =>
      [Text "CREATE USER "; Ident (UserConfig.Username user)]
      ++ (if decide (UserConfig.AuthMethod user = "iam") then []
          else if decide (UserConfig.Password user ≠ "") then
            [Text " WITH PASSWORD '"; Literal (UserConfig.Password user); Text "'"]
          else [])
      ++ [Text (if UserConfig.CanLogin user then " LOGIN" else " NOLOGIN")]
      ++ (if decide (UserConfig.ConnectionLimit user ≠ 0) then
            if decide (UserConfig.ConnectionLimit user = -1) then
              [Text " CONNECTION LIMIT -1"]
            else [Text " CONNECTION LIMIT "; Number (UserConfig.ConnectionLimit user)]
          else [])
  | GrantRDSIAMStmt username => [Text "GRANT rds_iam TO "; Ident username]
  | RevokeRDSIAMStmt username => [Text "REVOKE rds_iam FROM "; Ident username]
  | DropUserStmt username => [Text "DROP USER "; Ident username]
  | CreateRoleStmt group =>
      [Text "CREATE ROLE "; Ident (GroupConfig.Name group);
       Text (if GroupConfig.Inherit group then " INHERIT" else " NOINHERIT")]
  | GrantStmt priv db target =>
      [Text "GRANT "; Verbatim priv; Text " ON DATABASE "; Ident db;
       Text " TO "; Ident target]
  | RevokeStmt priv db target =>
      [Text "REVOKE "; Verbatim priv; Text " ON DATABASE "; Ident db;
       Text " FROM "; Ident target]
  | AddMemberStmt username groupName =>
      [Text "GRANT "; Ident groupName; Text " TO "; Ident username]
  | RemoveMemberStmt username groupName =>
      [Text "REVOKE "; Ident groupName; Text " FROM "; Ident username]
  end.

(** The text of a statement, as the manager's own code builds it. *)
Definition statementText {DB} (m : Manager DB) (d : DB) (st : Stmt) : string :=
  match st with
  | CreateUserStmt user => (buildCreateUserQuery m user d).1.1
  | GrantRDSIAMStmt username => grantRDSIAMRoleQuery username
  | RevokeRDSIAMStmt username => revokeRDSIAMRoleQuery username
  | DropUserStmt username => dropUserQuery username
  | CreateRoleStmt group => createGroupQuery group
  | GrantStmt priv db target => grantQuery priv db target
  | RevokeStmt priv db target => revokeQuery priv db target
  | AddMemberStmt username groupName => addUserToGroupQuery username groupName
  | RemoveMemberStmt username groupName => removeUserFromGroupQuery username groupName
  end.

Definition isVerbatim (p : Piece) : bool :=
  match p with Verbatim _ => true | _ => false end.

(** No argument reaches the statement text as it is. *)
Definition sanitized (st : Stmt) : bool := forallb (λ p, negb (isVerbatim p)) (pieces st).

(** A statement text that one of the nine sites builds. *)
Definition built (query : string) : Prop := ∃ st, query = render (pieces st).

(** A delimited body: every occurrence of the delimiter [q] is doubled. *)
Fixpoint doubled (q : ascii) (s : string) : bool :=
  match s with
  | EmptyString => true
  | String c rest =>
      if decide (c = q) then
        match rest with
        | String c' rest' => if decide (c' = q) then doubled q rest' else false
        | EmptyString => false
        end
      else doubled q rest
  end.

(** ** The specification's reading of three operations *)

(** The CREATE statement as §4.4 words it: the quoted username, then the
    password clause, then the login clause, then the connection-limit
    clause. *)
Definition specPasswordClause (user : UserConfig.t) : string :=
  if decide (UserConfig.AuthMethod user = "iam") then ""
  else if decide (UserConfig.Password user ≠ "") then
    " WITH PASSWORD '" +:+ escapeString (UserConfig.Password user) +:+ "'"
  else "".

Definition specLoginClause (user : UserConfig.t) : string :=
  if UserConfig.CanLogin user then " LOGIN" else " NOLOGIN".

Definition specConnectionLimitClause (user : UserConfig.t) : string :=
  let limit := UserConfig.ConnectionLimit user in
  if decide (limit ≠ 0) then
    " CONNECTION LIMIT " +:+ (if decide (limit = -1) then "-1" else fmt_d limit)
  else "".

Definition specCreateUserStatement (user : UserConfig.t) : string :=
  "CREATE USER " +:+ quoteIdentifier (UserConfig.Username user)
    +:+ specPasswordClause user
    +:+ specLoginClause user
    +:+ specConnectionLimitClause user.

(** The cross-product of §4.4, databases outermost. *)
Definition specPairs (databases privileges : list string) : list (string * string) :=
  database ← databases; priv ← privileges; [(database, priv)].

(** One statement per pair, in order, stopping at the first one the server
    rejects: the outcome, the server state, and the statements sent. *)
Fixpoint specIssue {DB} (h : sqlDB DB) (stmt : string * string → string)
    (wrap : string * string → error → error) (ps : list (string * string)) (d : DB)
  : option error * DB * list string :=
  match ps with
  | [] => (None, d, [])
  | p :: rest =>
      let '(d1, e) := sqlExec h (stmt p) d in
      match e with
      | Some err => (Some (wrap p err), d1, [stmt p])
      | None =>
          let '(r, d2, sent) := specIssue h stmt wrap rest d1 in
          (r, d2, stmt p :: sent)
      end
  end.

(** The membership step of §4.5 for one user: one statement per declared
    group name, each attempted whatever became of the ones before it; the
    errors of the rejected ones, as the orchestrator records them, and the
    server state afterwards. *)
Fixpoint specMemberships {DB} (h : sqlDB DB) (username : string) (groups : list string)
    (d : DB) : list error * DB :=
  match groups with
  | [] => ([], d)
  | groupName :: rest =>
      let '(d1, e) := sqlExec h (addUserToGroupQuery username groupName) d in
      let '(errs, d2) := specMemberships h username rest d1 in
      let tag := "failed to add user " +:+ username +:+ " to group " +:+ groupName
                   +:+ ": " in
      (match e with Some err => [tag +:+ tag +:+ err] | None => [] end ++ errs, d2)
  end.

(** ** More observations on traces *)

(** The driver calls of a trace: everything but its log lines. *)
Definition driverCalls (evs : list Event) : list Event :=
  List.filter (λ ev, match ev with EvLog _ _ _ => false | _ => true end) evs.

(** The statements a trace logged as "would execute" instead of executing. *)
Fixpoint previews (evs : list Event) : list string :=
  match evs with
  | [] => []
  | EvLog InfoLevel [(_, VString query)] msg :: rest =>
      if decide (msg = "DRY RUN: Would execute query") then query :: previews rest
      else previews rest
  | _ :: rest => previews rest
  end.

(** The outcome of a guarded operation whose guard was the only thing run. *)
Definition guardOutcome (what : string) (r : RowResult) : option error :=
  match r with
  | RowErr err => Some ("failed to check if " +:+ what +:+ " exists: " +:+ err)
  | _ => None
  end.

(** ** A scripted server

    A small server for running the operations on concrete inputs.  Its state
    is the list of the statements it has accepted; it rejects the statements
    listed in [bad], and every call when [broken]; a user exists once a
    CREATE USER statement for its quoted name was accepted, a role once a
    CREATE ROLE or CREATE USER statement was. *)

Definition created (kind name : string) (d : list string) : bool :=
  existsb (String.prefix (kind +:+ quoteIdentifier name +:+ " ")) d.

Definition scripted (bad : list string) (broken : bool) : sqlDB (list string) := {|
  sqlPing := λ d, if broken then Some "connection refused" else None;
  sqlExec := λ q d,
    if broken then (d, Some "connection refused")
    else if bool_decide (q ∈ bad) then (d, Some "rejected by the server")
    else (d ++ [q], None);
  sqlQueryRow := λ q args d,
    if broken then RowErr "connection refused"
    else match args with
         | [name] =>
             if decide (q = userExistsQuery) then
               if created "CREATE USER " name d then RowFound else ErrNoRows
             else if decide (q = groupExistsQuery) then
               if created "CREATE USER " name d || created "CREATE ROLE " name d
               then RowFound else ErrNoRows
             else RowErr "unknown query"
         | _ => RowErr "wrong number of parameters"
         end;
  sqlQuery := λ q args d,
    if broken then Err "connection refused" else Ok []
|}.

Definition scriptedWorld (env : gmap string string) (bad : list string) (broken : bool)
  : World (list string) := {|
  environ := env;
  readFile := λ _, Content "{}";
  jsonUnmarshal := λ _, Ok (Config.mk [] []);
  sqlOpen := λ _ _, Ok (scripted bad broken)
|}.

(** ** Concrete inputs *)

Definition live : Manager (list string) := {| db := scripted [] false; dryRun := false |}.
Definition preview : Manager (list string) := {| db := scripted [] false; dryRun := true |}.
Definition offline (dryRun : bool) : Manager (list string) :=
  {| db := scripted [] true; dryRun := dryRun |}.

Definition mallory : UserConfig.t :=
  UserConfig.mk "mallory" "s3cret" [] [] [] true "" "password" "" true (-5).

Definition alice : UserConfig.t :=
  UserConfig.mk "alice" "p@ss" ["app_group"] [] [] true "" "password" "" true 0.
Definition app_group : GroupConfig.t :=
  GroupConfig.mk "app_group" ["CONNECT"] ["app"] "" true.

(** The server after both were created. *)
Definition provisioned : list string :=
  [createGroupQuery app_group; specCreateUserStatement alice].

(** A user whose first group does not exist on the server. *)
Definition carol : UserConfig.t :=
  UserConfig.mk "carol" "pw" ["ghost"; "app_group"] [] [] true "" "password" "" true 0.
Definition picky : Manager (list string) :=
  {| db := scripted [addUserToGroupQuery "carol" "ghost"] false; dryRun := false |}.

(** A configuration whose first group and first user the server refuses to
    create. *)
Definition locked_group : GroupConfig.t :=
  GroupConfig.mk "locked" ["CONNECT"] ["app"] "" false.
Definition dave : UserConfig.t :=
  UserConfig.mk "dave" "pw" ["app_group"] ["CONNECT"] ["app"] true "" "password" "" true 0.
Definition bob : UserConfig.t :=
  UserConfig.mk "bob" "" [] [] [] false "" "" "" false 0.
Definition troubled : Config.t :=
  Config.mk [dave; bob; alice] [locked_group; app_group].
Definition refusing : Manager (list string) :=
  {| db := scripted [createGroupQuery locked_group; specCreateUserStatement dave] false;
     dryRun := false |}.

(** A privilege entry that is more than a keyword. *)
Definition payload : string := "ALL ON DATABASE app TO public; --".

(** ** cmd: the other commands *)

(** The flags of [create-user], as [runCreateUser] reads them. *)
Module CreateUserFlags.
Record t := mk {
  password : string;
  groups : list string;
  privileges : list string;
  databases : list string;
  authMethod : string;
  iamRole : string;
  canLogin : bool;
  connectionLimit : Z;
  description : string
}.
End CreateUserFlags.

Section Commands.

Context {DB : Type}.
Local Abbreviation M := (M DB).
Local Abbreviation World := (World DB).
Local Abbreviation Manager := (Manager DB).

(** [for _, group := range groups] of [runCreateUser]: a failure is logged
    as a warning and nothing else. *)
Fixpoint warnAddUserToGroups (m : Manager) (username : string) (groups : list string)
  : M unit :=
  match groups with
  | [] => mret tt
  | group :: rest =>
      e ← AddUserToGroup m username group;
      match e with
      | Some err =>
          Warn [("error", VString err)] ("Failed to add user to group " +:+ group)
      | None => mret tt
      end;;
      warnAddUserToGroups m username rest
  end.

(** [runCreateUser]; [username] is [args[0]]. *)
Definition runCreateUser (w : World) (dryRun : bool) (username : string)
    (flags : CreateUserFlags.t) : M (option error) :=
  let password := CreateUserFlags.password flags in
  let groups := CreateUserFlags.groups flags in
  let privileges := CreateUserFlags.privileges flags in
  let databases := CreateUserFlags.databases flags in
  let authMethod := CreateUserFlags.authMethod flags in
  let iamRole := CreateUserFlags.iamRole flags in
  Info [("username", VString username); ("auth_method", VString authMethod)]
       "Creating user";;
  if decide (authMethod ≠ "password" ∧ authMethod ≠ "iam") then
    mret (Some ("invalid auth-method: " +:+ authMethod
                  +:+ " (must be 'password' or 'iam')"))
  else
    (if decide (authMethod = "iam") then
       if decide (password ≠ "") then
         Warn [] "Password specified for IAM authentication user - password will be ignored"
       else mret tt
     else
       if decide (iamRole ≠ "") then
         Warn [] "IAM role specified for password authentication user - IAM role will be ignored"
       else mret tt);;
    dbConn ← GetDatabaseConnection w;
    match dbConn with
    | Err err => mret (Some ("failed to get database connection: " +:+ err))
    | Ok dbConn =>
        dbManager ← NewManager (sqlOpen w) dbConn dryRun;
        match dbManager with
        | Err err => mret (Some ("failed to initialize database manager: " +:+ err))
        | Ok dbManager =>
            let userConfig :=
              UserConfig.mk username password groups privileges databases true
                (CreateUserFlags.description flags) authMethod iamRole
                (CreateUserFlags.canLogin flags)
                (CreateUserFlags.connectionLimit flags) in
            ret ←
              (e ← CreateUser dbManager userConfig;
               match e with
               | Some err => mret (Some ("failed to create user: " +:+ err))
               | None =>
                   warnAddUserToGroups dbManager username groups;;
                   (if decide (0 < Z.of_nat (length privileges)
                               ∧ 0 < Z.of_nat (length databases)) then
                      e ← GrantPrivileges dbManager username privileges databases;
                      match e with
                      | Some err =>
                          Warn [("error", VString err)] "Failed to grant privileges"
                      | None => mret tt
                      end
                    else mret tt);;
                   Info [("username", VString username);
                         ("auth_method", VString authMethod)]
                        "User created successfully";;
                   mret None
               end);
            Close dbManager;;
            mret ret
        end
    end.

(** [runDropUser]; [username] is [args[0]]. *)
Definition runDropUser (w : World) (dryRun : bool) (username : string)
  : M (option error) :=
  Info [("username", VString username)] "Dropping user";;
  dbConn ← GetDatabaseConnection w;
  match dbConn with
  | Err err => mret (Some ("failed to get database connection: " +:+ err))
  | Ok dbConn =>
      dbManager ← NewManager (sqlOpen w) dbConn dryRun;
      match dbManager with
      | Err err => mret (Some ("failed to initialize database manager: " +:+ err))
      | Ok dbManager =>
          ret ←
            (e ← DropUser dbManager username;
             match e with
             | Some err => mret (Some ("failed to drop user: " +:+ err))
             | None =>
                 Info [("username", VString username)] "User dropped successfully";;
                 mret None
             end);
          Close dbManager;;
          mret ret
      end
  end.

(** [runListUsers]: the lines it writes to standard output, and its error. *)
Definition runListUsers (w : World) (dryRun : bool) : M (list string * option error) :=
  Info [] "Listing users";;
  dbConn ← GetDatabaseConnection w;
  match dbConn with
  | Err err => mret ([], Some ("failed to get database connection: " +:+ err))
  | Ok dbConn =>
      dbManager ← NewManager (sqlOpen w) dbConn dryRun;
      match dbManager with
      | Err err => mret ([], Some ("failed to initialize database manager: " +:+ err))
      | Ok dbManager =>
          Close dbManager;;
          mret (["User listing functionality to be implemented"], None)
      end
  end.

Definition runValidate (w : World) (configPath : string) : M (option error) :=
  Info [("config", VString configPath)] "Validating configuration";;
  cfg ← LoadConfig w configPath;
  match cfg with
  | Err err => mret (Some ("configuration validation failed: " +:+ err))
  | Ok _ =>
      Info [] "Configuration is valid";;
      mret None
  end.

End Commands.

(** ** internal/events *)

Module EventPayload.
(** [Value] stands for the decoded JSON values of [Metadata], [Time] for
    [time.Time]. *)
Record t (Value Time : Type) := mk {
  EventType : string;
  UserID : string;
  Username : string;
  Groups : list string;
  Metadata : gmap string Value;
  Timestamp : Time
}.
Arguments EventType {Value Time} _.
Arguments UserID {Value Time} _.
Arguments Username {Value Time} _.
Arguments Groups {Value Time} _.
Arguments Metadata {Value Time} _.
Arguments Timestamp {Value Time} _.
End EventPayload.

(** What the handler's logger is given. *)
Inductive HandlerEntry :=
| HDebug (fields : list (string * FieldValue)) (msg : string)
| HInfo (fields : list (string * FieldValue)) (msg : string)
| HWarn (fields : list (string * FieldValue)) (msg : string).

Section Events.

Context {Value Time : Type}.
(** [json.Unmarshal] into an [EventPayload], and
    [Timestamp.Format(time.RFC3339)]. *)
Variable unmarshalEvent : string → result (EventPayload.t Value Time).
Variable formatRFC3339 : Time → string.

Definition ProcessEvent (eventData : string) : list HandlerEntry * result UserConfig.t :=
  let log := [HDebug [] "Processing incoming event"] in
  match unmarshalEvent eventData with
  | Err err => (log, Err ("failed to unmarshal event: " +:+ err))
  | Ok event =>
      let log :=
        log ++ [HInfo [("event_type", VString (EventPayload.EventType event));
                       ("user_id", VString (EventPayload.UserID event));
                       ("username", VString (EventPayload.Username event))]
                  "Processing event"] in
      let userConfig :=
        UserConfig.mk (EventPayload.Username event) "" (EventPayload.Groups event)
          [] [] true
          ("User created from Cognito event at "
             +:+ formatRFC3339 (EventPayload.Timestamp event))
          "" "" false 0 in
      let eventType := EventPayload.EventType event in
      if decide (eventType = "PostConfirmation_ConfirmSignUp") then
        (log ++ [HInfo [] "Handling user signup confirmation"], Ok userConfig)
      else if decide (eventType = "GroupMembership_GroupAdded") then
        (log ++ [HInfo [] "Handling group membership addition"], Ok userConfig)
      else if decide (eventType = "GroupMembership_GroupRemoved") then
        (log ++ [HInfo [] "Handling group membership removal"], Ok userConfig)
      else if decide (eventType = "UserMigration_Authentication") then
        (log ++ [HInfo [] "Handling user migration"], Ok userConfig)
      else
        (log ++ [HWarn [("event_type", VString eventType)] "Unknown event type"],
         Err ("unknown event type: " +:+ eventType))
  end.

Definition ValidateEvent (event : EventPayload.t Value Time) : option error :=
  if decide (EventPayload.EventType event = "") then Some "event type is required"
  else if decide (EventPayload.Username event = "") then Some "username is required"
  else if decide (EventPayload.UserID event = "") then Some "user ID is required"
  else None.

End Events.

Definition roleMapping : gmap string string :=
  <["Admins" := "admin_group"]>
    (<["Users" := "app_group"]>
       (<["ReadOnly" := "read_only"]>
          (<["Developers" := "dev_group"]> ∅))).

(** The loop of [MapCognitoGroupsToRoles]. *)
Fixpoint mapGroups (groups : list string) (roles : list string) : list string :=
  match groups with
  | [] => roles
  | group :: rest =>
      match roleMapping !! group with
      | Some role => mapGroups rest (roles ++ [role])
      | None => mapGroups rest (roles ++ [group])
      end
  end.

Definition MapCognitoGroupsToRoles (groups : list string)
  : list HandlerEntry * list string :=
  ([HDebug [("groups", VStrings groups)] "Mapping Cognito groups to PostgreSQL roles"],
   mapGroups groups []).

Definition SanitizeUsername (username : string) : string := username.

(** ** Predicates for the further properties *)

(** The number of occurrences of a byte in a string. *)
Fixpoint countByte (c : ascii) (s : string) : nat :=
  match s with
  | EmptyString => 0%nat
  | String x rest => ((if decide (x = c) then 1 else 0) + countByte c rest)%nat
  end.

(** The effective password of [NewManager]. *)
Definition connPassword (conn : DatabaseConnection.t) : string :=
  if DatabaseConnection.IAMAuth conn then
    if decide (DatabaseConnection.IAMToken conn = "") then "PLACEHOLDER_IAM_TOKEN"
    else DatabaseConnection.IAMToken conn
  else DatabaseConnection.Password conn.

(** A statement that only adds to the server: a CREATE or a GRANT. *)
Definition additive (query : string) : Prop :=
  String.prefix "CREATE " query = true ∨ String.prefix "GRANT " query = true.

(** [r'] is [r] with the given names appended to [GroupsCreated] and
    [UsersCreated] and the given errors to [Errors], and nothing else
    changed. *)
Definition grows (r r' : SyncResult.t) (groups users : list string) (errs : list error)
  : Prop :=
  r' = SyncResult.mk (SyncResult.UsersCreated r ++ users) (SyncResult.UsersModified r)
         (SyncResult.UsersRemoved r) (SyncResult.GroupsCreated r ++ groups)
         (SyncResult.GroupsModified r) (SyncResult.GroupsRemoved r)
         (SyncResult.Errors r ++ errs).

(** The configuration without its disabled users. *)
Definition enabledOnly (config : Config.t) : Config.t :=
  Config.mk (List.filter UserConfig.Enabled (Config.Users config)) (Config.Groups config).

(** What a synchronization may do: log, look a principal up, and execute an
    additive statement. *)
Definition syncEvent (ev : Event) : Prop :=
  match ev with
  | EvLog _ _ _ => True
  | EvQueryRow _ _ => True
  | EvExec query => additive query
  | _ => False
  end.

(** A world whose configuration file decodes to [troubled] and whose server
    is the refusing one. *)
Definition troubledWorld : World (list string) := {|
  environ := {[ "POSTGRES_PASSWORD" := "pw" ]};
  readFile := λ _, Content "{}";
  jsonUnmarshal := λ _, Ok troubled;
  sqlOpen := λ _ _, Ok (db refusing)
|}.

(** A trace that executes no statement and does not ping. *)
Definition inert (evs : list Event) : Prop := execs evs = [] ∧ EvPing ∉ evs.

(** A world with a password in the environment and the picky server, and the
    flags of a [create-user carol] that names a missing group first. *)
Definition pickyWorld : World (list string) := {|
  environ := {[ "POSTGRES_PASSWORD" := "pw" ]};
  readFile := λ _, NotExist;
  jsonUnmarshal := λ _, Err "unused";
  sqlOpen := λ _ _, Ok (db picky)
|}.
Definition carolFlags : CreateUserFlags.t :=
  CreateUserFlags.mk "pw" ["ghost"; "app_group"] [] [] "password" "" true 0 "".

(** A server that has the user and answers the membership query with the
    given rows. *)
Definition canned (rows : result (list (result string))) : sqlDB unit := {|
  sqlPing := λ _, None;
  sqlExec := λ _ d, (d, None);
  sqlQueryRow := λ _ _ _, RowFound;
  sqlQuery := λ _ _ _, rows
|}.

Definition iam_user : UserConfig.t :=
  UserConfig.mk "iam_user" "unused" [] [] [] true "" "iam" "arn:aws:iam::1:role/r" true 0.

(** A server on which the rds_iam role is missing. *)
Definition without_rds_iam : Manager (list string) :=
  {| db := scripted [grantRDSIAMRoleQuery "iam_user"] false; dryRun := false |}.

(** An event the handler's own validation rejects: it names no user. *)
Definition nameless : EventPayload.t unit Z :=
  EventPayload.mk unit Z "GroupMembership_GroupAdded" "u-2" "" ["Admins"] ∅ 0.

(** The event types [ProcessEvent] handles. *)
Definition handledEventTypes : list string :=
  ["PostConfirmation_ConfirmSignUp"; "GroupMembership_GroupAdded";
   "GroupMembership_GroupRemoved"; "UserMigration_Authentication"].



(** * Theorems *)

(** ** Running a computation *)

Lemma execs_app (l1 l2 : list Event) : execs (l1 ++ l2) = execs l1 ++ execs l2.
Proof.
  induction l1 as [|[] l1 IH]; simpl; auto. by rewrite IH.
Qed.

Lemma reads_app (l1 l2 : list Event) : reads (l1 ++ l2) = reads l1 ++ reads l2.
Proof.
  induction l1 as [|[] l1 IH]; simpl; auto; by rewrite IH.
Qed.

Lemma logged_app (l1 l2 : list Event) : logged (l1 ++ l2) = logged l1 ++ logged l2.
Proof.
  induction l1 as [|[] l1 IH]; simpl; auto; by rewrite IH.
Qed.

Ltac run :=
  unfold mbind, M_bind, mret, M_ret, Info, Warn, Error, dryRunLog, emit,
    dbExec, dbQueryRow, dbQuery, dbPing, dbClose in *;
  simpl in *.

(** ** String concatenation *)

Lemma append_cons (c : ascii) (a b : string) : String c a +:+ b = String c (a +:+ b).
Proof. reflexivity. Qed.

Lemma append_assoc (a b c : string) : (a +:+ b) +:+ c = a +:+ (b +:+ c).
Proof.
  induction a as [|x a IH]; [reflexivity|].
  rewrite !append_cons. by rewrite IH.
Qed.

Lemma append_nil_r (a : string) : a +:+ "" = a.
Proof.
  induction a as [|x a IH]; [reflexivity|].
  rewrite append_cons. by rewrite IH.
Qed.

Lemma fmt_d_negative (n : Z) : n < 0 → fmt_d n = "-" +:+ fmt_d (- n).
Proof.
  intros Hn. unfold fmt_d. destruct n; [lia|lia|reflexivity].
Qed.

(** ** buildCreateUserQuery *)

Lemma buildCreateUserQuery_run {DB} (m : Manager DB) (user : UserConfig.t) (d : DB) :
  buildCreateUserQuery m user d
  = (specCreateUserStatement user, d,
     if decide (UserConfig.AuthMethod user = "iam") then
       [EvLog InfoLevel [("username", VString (UserConfig.Username user))]
          "Creating user for IAM authentication (no password)"]
     else []).
Proof.
  unfold buildCreateUserQuery, specCreateUserStatement, specPasswordClause,
    specLoginClause, specConnectionLimitClause.
  run.
  repeat case_decide; destruct (UserConfig.CanLogin user); simpl;
    try lia; rewrite ?append_assoc, ?append_nil_r; auto.
Qed.

(** C5. The statement [buildCreateUserQuery] returns is the quoted username
    after CREATE USER, then the password clause (absent for the "iam" method
    and for an empty password, otherwise the password through
    [escapeString]), then LOGIN or NOLOGIN, then, exactly when the connection
    limit is not 0, the CONNECTION LIMIT clause; building it touches neither
    the server state nor the driver. *)
Theorem buildCreateUserQuery_clauses {DB} (m : Manager DB) (user : UserConfig.t) (d : DB) :
  let '(query, d', evs) := buildCreateUserQuery m user d in
  query = specCreateUserStatement user ∧ d' = d ∧ execs evs = [] ∧ reads evs = [].
Proof.
  rewrite buildCreateUserQuery_run. by case_decide.
Qed.

(** C10. A negative connection limit other than -1 still yields a CONNECTION
    LIMIT clause, with that negative number written out: a minus sign and the
    digits of its absolute value. *)
Theorem buildCreateUserQuery_negative_limit {DB} (m : Manager DB)
    (user : UserConfig.t) (d : DB) :
  UserConfig.ConnectionLimit user < 0 →
  UserConfig.ConnectionLimit user ≠ -1 →
  (buildCreateUserQuery m user d).1.1 =
    "CREATE USER " +:+ quoteIdentifier (UserConfig.Username user)
      +:+ specPasswordClause user +:+ specLoginClause user
      +:+ " CONNECTION LIMIT -" +:+ fmt_d (- UserConfig.ConnectionLimit user).
Proof.
  intros Hneg Hne.
  pose proof (fmt_d_negative _ Hneg) as Hfmt.
  unfold buildCreateUserQuery, specPasswordClause, specLoginClause.
  run.
  repeat case_decide; destruct (UserConfig.CanLogin user); simpl;
    try lia; rewrite Hfmt, ?append_assoc, ?append_nil_r; auto.
Qed.

Lemma buildCreateUserQuery_negative_limit_witness :
  UserConfig.ConnectionLimit mallory < 0 ∧
  UserConfig.ConnectionLimit mallory ≠ -1 ∧
  (buildCreateUserQuery live mallory []).1.1 =
    "CREATE USER " +:+ quoteIdentifier "mallory"
      +:+ specPasswordClause mallory +:+ specLoginClause mallory
      +:+ " CONNECTION LIMIT -" +:+ fmt_d (- (-5)).
Proof.
  split; [reflexivity|]. split; [discriminate|].
  apply (buildCreateUserQuery_negative_limit live mallory []);
    [reflexivity|discriminate].
Defined.

(** ** Reads *)

(** C9. [UserExists], [GroupExists] and [GetUserInfo] send a fixed SQL text
    and pass the name, whatever bytes it holds, as the one bound parameter;
    they execute no statement and leave the server state as it is.  When the
    catalog has no row for the name, the answer is [(false, nil)], and
    [GetUserInfo] gives a record with [Exists = false] and no groups, without
    issuing the membership query. *)
Theorem reads_bind_the_name {DB} (m : Manager DB) (now : Z) (name : string) (d : DB) :
  UserExists m name d
    = (existsOf (sqlQueryRow (db m) userExistsQuery [name] d), d,
       [EvQueryRow userExistsQuery [name]])
  ∧ GroupExists m name d
    = (existsOf (sqlQueryRow (db m) groupExistsQuery [name] d), d,
       [EvQueryRow groupExistsQuery [name]])
  ∧ (let '(_, d', evs) := GetUserInfo m now name d in
     d' = d ∧ execs evs = []
     ∧ (reads evs = [(userExistsQuery, [name])]
        ∨ reads evs = [(userExistsQuery, [name]); (groupQuery, [name])]))
  ∧ (sqlQueryRow (db m) userExistsQuery [name] d = ErrNoRows →
     (UserExists m name d).1.1 = (false, None)
     ∧ GetUserInfo m now name d
       = (Ok (DatabaseUser.mk name [] [] [] false now), d,
          [EvQueryRow userExistsQuery [name]]))
  ∧ (sqlQueryRow (db m) groupExistsQuery [name] d = ErrNoRows →
     (GroupExists m name d).1.1 = (false, None)).
Proof.
  unfold UserExists, GroupExists, GetUserInfo. run.
  split; [reflexivity|]. split; [reflexivity|]. split.
  - destruct (sqlQueryRow (db m) userExistsQuery [name] d); simpl; auto.
    destruct (sqlQuery (db m) groupQuery [name] d) as [rows|]; simpl; auto.
    destruct (scanGroups rows []); simpl; auto.
  - split; intros Habsent; rewrite Habsent; simpl; auto.
Qed.

Lemma reads_bind_the_name_witness :
  sqlQueryRow (db live) userExistsQuery ["o'brien"] [] = ErrNoRows
  ∧ sqlQueryRow (db live) groupExistsQuery ["o'brien"] [] = ErrNoRows
  ∧ (UserExists live "o'brien" []).1.1 = (false, None)
  ∧ GetUserInfo live 0 "o'brien" []
    = (Ok (DatabaseUser.mk "o'brien" [] [] [] false 0), [],
       [EvQueryRow userExistsQuery ["o'brien"]])
  ∧ (GroupExists live "o'brien" []).1.1 = (false, None).
Proof.
  pose proof (reads_bind_the_name live 0 "o'brien" []) as (_ & _ & _ & Hu & Hg).
  split; [reflexivity|]. split; [reflexivity|].
  destruct (Hu eq_refl) as [H1 H2]. split; [exact H1|]. split; [exact H2|].
  exact (Hg eq_refl).
Defined.

(** ** GrantPrivileges and RevokePrivileges *)

Lemma specPairs_cons (database : string) (databases privileges : list string) :
  specPairs (database :: databases) privileges
  = map (pair database) privileges ++ specPairs databases privileges.
Proof.
  unfold specPairs. simpl. f_equal.
Qed.

Lemma specIssue_app {DB} (h : sqlDB DB) stmt wrap (ps1 ps2 : list (string * string)) (d : DB) :
  specIssue h stmt wrap (ps1 ++ ps2) d
  = let '(e, d1, sent1) := specIssue h stmt wrap ps1 d in
    match e with
    | Some _ => (e, d1, sent1)
    | None =>
        let '(e2, d2, sent2) := specIssue h stmt wrap ps2 d1 in
        (e2, d2, sent1 ++ sent2)
    end.
Proof.
  revert d. induction ps1 as [|p ps1 IH]; intros d; simpl.
  - by destruct (specIssue h stmt wrap ps2 d) as [[e2 d2] sent2].
  - destruct (sqlExec h (stmt p) d) as [d1 [err|]]; [reflexivity|].
    rewrite IH.
    destruct (specIssue h stmt wrap ps1 d1) as [[[err|] d2] sent1]; [reflexivity|].
    by destruct (specIssue h stmt wrap ps2 d2) as [[e3 d3] sent3].
Qed.

(** What [specIssue] sends: a statement for every pair when none is rejected,
    and otherwise the statements up to and including the first rejected one. *)
Lemma specIssue_sent {DB} (h : sqlDB DB) stmt wrap (ps : list (string * string)) (d : DB) :
  let '(e, _, sent) := specIssue h stmt wrap ps d in
  match e with
  | None => sent = map stmt ps
  | Some _ => ∃ k, (k < length ps)%nat ∧ sent = map stmt (take (S k) ps)
  end.
Proof.
  revert d. induction ps as [|p ps IH]; intros d; simpl; [reflexivity|].
  destruct (sqlExec h (stmt p) d) as [d1 [err|]].
  - exists 0%nat. split; [lia|]. by rewrite take_0.
  - specialize (IH d1).
    destruct (specIssue h stmt wrap ps d1) as [[[err|] d2] sent].
    + destruct IH as (k & Hk & ->). exists (S k). split; [lia|reflexivity].
    + by rewrite IH.
Qed.

Lemma grantEachPrivilege_issue {DB} (h : sqlDB DB) (target database : string)
    (privileges : list string) (d : DB) :
  let '(e, d', evs) :=
    grantEachPrivilege {| db := h; dryRun := false |} target database privileges d in
  (e, d', execs evs)
  = specIssue h (λ p, grantQuery p.2 p.1 target) (λ p, grantError p.2 p.1 target)
      (map (pair database) privileges) d
  ∧ reads evs = [].
Proof.
  revert d. induction privileges as [|priv privileges IH]; intros d; simpl; [done|].
  run. destruct (sqlExec h (grantQuery priv database target) d) as [d1 [err|]];
    simpl; [done|].
  specialize (IH d1).
  destruct (grantEachPrivilege _ target database privileges d1) as [[e d2] evs].
  simpl. by destruct IH as [<- Hr].
Qed.

Lemma revokeEachPrivilege_issue {DB} (h : sqlDB DB) (target database : string)
    (privileges : list string) (d : DB) :
  let '(e, d', evs) :=
    revokeEachPrivilege {| db := h; dryRun := false |} target database privileges d in
  (e, d', execs evs)
  = specIssue h (λ p, revokeQuery p.2 p.1 target) (λ p, revokeError p.2 p.1 target)
      (map (pair database) privileges) d
  ∧ reads evs = [].
Proof.
  revert d. induction privileges as [|priv privileges IH]; intros d; simpl; [done|].
  run. destruct (sqlExec h (revokeQuery priv database target) d) as [d1 [err|]];
    simpl; [done|].
  specialize (IH d1).
  destruct (revokeEachPrivilege _ target database privileges d1) as [[e d2] evs].
  simpl. by destruct IH as [<- Hr].
Qed.

Lemma grantEachDatabase_issue {DB} (h : sqlDB DB) (target : string)
    (privileges databases : list string) (d : DB) :
  let '(e, d', evs) :=
    grantEachDatabase {| db := h; dryRun := false |} target privileges databases d in
  (e, d', execs evs)
  = specIssue h (λ p, grantQuery p.2 p.1 target) (λ p, grantError p.2 p.1 target)
      (specPairs databases privileges) d
  ∧ reads evs = [].
Proof.
  revert d. induction databases as [|database databases IH]; intros d; [done|].
  rewrite specPairs_cons, specIssue_app. simpl. run.
  pose proof (grantEachPrivilege_issue h target database privileges d) as Hin.
  destruct (grantEachPrivilege _ target database privileges d) as [[e d1] evs].
  destruct Hin as [<- Hr]. destruct e as [err|]; simpl.
  - by rewrite app_nil_r.
  - specialize (IH d1).
    destruct (grantEachDatabase _ target privileges databases d1) as [[e2 d2] evs2].
    destruct IH as [<- Hr2]. by rewrite execs_app, reads_app, Hr, Hr2.
Qed.

Lemma revokeEachDatabase_issue {DB} (h : sqlDB DB) (target : string)
    (privileges databases : list string) (d : DB) :
  let '(e, d', evs) :=
    revokeEachDatabase {| db := h; dryRun := false |} target privileges databases d in
  (e, d', execs evs)
  = specIssue h (λ p, revokeQuery p.2 p.1 target) (λ p, revokeError p.2 p.1 target)
      (specPairs databases privileges) d
  ∧ reads evs = [].
Proof.
  revert d. induction databases as [|database databases IH]; intros d; [done|].
  rewrite specPairs_cons, specIssue_app. simpl. run.
  pose proof (revokeEachPrivilege_issue h target database privileges d) as Hin.
  destruct (revokeEachPrivilege _ target database privileges d) as [[e d1] evs].
  destruct Hin as [<- Hr]. destruct e as [err|]; simpl.
  - by rewrite app_nil_r.
  - specialize (IH d1).
    destruct (revokeEachDatabase _ target privileges databases d1) as [[e2 d2] evs2].
    destruct IH as [<- Hr2]. by rewrite execs_app, reads_app, Hr, Hr2.
Qed.

Lemma grantEachDatabase_dry_run {DB} (h : sqlDB DB) (target : string)
    (privileges databases : list string) (d : DB) :
  let '(e, d', evs) :=
    grantEachDatabase {| db := h; dryRun := true |} target privileges databases d in
  e = None ∧ d' = d ∧ execs evs = [] ∧ reads evs = [].
Proof.
  induction databases as [|database databases IH]; simpl; [done|]. run.
  assert (Hin : let '(e, d', evs) :=
            grantEachPrivilege {| db := h; dryRun := true |} target database privileges d in
            e = None ∧ d' = d ∧ execs evs = [] ∧ reads evs = []).
  { clear IH. induction privileges as [|priv privileges IH]; simpl; [done|]. run.
    by destruct (grantEachPrivilege _ target database privileges d) as [[e d1] evs]. }
  destruct (grantEachPrivilege _ target database privileges d) as [[e d1] evs].
  destruct Hin as (-> & -> & He & Hr).
  destruct (grantEachDatabase _ target privileges databases d) as [[e2 d2] evs2].
  destruct IH as (-> & -> & He2 & Hr2).
  by rewrite execs_app, reads_app, He, Hr, He2, Hr2.
Qed.

Lemma revokeEachDatabase_dry_run {DB} (h : sqlDB DB) (target : string)
    (privileges databases : list string) (d : DB) :
  let '(e, d', evs) :=
    revokeEachDatabase {| db := h; dryRun := true |} target privileges databases d in
  e = None ∧ d' = d ∧ execs evs = [] ∧ reads evs = [].
Proof.
  induction databases as [|database databases IH]; simpl; [done|]. run.
  assert (Hin : let '(e, d', evs) :=
            revokeEachPrivilege {| db := h; dryRun := true |} target database privileges d in
            e = None ∧ d' = d ∧ execs evs = [] ∧ reads evs = []).
  { clear IH. induction privileges as [|priv privileges IH]; simpl; [done|]. run.
    by destruct (revokeEachPrivilege _ target database privileges d) as [[e d1] evs]. }
  destruct (revokeEachPrivilege _ target database privileges d) as [[e d1] evs].
  destruct Hin as (-> & -> & He & Hr).
  destruct (revokeEachDatabase _ target privileges databases d) as [[e2 d2] evs2].
  destruct IH as (-> & -> & He2 & Hr2).
  by rewrite execs_app, reads_app, He, Hr, He2, Hr2.
Qed.

Lemma previews_app (l1 l2 : list Event) :
  previews (l1 ++ l2) = previews l1 ++ previews l2.
Proof.
  induction l1 as [|ev l1 IH]; [reflexivity|].
  destruct ev as [[] [|[k []] []] msg| | | | | |]; simpl; auto.
  case_decide; simpl; by rewrite IH.
Qed.

Lemma grantEachDatabase_previews {DB} (h : sqlDB DB) (target : string)
    (privileges databases : list string) (d : DB) :
  previews (grantEachDatabase {| db := h; dryRun := true |} target privileges databases d).2
  = map (λ p, grantQuery p.2 p.1 target) (specPairs databases privileges).
Proof.
  induction databases as [|database databases IH]; [done|].
  rewrite specPairs_cons, map_app. simpl. run.
  assert (Hin : let '(e, d', evs) :=
            grantEachPrivilege {| db := h; dryRun := true |} target database privileges d in
            e = None ∧ d' = d
            ∧ previews evs
              = map (λ p, grantQuery p.2 p.1 target) (map (pair database) privileges)).
  { clear IH. induction privileges as [|priv privileges IH]; simpl; [done|]. run.
    destruct (grantEachPrivilege _ target database privileges d) as [[e d1] evs].
    destruct IH as (-> & -> & Hp). simpl. by rewrite Hp. }
  destruct (grantEachPrivilege _ target database privileges d) as [[e d1] evs].
  destruct Hin as (-> & -> & Hp).
  destruct (grantEachDatabase _ target privileges databases d) as [[e2 d2] evs2].
  simpl in *. by rewrite previews_app, Hp, IH.
Qed.

Lemma revokeEachDatabase_previews {DB} (h : sqlDB DB) (target : string)
    (privileges databases : list string) (d : DB) :
  previews (revokeEachDatabase {| db := h; dryRun := true |} target privileges databases d).2
  = map (λ p, revokeQuery p.2 p.1 target) (specPairs databases privileges).
Proof.
  induction databases as [|database databases IH]; [done|].
  rewrite specPairs_cons, map_app. simpl. run.
  assert (Hin : let '(e, d', evs) :=
            revokeEachPrivilege {| db := h; dryRun := true |} target database privileges d in
            e = None ∧ d' = d
            ∧ previews evs
              = map (λ p, revokeQuery p.2 p.1 target) (map (pair database) privileges)).
  { clear IH. induction privileges as [|priv privileges IH]; simpl; [done|]. run.
    destruct (revokeEachPrivilege _ target database privileges d) as [[e d1] evs].
    destruct IH as (-> & -> & Hp). simpl. by rewrite Hp. }
  destruct (revokeEachPrivilege _ target database privileges d) as [[e d1] evs].
  destruct Hin as (-> & -> & Hp).
  destruct (revokeEachDatabase _ target privileges databases d) as [[e2 d2] evs2].
  simpl in *. by rewrite previews_app, Hp, IH.
Qed.

(** C6. With dry-run off, [GrantPrivileges] and [RevokePrivileges] send one
    statement per (database, privilege) pair of the cross-product, databases
    outermost, and stop at the first statement the server rejects: the
    outcome, the server state and the statements sent are those of
    [specIssue] on [specPairs]; so every pair gets its statement when none is
    rejected, and otherwise exactly the pairs up to and including the rejected
    one do.  Neither operation reads the catalogs.  With dry-run on, the same
    statements, one per pair and in the same order, are logged instead. *)
Theorem privileges_one_statement_per_pair {DB} (h : sqlDB DB) (target : string)
    (privileges databases : list string) (d : DB) :
  let m := {| db := h; dryRun := false |} in
  let pairs := specPairs databases privileges in
  (let '(e, d', evs) := GrantPrivileges m target privileges databases d in
   (e, d', execs evs)
   = specIssue h (λ p, grantQuery p.2 p.1 target) (λ p, grantError p.2 p.1 target) pairs d
   ∧ reads evs = []
   ∧ match e with
     | None => execs evs = map (λ p, grantQuery p.2 p.1 target) pairs
     | Some _ => ∃ k, (k < length pairs)%nat
                   ∧ execs evs = map (λ p, grantQuery p.2 p.1 target) (take (S k) pairs)
     end)
  ∧ (let '(e, d', evs) := RevokePrivileges m target privileges databases d in
     (e, d', execs evs)
     = specIssue h (λ p, revokeQuery p.2 p.1 target) (λ p, revokeError p.2 p.1 target) pairs d
     ∧ reads evs = []
     ∧ match e with
       | None => execs evs = map (λ p, revokeQuery p.2 p.1 target) pairs
       | Some _ => ∃ k, (k < length pairs)%nat
                     ∧ execs evs = map (λ p, revokeQuery p.2 p.1 target) (take (S k) pairs)
       end)
  ∧ previews (GrantPrivileges {| db := h; dryRun := true |}
                target privileges databases d).2
    = map (λ p, grantQuery p.2 p.1 target) pairs
  ∧ previews (RevokePrivileges {| db := h; dryRun := true |}
                target privileges databases d).2
    = map (λ p, revokeQuery p.2 p.1 target) pairs.
Proof.
  intros m pairs. split; [|split; [|split]]; cycle 2.
  { pose proof (grantEachDatabase_previews h target privileges databases d) as Hp.
    pose proof (grantEachDatabase_dry_run h target privileges databases d) as Hloop.
    unfold GrantPrivileges. run.
    destruct (grantEachDatabase _ target privileges databases d) as [[e d1] evs].
    destruct Hloop as (-> & _). simpl in *. by rewrite previews_app, Hp, app_nil_r. }
  { pose proof (revokeEachDatabase_previews h target privileges databases d) as Hp.
    pose proof (revokeEachDatabase_dry_run h target privileges databases d) as Hloop.
    unfold RevokePrivileges. run.
    destruct (revokeEachDatabase _ target privileges databases d) as [[e d1] evs].
    destruct Hloop as (-> & _). simpl in *. by rewrite previews_app, Hp, app_nil_r. }
  - pose proof (grantEachDatabase_issue h target privileges databases d) as Hloop.
    pose proof (specIssue_sent h (λ p, grantQuery p.2 p.1 target)
                  (λ p, grantError p.2 p.1 target) pairs d) as Hsent.
    unfold GrantPrivileges. run. fold m in Hloop. fold pairs in Hloop.
    destruct (grantEachDatabase m target privileges databases d) as [[e d1] evs].
    destruct Hloop as [Hloop Hr]. rewrite <- Hloop in Hsent.
    destruct e as [err|]; simpl; rewrite ?execs_app, ?reads_app, ?app_nil_r, ?Hr;
      simpl; rewrite ?app_nil_r; rewrite <- Hloop; auto.
  - pose proof (revokeEachDatabase_issue h target privileges databases d) as Hloop.
    pose proof (specIssue_sent h (λ p, revokeQuery p.2 p.1 target)
                  (λ p, revokeError p.2 p.1 target) pairs d) as Hsent.
    unfold RevokePrivileges. run. fold m in Hloop. fold pairs in Hloop.
    destruct (revokeEachDatabase m target privileges databases d) as [[e d1] evs].
    destruct Hloop as [Hloop Hr]. rewrite <- Hloop in Hsent.
    destruct e as [err|]; simpl; rewrite ?execs_app, ?reads_app, ?app_nil_r, ?Hr;
      simpl; rewrite ?app_nil_r; rewrite <- Hloop; auto.
Qed.

(** ** Dry-run *)

(** C3, as the code has it.  With the dry-run flag set, each of the seven
    mutating operations executes no statement and leaves the server state as
    it is.  The four unguarded ones (grants, revocations, membership edits)
    read nothing and return nil.  The three guarded ones ([CreateUser],
    [DropUser], [CreateGroup]) still run their existence query, and return nil
    unless that query itself fails, in which case its error is returned. *)
Theorem dry_run_executes_nothing {DB} (h : sqlDB DB) (d : DB)
    (user : UserConfig.t) (group : GroupConfig.t)
    (username groupName target : string) (privileges databases : list string) :
  let m := {| db := h; dryRun := true |} in
  (let '(e, d', evs) := CreateUser m user d in
   d' = d ∧ execs evs = []
   ∧ reads evs = [(userExistsQuery, [UserConfig.Username user])]
   ∧ e = guardOutcome "user"
           (sqlQueryRow h userExistsQuery [UserConfig.Username user] d))
  ∧ (let '(e, d', evs) := DropUser m username d in
     d' = d ∧ execs evs = []
     ∧ reads evs = [(userExistsQuery, [username])]
     ∧ e = guardOutcome "user" (sqlQueryRow h userExistsQuery [username] d))
  ∧ (let '(e, d', evs) := CreateGroup m group d in
     d' = d ∧ execs evs = []
     ∧ reads evs = [(groupExistsQuery, [GroupConfig.Name group])]
     ∧ e = guardOutcome "group"
             (sqlQueryRow h groupExistsQuery [GroupConfig.Name group] d))
  ∧ (let '(e, d', evs) := GrantPrivileges m target privileges databases d in
     e = None ∧ d' = d ∧ execs evs = [] ∧ reads evs = [])
  ∧ (let '(e, d', evs) := RevokePrivileges m target privileges databases d in
     e = None ∧ d' = d ∧ execs evs = [] ∧ reads evs = [])
  ∧ (let '(e, d', evs) := AddUserToGroup m username groupName d in
     e = None ∧ d' = d ∧ execs evs = [] ∧ reads evs = [])
  ∧ (let '(e, d', evs) := RemoveUserFromGroup m username groupName d in
     e = None ∧ d' = d ∧ execs evs = [] ∧ reads evs = []).
Proof.
  intros m. split; [|split; [|split; [|split; [|split; [|split]]]]].
  - unfold CreateUser, UserExists. run.
    destruct (sqlQueryRow h userExistsQuery [UserConfig.Username user] d); simpl; auto.
    rewrite buildCreateUserQuery_run. by case_decide.
  - unfold DropUser, UserExists. run.
    destruct (sqlQueryRow h userExistsQuery [username] d); simpl; auto.
  - unfold CreateGroup, GroupExists. run.
    destruct (sqlQueryRow h groupExistsQuery [GroupConfig.Name group] d); simpl; auto.
  - pose proof (grantEachDatabase_dry_run h target privileges databases d) as Hloop.
    unfold GrantPrivileges. run. fold m in Hloop.
    destruct (grantEachDatabase m target privileges databases d) as [[e d1] evs].
    destruct Hloop as (-> & -> & He & Hr). simpl.
    by rewrite execs_app, reads_app, He, Hr.
  - pose proof (revokeEachDatabase_dry_run h target privileges databases d) as Hloop.
    unfold RevokePrivileges. run. fold m in Hloop.
    destruct (revokeEachDatabase m target privileges databases d) as [[e d1] evs].
    destruct Hloop as (-> & -> & He & Hr). simpl.
    by rewrite execs_app, reads_app, He, Hr.
  - unfold AddUserToGroup. by run.
  - unfold RemoveUserFromGroup. by run.
Qed.

(** C3 as it is stated fails: a dry-run call whose existence query fails does
    not return nil.  Here the server refuses every call, as an unreachable or
    mis-credentialed one does (the ping that would have caught it is skipped
    in dry-run mode). *)
Lemma dry_run_guard_failure :
  dryRun (offline true) = true
  ∧ (CreateUser (offline true) mallory []).1.1
    = Some "failed to check if user exists: connection refused"
  ∧ (DropUser (offline true) "mallory" []).1.1
    = Some "failed to check if user exists: connection refused"
  ∧ (CreateGroup (offline true) (GroupConfig.mk "readers" [] [] "" true) []).1.1
    = Some "failed to check if group exists: connection refused".
Proof. repeat split. Qed.

(** ** Idempotent creation *)

(** C2. When the existence check already answers true, [CreateUser] and
    [CreateGroup] are a no-op success: the trace is the opening log line, the
    existence query and the "already exists" line, nothing is executed, the
    server state is untouched and nil is returned.  Hence two calls with the
    same spec against a server that lists the principal once it has been
    created make exactly one creation: the second call executes nothing and
    leaves the state of the first. *)
Theorem create_is_idempotent {DB} (m : Manager DB) (user : UserConfig.t)
    (group : GroupConfig.t) (d : DB) :
  (sqlQueryRow (db m) userExistsQuery [UserConfig.Username user] d = RowFound →
   CreateUser m user d
   = (None, d,
      [EvLog InfoLevel [("username", VString (UserConfig.Username user));
                        ("auth_method", VString (UserConfig.AuthMethod user))]
         "Creating user";
       EvQueryRow userExistsQuery [UserConfig.Username user];
       EvLog InfoLevel [("username", VString (UserConfig.Username user))]
         "User already exists, skipping creation"]))
  ∧ (sqlQueryRow (db m) groupExistsQuery [GroupConfig.Name group] d = RowFound →
     CreateGroup m group d
     = (None, d,
        [EvLog InfoLevel [("group", VString (GroupConfig.Name group))] "Creating group";
         EvQueryRow groupExistsQuery [GroupConfig.Name group];
         EvLog InfoLevel [("group", VString (GroupConfig.Name group))]
           "Group already exists, skipping creation"]))
  ∧ (dryRun m = false →
     sqlQueryRow (db m) userExistsQuery [UserConfig.Username user] d = ErrNoRows →
     let '(e1, d1, evs1) := CreateUser m user d in
     e1 = None →
     sqlQueryRow (db m) userExistsQuery [UserConfig.Username user] d1 = RowFound →
     let '(e2, d2, evs2) := CreateUser m user d1 in
     e2 = None ∧ d2 = d1 ∧ execs evs2 = []
     ∧ execs (evs1 ++ evs2)
       = specCreateUserStatement user
         :: (if decide (UserConfig.AuthMethod user = "iam")
             then [grantRDSIAMRoleQuery (UserConfig.Username user)] else [])
     ∧ filter (λ msg, msg = "User created successfully") (logged (evs1 ++ evs2))
       = ["User created successfully"])
  ∧ (dryRun m = false →
     sqlQueryRow (db m) groupExistsQuery [GroupConfig.Name group] d = ErrNoRows →
     let '(e1, d1, evs1) := CreateGroup m group d in
     e1 = None →
     sqlQueryRow (db m) groupExistsQuery [GroupConfig.Name group] d1 = RowFound →
     let '(e2, d2, evs2) := CreateGroup m group d1 in
     e2 = None ∧ d2 = d1 ∧ execs evs2 = []
     ∧ execs (evs1 ++ evs2) = [createGroupQuery group]
     ∧ filter (λ msg, msg = "Group created successfully") (logged (evs1 ++ evs2))
       = ["Group created successfully"]).
Proof.
  assert (Huser : ∀ d0 : DB,
    sqlQueryRow (db m) userExistsQuery [UserConfig.Username user] d0 = RowFound →
    CreateUser m user d0
    = (None, d0,
       [EvLog InfoLevel [("username", VString (UserConfig.Username user));
                         ("auth_method", VString (UserConfig.AuthMethod user))]
          "Creating user";
        EvQueryRow userExistsQuery [UserConfig.Username user];
        EvLog InfoLevel [("username", VString (UserConfig.Username user))]
          "User already exists, skipping creation"])).
  { intros d0 Hfound. unfold CreateUser, UserExists. run. by rewrite Hfound. }
  assert (Hgroup : ∀ d0 : DB,
    sqlQueryRow (db m) groupExistsQuery [GroupConfig.Name group] d0 = RowFound →
    CreateGroup m group d0
    = (None, d0,
       [EvLog InfoLevel [("group", VString (GroupConfig.Name group))] "Creating group";
        EvQueryRow groupExistsQuery [GroupConfig.Name group];
        EvLog InfoLevel [("group", VString (GroupConfig.Name group))]
          "Group already exists, skipping creation"])).
  { intros d0 Hfound. unfold CreateGroup, GroupExists. run. by rewrite Hfound. }
  split; [apply Huser|]. split; [apply Hgroup|]. split.
  - intros Hlive Habsent.
    unfold CreateUser at 1. unfold UserExists, grantRDSIAMRole. run.
    rewrite Habsent, Hlive. simpl. rewrite buildCreateUserQuery_run.
    destruct (sqlExec (db m) (specCreateUserStatement user) d) as [d1 [err|]];
      simpl; [discriminate|].
    destruct (decide (UserConfig.AuthMethod user = "iam")); simpl.
    + destruct (sqlExec (db m) (grantRDSIAMRoleQuery (UserConfig.Username user)) d1)
        as [d2 [err|]]; simpl; [discriminate|].
      intros _ Hfound. by rewrite (Huser d2 Hfound).
    + intros _ Hfound. by rewrite (Huser d1 Hfound).
  - intros Hlive Habsent.
    unfold CreateGroup at 1. unfold GroupExists. run.
    rewrite Habsent, Hlive. simpl.
    destruct (sqlExec (db m) (createGroupQuery group) d) as [d1 [err|]];
      simpl; [discriminate|].
    intros _ Hfound. by rewrite (Hgroup d1 Hfound).
Qed.

Lemma create_is_idempotent_witness :
  (CreateUser live alice provisioned).1 = (None, provisioned)
  ∧ (CreateGroup live app_group provisioned).1 = (None, provisioned)
  ∧ (let '(e1, d1, evs1) := CreateUser live alice [] in
     let '(e2, d2, evs2) := CreateUser live alice d1 in
     e2 = None ∧ d2 = d1 ∧ execs (evs1 ++ evs2) = [specCreateUserStatement alice])
  ∧ (let '(e1, d1, evs1) := CreateGroup live app_group [] in
     let '(e2, d2, evs2) := CreateGroup live app_group d1 in
     e2 = None ∧ d2 = d1 ∧ execs (evs1 ++ evs2) = [createGroupQuery app_group]).
Proof.
  destruct (create_is_idempotent live alice app_group provisioned) as (Hu & Hg & _ & _).
  destruct (create_is_idempotent live alice app_group []) as (_ & _ & Huu & Hgg).
  split; [by rewrite (Hu eq_refl)|]. split; [by rewrite (Hg eq_refl)|].
  split.
  - destruct (Huu eq_refl eq_refl eq_refl eq_refl) as (H1 & H2 & _ & H3 & _).
    exact (conj H1 (conj H2 H3)).
  - destruct (Hgg eq_refl eq_refl eq_refl eq_refl) as (H1 & H2 & _ & H3 & _).
    exact (conj H1 (conj H2 H3)).
Defined.

(** ** Group membership *)

Lemma addUserToGroups_run {DB} (h : sqlDB DB) (result : SyncResult.t)
    (username : string) (groups : list string) (d : DB) :
  let '(r, d', evs) :=
    addUserToGroups {| db := h; dryRun := false |} result username groups d in
  let '(errs, d2) := specMemberships h username groups d in
  d' = d2
  ∧ r = SyncResult.mk (SyncResult.UsersCreated result) (SyncResult.UsersModified result)
          (SyncResult.UsersRemoved result) (SyncResult.GroupsCreated result)
          (SyncResult.GroupsModified result) (SyncResult.GroupsRemoved result)
          (SyncResult.Errors result ++ errs)
  ∧ execs evs = map (addUserToGroupQuery username) groups
  ∧ reads evs = [].
Proof.
  revert result d. induction groups as [|groupName groups IH]; intros result d; simpl.
  - rewrite app_nil_r. by destruct result.
  - unfold AddUserToGroup. run.
    destruct (sqlExec h (addUserToGroupQuery username groupName) d) as [d1 [err|]]; simpl.
    + specialize (IH (SyncResult.addError result
        ("failed to add user " +:+ username +:+ " to group " +:+ groupName +:+ ": "
         +:+ "failed to add user " +:+ username +:+ " to group " +:+ groupName +:+ ": "
         +:+ err)) d1).
      destruct (addUserToGroups _ _ username groups d1) as [[r d2] evs].
      destruct (specMemberships h username groups d1) as [errs d3].
      destruct IH as (-> & -> & He & Hr). simpl.
      rewrite ?execs_app, ?reads_app, ?He, ?Hr. simpl.
      rewrite <- !app_assoc. simpl. by rewrite !append_assoc.
    + specialize (IH result d1).
      destruct (addUserToGroups _ _ username groups d1) as [[r d2] evs].
      destruct (specMemberships h username groups d1) as [errs d3].
      destruct IH as (-> & -> & He & Hr). simpl.
      by rewrite ?execs_app, ?reads_app, ?He, ?Hr.
Qed.

(** C7. [AddUserToGroup] and [RemoveUserFromGroup] read nothing, in either
    mode; with dry-run off their one driver call is the membership statement,
    and the server's rejection of it comes back as the error.  In the user
    step of
    [SyncConfiguration], once [CreateUser] has returned nil the username is
    appended to [UsersCreated], every declared group name gets its statement
    whatever the earlier ones did, each rejection adds one error, and the
    privilege grant follows. *)
Theorem membership_is_not_guarded {DB} (h : sqlDB DB) (result : SyncResult.t)
    (user : UserConfig.t) (username groupName : string) (d : DB) :
  let m := {| db := h; dryRun := false |} in
  (let '(e, d', evs) := AddUserToGroup m username groupName d in
   reads evs = [] ∧ execs evs = [addUserToGroupQuery username groupName]
   ∧ (d', e)
     = (let '(d1, r) := sqlExec h (addUserToGroupQuery username groupName) d in
        (d1, (λ err, "failed to add user " +:+ username +:+ " to group " +:+ groupName
                       +:+ ": " +:+ err) <$> r)))
  ∧ (let '(e, d', evs) := RemoveUserFromGroup m username groupName d in
     reads evs = [] ∧ execs evs = [removeUserFromGroupQuery username groupName]
     ∧ (d', e)
       = (let '(d1, r) := sqlExec h (removeUserFromGroupQuery username groupName) d in
          (d1, (λ err, "failed to remove user " +:+ username +:+ " from group "
                         +:+ groupName +:+ ": " +:+ err) <$> r)))
  ∧ reads (AddUserToGroup {| db := h; dryRun := true |} username groupName d).2 = []
  ∧ reads (RemoveUserFromGroup {| db := h; dryRun := true |} username groupName d).2 = []
  ∧ (UserConfig.Enabled user = true →
     (CreateUser m user d).1.1 = None →
     let name := UserConfig.Username user in
     let '(_, d1, evs1) := CreateUser m user d in
     let '(errs, d2) := specMemberships h name (UserConfig.Groups user) d1 in
     let '(e3, d3, evs3) :=
       GrantPrivileges m name (UserConfig.Privileges user) (UserConfig.Databases user) d2 in
     let '(r, d', evs) := syncUser m result user d in
     d' = d3
     ∧ SyncResult.UsersCreated r = SyncResult.UsersCreated result ++ [name]
     ∧ SyncResult.Errors r
       = SyncResult.Errors result ++ errs
         ++ match e3 with
            | Some err => ["failed to grant privileges to user " +:+ name +:+ ": " +:+ err]
            | None => []
            end
     ∧ execs evs
       = execs evs1 ++ map (addUserToGroupQuery name) (UserConfig.Groups user)
         ++ execs evs3).
Proof.
  intros m. split; [|split; [|split; [|split]]].
  - unfold AddUserToGroup. run.
    by destruct (sqlExec h (addUserToGroupQuery username groupName) d) as [d1 [err|]].
  - unfold RemoveUserFromGroup. run.
    by destruct (sqlExec h (removeUserFromGroupQuery username groupName) d) as [d1 [err|]].
  - reflexivity.
  - reflexivity.
  - intros Henabled Hcreated name. unfold syncUser. rewrite Henabled. run.
    destruct (CreateUser m user d) as [[e1 d1] evs1]. simpl in Hcreated. subst e1.
    pose proof (addUserToGroups_run h
      (SyncResult.addUserCreated result name) name (UserConfig.Groups user) d1) as Hloop.
    fold m in Hloop. fold name.
    destruct (addUserToGroups m _ name (UserConfig.Groups user) d1) as [[r2 d2] evs2].
    destruct (specMemberships h name (UserConfig.Groups user) d1) as [errs d2'].
    destruct Hloop as (-> & -> & He2 & _).
    destruct (GrantPrivileges m name (UserConfig.Privileges user)
                (UserConfig.Databases user) d2') as [[e3 d3] evs3].
    destruct e3 as [err|]; simpl;
      rewrite ?execs_app, ?He2, ?app_nil_r, <- ?app_assoc; auto.
Qed.

Lemma membership_is_not_guarded_witness :
  UserConfig.Enabled carol = true
  ∧ (CreateUser picky carol []).1.1 = None
  ∧ (let '(r, d', evs) := syncUser picky SyncResult.empty carol [] in
     SyncResult.UsersCreated r = ["carol"]
     ∧ length (SyncResult.Errors r) = 1%nat
     ∧ execs evs
       = [specCreateUserStatement carol; addUserToGroupQuery "carol" "ghost";
          addUserToGroupQuery "carol" "app_group"]).
Proof.
  split; [reflexivity|]. split; [reflexivity|].
  destruct (membership_is_not_guarded (db picky) SyncResult.empty carol "carol" "ghost" [])
    as (_ & _ & _ & _ & Hsync).
  specialize (Hsync eq_refl eq_refl). cbv zeta in Hsync.
  change {| db := db picky; dryRun := false |} with picky in Hsync.
  destruct (CreateUser picky carol []) as [[e1 d1] evs1] eqn:Hcreate.
  vm_compute in Hcreate. injection Hcreate as <- <- <-.
  destruct (specMemberships (db picky) (UserConfig.Username carol)
              (UserConfig.Groups carol) _) as [errs d2] eqn:Hmem.
  vm_compute in Hmem. injection Hmem as <- <-.
  destruct (GrantPrivileges picky (UserConfig.Username carol) (UserConfig.Privileges carol)
              (UserConfig.Databases carol) _) as [[e3 d3] evs3] eqn:Hgrant.
  vm_compute in Hgrant. injection Hgrant as <- <- <-.
  destruct (syncUser picky SyncResult.empty carol []) as [[r d'] evs].
  destruct Hsync as (_ & Hcreated & Herrors & Hexecs).
  split; [exact Hcreated|]. split; [by rewrite Herrors|exact Hexecs].
Defined.

(** ** SyncConfiguration *)

Lemma GrantPrivileges_reads {DB} (m : Manager DB) (target : string)
    (privileges databases : list string) (d : DB) :
  reads (GrantPrivileges m target privileges databases d).2 = [].
Proof.
  destruct m as [h [|]]; unfold GrantPrivileges; run.
  - pose proof (grantEachDatabase_dry_run h target privileges databases d) as Hloop.
    destruct (grantEachDatabase _ target privileges databases d) as [[e d1] evs].
    destruct Hloop as (-> & _ & _ & Hr). simpl. by rewrite reads_app, Hr.
  - pose proof (grantEachDatabase_issue h target privileges databases d) as Hloop.
    destruct (grantEachDatabase _ target privileges databases d) as [[e d1] evs].
    destruct Hloop as (_ & Hr). destruct e; simpl; by rewrite ?reads_app, ?app_nil_r, Hr.
Qed.

Lemma CreateGroup_reads {DB} (m : Manager DB) (group : GroupConfig.t) (d : DB) :
  reads (CreateGroup m group d).2 = [(groupExistsQuery, [GroupConfig.Name group])].
Proof.
  unfold CreateGroup, GroupExists. run.
  destruct (sqlQueryRow (db m) groupExistsQuery [GroupConfig.Name group] d);
    simpl; auto.
  destruct (dryRun m); simpl; auto.
  by destruct (sqlExec (db m) (createGroupQuery group) d) as [d1 [err|]].
Qed.

Lemma CreateUser_reads {DB} (m : Manager DB) (user : UserConfig.t) (d : DB) :
  reads (CreateUser m user d).2 = [(userExistsQuery, [UserConfig.Username user])].
Proof.
  unfold CreateUser, UserExists, grantRDSIAMRole. run.
  destruct (sqlQueryRow (db m) userExistsQuery [UserConfig.Username user] d);
    simpl; auto.
  rewrite buildCreateUserQuery_run.
  destruct (dryRun m); simpl; [by case_decide|].
  destruct (sqlExec (db m) (specCreateUserStatement user) d) as [d1 [err|]];
    simpl; [by case_decide|].
  case_decide; simpl; auto.
  by destruct (sqlExec (db m) (grantRDSIAMRoleQuery (UserConfig.Username user)) d1)
    as [d2 [err|]].
Qed.

Lemma addUserToGroups_reads {DB} (m : Manager DB) (result : SyncResult.t)
    (username : string) (groups : list string) (d : DB) :
  reads (addUserToGroups m result username groups d).2 = [].
Proof.
  revert result d. induction groups as [|groupName groups IH]; intros result d;
    simpl; [done|].
  unfold AddUserToGroup. run. destruct (dryRun m); simpl.
  - specialize (IH result d).
    by destruct (addUserToGroups m result username groups d) as [[r d1] evs].
  - destruct (sqlExec (db m) (addUserToGroupQuery username groupName) d)
      as [d1 [err|]]; simpl.
    + match goal with |- context [addUserToGroups m ?r username groups d1] =>
        specialize (IH r d1);
        by destruct (addUserToGroups m r username groups d1) as [[r2 d2] evs] end.
    + specialize (IH result d1).
      by destruct (addUserToGroups m result username groups d1) as [[r2 d2] evs].
Qed.

Lemma syncGroup_reads {DB} (m : Manager DB) (result : SyncResult.t)
    (group : GroupConfig.t) (d : DB) :
  reads (syncGroup m result group d).2 = [(groupExistsQuery, [GroupConfig.Name group])].
Proof.
  pose proof (CreateGroup_reads m group d) as Hc.
  unfold syncGroup. run.
  destruct (CreateGroup m group d) as [[[err|] d1] evs1]; simpl in *.
  - by rewrite app_nil_r.
  - pose proof (GrantPrivileges_reads m (GroupConfig.Name group)
      (GroupConfig.Privileges group) (GroupConfig.Databases group) d1) as Hg.
    destruct (GrantPrivileges m _ _ _ d1) as [[[err|] d2] evs2]; simpl in *;
      by rewrite !reads_app, Hc, Hg.
Qed.

Lemma syncUser_reads {DB} (m : Manager DB) (result : SyncResult.t)
    (user : UserConfig.t) (d : DB) :
  reads (syncUser m result user d).2
  = if UserConfig.Enabled user then [(userExistsQuery, [UserConfig.Username user])]
    else [].
Proof.
  pose proof (CreateUser_reads m user d) as Hc.
  unfold syncUser. destruct (UserConfig.Enabled user); run; [|done].
  destruct (CreateUser m user d) as [[[err|] d1] evs1]; simpl in *.
  - by rewrite app_nil_r.
  - match goal with |- context [addUserToGroups m ?r ?n ?g d1] =>
      pose proof (addUserToGroups_reads m r n g d1) as Ha;
      destruct (addUserToGroups m r n g d1) as [[r2 d2] evs2] end.
    pose proof (GrantPrivileges_reads m (UserConfig.Username user)
      (UserConfig.Privileges user) (UserConfig.Databases user) d2) as Hg.
    destruct (GrantPrivileges m _ _ _ d2) as [[[err|] d3] evs3]; simpl in *;
      by rewrite !reads_app, Hc, Ha, Hg.
Qed.

Lemma syncGroups_reads {DB} (m : Manager DB) (result : SyncResult.t)
    (groups : list GroupConfig.t) (d : DB) :
  reads (syncGroups m result groups d).2
  = map (λ g, (groupExistsQuery, [GroupConfig.Name g])) groups.
Proof.
  revert result d. induction groups as [|group groups IH]; intros result d;
    simpl; [done|]. run.
  pose proof (syncGroup_reads m result group d) as Hs.
  destruct (syncGroup m result group d) as [[r1 d1] evs1].
  specialize (IH r1 d1). destruct (syncGroups m r1 groups d1) as [[r2 d2] evs2].
  simpl in *. by rewrite reads_app, Hs, IH.
Qed.

Lemma syncUsers_reads {DB} (m : Manager DB) (result : SyncResult.t)
    (users : list UserConfig.t) (d : DB) :
  reads (syncUsers m result users d).2
  = map (λ u, (userExistsQuery, [UserConfig.Username u]))
      (List.filter UserConfig.Enabled users).
Proof.
  revert result d. induction users as [|user users IH]; intros result d;
    simpl; [done|]. run.
  pose proof (syncUser_reads m result user d) as Hs.
  destruct (syncUser m result user d) as [[r1 d1] evs1].
  specialize (IH r1 d1). destruct (syncUsers m r1 users d1) as [[r2 d2] evs2].
  simpl in *. rewrite reads_app, Hs, IH. by destruct (UserConfig.Enabled user).
Qed.

Lemma syncGroups_app {DB} (m : Manager DB) (result : SyncResult.t)
    (before after : list GroupConfig.t) (d : DB) :
  syncGroups m result (before ++ after) d
  = let '(r1, d1, evs1) := syncGroups m result before d in
    let '(r2, d2, evs2) := syncGroups m r1 after d1 in
    (r2, d2, evs1 ++ evs2).
Proof.
  revert result d. induction before as [|group before IH]; intros result d; simpl.
  - by destruct (syncGroups m result after d) as [[r2 d2] evs2].
  - run. destruct (syncGroup m result group d) as [[r0 d0] evs0].
    rewrite IH. destruct (syncGroups m r0 before d0) as [[r1 d1] evs1].
    destruct (syncGroups m r1 after d1) as [[r2 d2] evs2].
    by rewrite app_assoc.
Qed.

Lemma syncUsers_app {DB} (m : Manager DB) (result : SyncResult.t)
    (before after : list UserConfig.t) (d : DB) :
  syncUsers m result (before ++ after) d
  = let '(r1, d1, evs1) := syncUsers m result before d in
    let '(r2, d2, evs2) := syncUsers m r1 after d1 in
    (r2, d2, evs1 ++ evs2).
Proof.
  revert result d. induction before as [|user before IH]; intros result d; simpl.
  - by destruct (syncUsers m result after d) as [[r2 d2] evs2].
  - run. destruct (syncUser m result user d) as [[r0 d0] evs0].
    rewrite IH. destruct (syncUsers m r0 before d0) as [[r1 d1] evs1].
    destruct (syncUsers m r1 after d1) as [[r2 d2] evs2].
    by rewrite app_assoc.
Qed.

(** C1. [SyncConfiguration] always returns its result with a nil error, after
    running the existence check of every declared group and then of every
    enabled user, in configuration order.  When [CreateGroup] fails for a
    group, the step for that group consists of that call alone (no grant is
    attempted), its error is appended to [Errors] behind the group's name, and
    the remaining groups are processed from the state that call left; and the
    same for a user whose [CreateUser] fails: no membership, no grant, the
    remaining users still processed. *)
Theorem SyncConfiguration_completes {DB} (m : Manager DB) (config : Config.t) (d : DB) :
  (let '(result, err, d', evs) := SyncConfiguration m config d in
   err = None
   ∧ reads evs
     = map (λ g, (groupExistsQuery, [GroupConfig.Name g])) (Config.Groups config)
       ++ map (λ u, (userExistsQuery, [UserConfig.Username u]))
            (List.filter UserConfig.Enabled (Config.Users config)))
  ∧ (∀ result before group after,
       let '(r1, d1, evs1) := syncGroups m result before d in
       ∀ err d2 evs2,
         CreateGroup m group d1 = (Some err, d2, evs2) →
         syncGroups m result (before ++ group :: after) d
         = let '(r3, d3, evs3) :=
             syncGroups m
               (SyncResult.addError r1
                  ("failed to create group " +:+ GroupConfig.Name group +:+ ": " +:+ err))
               after d2 in
           (r3, d3, evs1 ++ evs2 ++ evs3))
  ∧ (∀ result before user after,
       let '(r1, d1, evs1) := syncUsers m result before d in
       ∀ err d2 evs2,
         UserConfig.Enabled user = true →
         CreateUser m user d1 = (Some err, d2, evs2) →
         syncUsers m result (before ++ user :: after) d
         = let '(r3, d3, evs3) :=
             syncUsers m
               (SyncResult.addError r1
                  ("failed to create user " +:+ UserConfig.Username user +:+ ": " +:+ err))
               after d2 in
           (r3, d3, evs1 ++ evs2 ++ evs3)).
Proof.
  split; [|split].
  - unfold SyncConfiguration. run.
    pose proof (syncGroups_reads m SyncResult.empty (Config.Groups config) d) as Hg.
    destruct (syncGroups m SyncResult.empty (Config.Groups config) d) as [[r1 d1] evs1].
    pose proof (syncUsers_reads m r1 (Config.Users config) d1) as Hu.
    destruct (syncUsers m r1 (Config.Users config) d1) as [[r2 d2] evs2].
    simpl in *. split; [done|]. by rewrite !reads_app, Hg, Hu, app_nil_r.
  - intros result before group after. rewrite syncGroups_app.
    destruct (syncGroups m result before d) as [[r1 d1] evs1].
    intros err d2 evs2 Hfail. simpl. unfold syncGroup. run. rewrite Hfail. simpl.
    destruct (syncGroups m _ after d2) as [[r3 d3] evs3].
    by rewrite app_nil_r.
  - intros result before user after. rewrite syncUsers_app.
    destruct (syncUsers m result before d) as [[r1 d1] evs1].
    intros err d2 evs2 Henabled Hfail. simpl. unfold syncUser. rewrite Henabled. run.
    rewrite Hfail. simpl.
    destruct (syncUsers m _ after d2) as [[r3 d3] evs3].
    by rewrite app_nil_r.
Qed.

Lemma SyncConfiguration_completes_witness :
  CreateGroup refusing locked_group []
  = (Some "failed to create group locked: rejected by the server", [],
     (CreateGroup refusing locked_group []).2)
  ∧ UserConfig.Enabled dave = true
  ∧ CreateUser refusing dave [createGroupQuery app_group]
    = (Some "failed to create user dave: rejected by the server",
       [createGroupQuery app_group],
       (CreateUser refusing dave [createGroupQuery app_group]).2)
  ∧ (let '(result, err, d', evs) := SyncConfiguration refusing troubled [] in
     err = None
     ∧ SyncResult.GroupsCreated result = ["app_group"]
     ∧ SyncResult.UsersCreated result = ["alice"]
     ∧ length (SyncResult.Errors result) = 2%nat
     ∧ d' = [createGroupQuery app_group; grantQuery "CONNECT" "app" "app_group";
             specCreateUserStatement alice; addUserToGroupQuery "alice" "app_group"])
  ∧ syncGroups refusing SyncResult.empty ([] ++ locked_group :: [app_group]) []
    = (let '(r3, d3, evs3) :=
         syncGroups refusing
           (SyncResult.addError SyncResult.empty
              ("failed to create group " +:+ GroupConfig.Name locked_group +:+ ": "
               +:+ "failed to create group locked: rejected by the server"))
           [app_group] [] in
       (r3, d3, [] ++ (CreateGroup refusing locked_group []).2 ++ evs3))
  ∧ syncUsers refusing SyncResult.empty ([] ++ dave :: [bob; alice])
      [createGroupQuery app_group]
    = (let '(r3, d3, evs3) :=
         syncUsers refusing
           (SyncResult.addError SyncResult.empty
              ("failed to create user " +:+ UserConfig.Username dave +:+ ": "
               +:+ "failed to create user dave: rejected by the server"))
           [bob; alice] [createGroupQuery app_group] in
       (r3, d3, [] ++ (CreateUser refusing dave [createGroupQuery app_group]).2 ++ evs3)).
Proof.
  split; [reflexivity|]. split; [reflexivity|]. split; [reflexivity|].
  split; [vm_compute; repeat split|].
  split.
  - destruct (SyncConfiguration_completes refusing troubled []) as (_ & Hg & _).
    exact (Hg SyncResult.empty [] locked_group [app_group] _ _ _ eq_refl).
  - destruct (SyncConfiguration_completes refusing troubled [createGroupQuery app_group])
      as (_ & _ & Hu).
    exact (Hu SyncResult.empty [] dave [bob; alice] _ _ _ eq_refl eq_refl).
Defined.

(** ** Interpolation into statement text *)

Lemma ReplaceAll_doubled (q : ascii) (s : string) :
  doubled q (ReplaceAll s q (String q (String q ""))) = true.
Proof.
  induction s as [|c s IH]; simpl; [reflexivity|].
  destruct (decide (c = q)) as [->|Hne].
  - rewrite !append_cons. simpl. by rewrite !decide_True.
  - simpl. by rewrite decide_False.
Qed.

Lemma statementText_pieces {DB} (m : Manager DB) (d : DB) (st : Stmt) :
  statementText m d st = render (pieces st).
Proof.
  destruct st; simpl;
    unfold grantRDSIAMRoleQuery, revokeRDSIAMRoleQuery, dropUserQuery, createGroupQuery,
      grantQuery, revokeQuery, addUserToGroupQuery, removeUserFromGroupQuery, render;
    simpl; rewrite ?append_nil_r; auto.
  - rewrite buildCreateUserQuery_run. simpl.
    unfold specCreateUserStatement, specPasswordClause, specLoginClause,
      specConnectionLimitClause.
    repeat case_decide; destruct (UserConfig.CanLogin user); simpl;
      rewrite ?append_assoc, ?append_nil_r; auto.
  - destruct (GroupConfig.Inherit group); by rewrite ?append_assoc, ?append_nil_r.
Qed.

Lemma built_text {DB} (m : Manager DB) (d : DB) (st : Stmt) :
  built (statementText m d st).
Proof. exists st. apply statementText_pieces. Qed.

Lemma built_create_user {DB} (m : Manager DB) (d : DB) (user : UserConfig.t) :
  built (specCreateUserStatement user).
Proof.
  pose proof (built_text m d (CreateUserStmt user)) as Hb. simpl in Hb.
  by rewrite buildCreateUserQuery_run in Hb.
Qed.

Lemma CreateUser_built {DB} (m : Manager DB) (user : UserConfig.t) (d : DB) :
  Forall built (execs (CreateUser m user d).2).
Proof.
  pose proof (built_create_user m d user) as Hc.
  pose proof (built_text m d (GrantRDSIAMStmt (UserConfig.Username user))) as Hg.
  unfold CreateUser, UserExists, grantRDSIAMRole. run.
  destruct (sqlQueryRow (db m) userExistsQuery [UserConfig.Username user] d);
    simpl; auto.
  rewrite buildCreateUserQuery_run.
  destruct (dryRun m); simpl; [by case_decide|].
  destruct (sqlExec (db m) (specCreateUserStatement user) d) as [d1 [err|]]; simpl.
  - case_decide; simpl; auto.
  - case_decide; simpl; auto.
    destruct (sqlExec (db m) (grantRDSIAMRoleQuery (UserConfig.Username user)) d1)
      as [d2 [err|]]; simpl; auto.
Qed.

Lemma DropUser_built {DB} (m : Manager DB) (username : string) (d : DB) :
  Forall built (execs (DropUser m username d).2).
Proof.
  pose proof (built_text m d (DropUserStmt username)) as Hb.
  unfold DropUser, UserExists. run.
  destruct (sqlQueryRow (db m) userExistsQuery [username] d); simpl; auto.
  destruct (dryRun m); simpl; auto.
  destruct (sqlExec (db m) (dropUserQuery username) d) as [d1 [err|]]; simpl; auto.
Qed.

Lemma CreateGroup_built {DB} (m : Manager DB) (group : GroupConfig.t) (d : DB) :
  Forall built (execs (CreateGroup m group d).2).
Proof.
  pose proof (built_text m d (CreateRoleStmt group)) as Hb.
  unfold CreateGroup, GroupExists. run.
  destruct (sqlQueryRow (db m) groupExistsQuery [GroupConfig.Name group] d);
    simpl; auto.
  destruct (dryRun m); simpl; auto.
  destruct (sqlExec (db m) (createGroupQuery group) d) as [d1 [err|]]; simpl; auto.
Qed.

Lemma AddUserToGroup_built {DB} (m : Manager DB) (username groupName : string) (d : DB) :
  Forall built (execs (AddUserToGroup m username groupName d).2).
Proof.
  pose proof (built_text m d (AddMemberStmt username groupName)) as Hb.
  unfold AddUserToGroup. run. destruct (dryRun m); simpl; auto.
  destruct (sqlExec (db m) (addUserToGroupQuery username groupName) d)
    as [d1 [err|]]; simpl; auto.
Qed.

Lemma RemoveUserFromGroup_built {DB} (m : Manager DB) (username groupName : string)
    (d : DB) :
  Forall built (execs (RemoveUserFromGroup m username groupName d).2).
Proof.
  pose proof (built_text m d (RemoveMemberStmt username groupName)) as Hb.
  unfold RemoveUserFromGroup. run. destruct (dryRun m); simpl; auto.
  destruct (sqlExec (db m) (removeUserFromGroupQuery username groupName) d)
    as [d1 [err|]]; simpl; auto.
Qed.

Lemma specIssue_built {DB} (h : sqlDB DB) stmt wrap (ps : list (string * string)) (d : DB) :
  (∀ p, built (stmt p)) → Forall built (specIssue h stmt wrap ps d).2.
Proof.
  intros Hb. pose proof (specIssue_sent h stmt wrap ps d) as Hsent.
  destruct (specIssue h stmt wrap ps d) as [[[err|] d1] sent]; simpl.
  - destruct Hsent as (k & _ & ->). apply Forall_forall. intros q Hq.
    apply list_elem_of_fmap in Hq as (p & -> & _). apply Hb.
  - subst sent. apply Forall_forall. intros q Hq.
    apply list_elem_of_fmap in Hq as (p & -> & _). apply Hb.
Qed.

Lemma GrantPrivileges_built {DB} (m : Manager DB) (target : string)
    (privileges databases : list string) (d : DB) :
  Forall built (execs (GrantPrivileges m target privileges databases d).2).
Proof.
  destruct m as [h [|]]; unfold GrantPrivileges; run.
  - pose proof (grantEachDatabase_dry_run h target privileges databases d) as Hloop.
    destruct (grantEachDatabase _ target privileges databases d) as [[e d1] evs].
    destruct Hloop as (-> & _ & He & _). simpl. rewrite execs_app, He. constructor.
  - pose proof (grantEachDatabase_issue h target privileges databases d) as Hloop.
    pose proof (specIssue_built h (λ p, grantQuery p.2 p.1 target)
      (λ p, grantError p.2 p.1 target) (specPairs databases privileges) d
      (λ p, built_text {| db := h; dryRun := false |} d (GrantStmt p.2 p.1 target)))
      as Hb.
    destruct (grantEachDatabase _ target privileges databases d) as [[e d1] evs].
    destruct Hloop as (Hloop & _). rewrite <- Hloop in Hb. simpl in Hb.
    destruct e; simpl; by rewrite ?execs_app, ?app_nil_r.
Qed.

Lemma RevokePrivileges_built {DB} (m : Manager DB) (target : string)
    (privileges databases : list string) (d : DB) :
  Forall built (execs (RevokePrivileges m target privileges databases d).2).
Proof.
  destruct m as [h [|]]; unfold RevokePrivileges; run.
  - pose proof (revokeEachDatabase_dry_run h target privileges databases d) as Hloop.
    destruct (revokeEachDatabase _ target privileges databases d) as [[e d1] evs].
    destruct Hloop as (-> & _ & He & _). simpl. rewrite execs_app, He. constructor.
  - pose proof (revokeEachDatabase_issue h target privileges databases d) as Hloop.
    pose proof (specIssue_built h (λ p, revokeQuery p.2 p.1 target)
      (λ p, revokeError p.2 p.1 target) (specPairs databases privileges) d
      (λ p, built_text {| db := h; dryRun := false |} d (RevokeStmt p.2 p.1 target)))
      as Hb.
    destruct (revokeEachDatabase _ target privileges databases d) as [[e d1] evs].
    destruct Hloop as (Hloop & _). rewrite <- Hloop in Hb. simpl in Hb.
    destruct e; simpl; by rewrite ?execs_app, ?app_nil_r.
Qed.

Lemma addUserToGroups_built {DB} (m : Manager DB) (result : SyncResult.t)
    (username : string) (groups : list string) (d : DB) :
  Forall built (execs (addUserToGroups m result username groups d).2).
Proof.
  revert result d. induction groups as [|groupName groups IH]; intros result d;
    simpl; [constructor|]. run.
  pose proof (AddUserToGroup_built m username groupName d) as Ha.
  destruct (AddUserToGroup m username groupName d) as [[e d1] evs1].
  match goal with |- context [addUserToGroups m ?r username groups d1] =>
    specialize (IH r d1);
    destruct (addUserToGroups m r username groups d1) as [[r2 d2] evs2] end.
  simpl in *. rewrite execs_app. by apply Forall_app.
Qed.

Lemma syncGroups_built {DB} (m : Manager DB) (result : SyncResult.t)
    (groups : list GroupConfig.t) (d : DB) :
  Forall built (execs (syncGroups m result groups d).2).
Proof.
  revert result d. induction groups as [|group groups IH]; intros result d;
    simpl; [constructor|]. unfold syncGroup. run.
  pose proof (CreateGroup_built m group d) as Hc.
  destruct (CreateGroup m group d) as [[[err|] d1] evs1]; simpl in *.
  - match goal with |- context [syncGroups m ?r groups d1] =>
      specialize (IH r d1); destruct (syncGroups m r groups d1) as [[r2 d2] evs2] end.
    simpl in *. rewrite app_nil_r, execs_app. by apply Forall_app.
  - pose proof (GrantPrivileges_built m (GroupConfig.Name group)
      (GroupConfig.Privileges group) (GroupConfig.Databases group) d1) as Hg.
    destruct (GrantPrivileges m _ _ _ d1) as [[[err|] d2] evs2]; simpl in *;
      match goal with |- context [syncGroups m ?r groups d2] =>
        specialize (IH r d2); destruct (syncGroups m r groups d2) as [[r3 d3] evs3] end;
      simpl in *; rewrite ?app_nil_r, !execs_app; by rewrite !Forall_app.
Qed.

Lemma syncUsers_built {DB} (m : Manager DB) (result : SyncResult.t)
    (users : list UserConfig.t) (d : DB) :
  Forall built (execs (syncUsers m result users d).2).
Proof.
  revert result d. induction users as [|user users IH]; intros result d;
    simpl; [constructor|]. unfold syncUser.
  destruct (UserConfig.Enabled user); run.
  - pose proof (CreateUser_built m user d) as Hc.
    destruct (CreateUser m user d) as [[[err|] d1] evs1]; simpl in *.
    + match goal with |- context [syncUsers m ?r users d1] =>
        specialize (IH r d1); destruct (syncUsers m r users d1) as [[r2 d2] evs2] end.
      simpl in *. rewrite app_nil_r, execs_app. by apply Forall_app.
    + match goal with |- context [addUserToGroups m ?r ?n ?g d1] =>
        pose proof (addUserToGroups_built m r n g d1) as Ha;
        destruct (addUserToGroups m r n g d1) as [[r2 d2] evs2] end.
      pose proof (GrantPrivileges_built m (UserConfig.Username user)
        (UserConfig.Privileges user) (UserConfig.Databases user) d2) as Hg.
      destruct (GrantPrivileges m _ _ _ d2) as [[[err|] d3] evs3]; simpl in *;
        match goal with |- context [syncUsers m ?r users d3] =>
          specialize (IH r d3); destruct (syncUsers m r users d3) as [[r4 d4] evs4] end;
        simpl in *; rewrite ?app_nil_r, !execs_app; by rewrite !Forall_app.
  - specialize (IH result d). by destruct (syncUsers m result users d) as [[r2 d2] evs2].
Qed.

Lemma SyncConfiguration_built {DB} (m : Manager DB) (config : Config.t) (d : DB) :
  Forall built (execs (SyncConfiguration m config d).2).
Proof.
  unfold SyncConfiguration. run.
  pose proof (syncGroups_built m SyncResult.empty (Config.Groups config) d) as Hg.
  destruct (syncGroups m SyncResult.empty (Config.Groups config) d) as [[r1 d1] evs1].
  pose proof (syncUsers_built m r1 (Config.Users config) d1) as Hu.
  destruct (syncUsers m r1 (Config.Users config) d1) as [[r2 d2] evs2].
  simpl in *. rewrite !execs_app. simpl. rewrite app_nil_r. by apply Forall_app.
Qed.

(** C4, as the code has it.  Every statement that the seven mutating
    operations and [SyncConfiguration] execute is built at one of the nine
    formatting sites.  At each site the text is the format string with each
    user, group and database name passed through [quoteIdentifier] and the
    password through [escapeString], whose results have every delimiter
    doubled; the one argument that reaches a statement as it is, is the
    privilege keyword of the GRANT and REVOKE ... ON DATABASE statements. *)
Theorem names_are_quoted_privileges_are_not {DB} (m : Manager DB) (d : DB) (st : Stmt)
    (config : Config.t) (user : UserConfig.t) (group : GroupConfig.t)
    (username groupName target : string) (privileges databases : list string) :
  (Forall built (execs (CreateUser m user d).2)
   ∧ Forall built (execs (DropUser m username d).2)
   ∧ Forall built (execs (CreateGroup m group d).2)
   ∧ Forall built (execs (GrantPrivileges m target privileges databases d).2)
   ∧ Forall built (execs (RevokePrivileges m target privileges databases d).2)
   ∧ Forall built (execs (AddUserToGroup m username groupName d).2)
   ∧ Forall built (execs (RemoveUserFromGroup m username groupName d).2)
   ∧ Forall built (execs (SyncConfiguration m config d).2))
  ∧ statementText m d st = render (pieces st)
  ∧ List.filter isVerbatim (pieces st)
    = match st with
      | GrantStmt priv _ _ | RevokeStmt priv _ _ => [Verbatim priv]
      | _ => []
      end
  ∧ sanitized st
    = match st with
      | GrantStmt _ _ _ | RevokeStmt _ _ _ => false
      | _ => true
      end
  ∧ (∀ name, ∃ body, quoteIdentifier name = String dquote (body +:+ String dquote "")
                      ∧ doubled dquote body = true)
  ∧ (∀ s, doubled squote (escapeString s) = true).
Proof.
  split.
  { repeat apply conj;
      auto using CreateUser_built, DropUser_built, CreateGroup_built,
        GrantPrivileges_built, RevokePrivileges_built, AddUserToGroup_built,
        RemoveUserFromGroup_built, SyncConfiguration_built. }
  split; [apply statementText_pieces|].
  split; [|split; [|split]].
  - destruct st; simpl; auto.
    repeat case_decide; reflexivity.
  - destruct st; unfold sanitized; simpl; auto.
    repeat case_decide; reflexivity.
  - intros name. eexists. split; [reflexivity|]. apply ReplaceAll_doubled.
  - intros s. apply ReplaceAll_doubled.
Qed.

(** C4 as it is stated fails: the privilege keyword is a user-supplied value
    and is concatenated into the GRANT statement as it is, so an entry of the
    [privileges] list can carry the rest of a statement, and a second one. *)
Lemma privilege_keyword_is_raw :
  sanitized (GrantStmt "CONNECT" "app" "app_group") = false
  ∧ sanitized (RevokeStmt "CONNECT" "app" "app_group") = false
  ∧ execs (GrantPrivileges live "app_group" [payload] ["app"] []).2
    = ["GRANT ALL ON DATABASE app TO public; -- ON DATABASE "
         +:+ quoteIdentifier "app" +:+ " TO " +:+ quoteIdentifier "app_group"].
Proof. repeat split. Qed.

(** ** Connection establishment *)

Lemma driverCalls_app (l1 l2 : list Event) :
  driverCalls (l1 ++ l2) = driverCalls l1 ++ driverCalls l2.
Proof. apply List.filter_app. Qed.

Lemma LoadConfig_driverCalls {DB} (w : World DB) (configPath : string) (d : DB) :
  let '(_, d', evs) := LoadConfig w configPath d in d' = d ∧ driverCalls evs = [].
Proof.
  unfold LoadConfig. run. destruct (readFile w configPath); simpl; auto.
  destruct (jsonUnmarshal w data); simpl; auto.
Qed.

Lemma GetDatabaseConnection_without_password {DB} (w : World DB) (d : DB) :
  getEnvOrDefault w "POSTGRES_IAM_AUTH" "false" ≠ "true" →
  Getenv w "POSTGRES_PASSWORD" = "" →
  ∃ evs, driverCalls evs = []
    ∧ GetDatabaseConnection w d
      = (Err (match Atoi (getEnvOrDefault w "POSTGRES_PORT" "5432") with
              | Some _ => "POSTGRES_PASSWORD environment variable is required for password authentication"
              | None => "invalid POSTGRES_PORT: " +:+ getEnvOrDefault w "POSTGRES_PORT" "5432"
              end), d, evs).
Proof.
  intros Hiam Hpw. unfold GetDatabaseConnection. run.
  rewrite (bool_decide_eq_false_2 _ Hiam), Hpw.
  destruct (Atoi (getEnvOrDefault w "POSTGRES_PORT" "5432")); simpl;
    eexists; (split; [|reflexivity]); reflexivity.
Qed.

(** C8. With IAM authentication off and no password in the environment,
    [GetDatabaseConnection] returns an error (the missing-password one,
    unless the port was already found invalid) and [runSync] returns it
    wrapped, in dry-run mode or not; neither makes a single driver call: no
    [sql.Open], no ping, no query, no statement. *)
Theorem missing_password_fails_before_connecting {DB} (w : World DB)
    (configPath : string) (dryRun : bool) (d : DB) :
  getEnvOrDefault w "POSTGRES_IAM_AUTH" "false" ≠ "true" →
  Getenv w "POSTGRES_PASSWORD" = "" →
  (let '(conn, d', evs) := GetDatabaseConnection w d in
   d' = d ∧ driverCalls evs = []
   ∧ conn = Err (match Atoi (getEnvOrDefault w "POSTGRES_PORT" "5432") with
                 | Some _ => "POSTGRES_PASSWORD environment variable is required for password authentication"
                 | None => "invalid POSTGRES_PORT: "
                             +:+ getEnvOrDefault w "POSTGRES_PORT" "5432"
                 end))
  ∧ (let '(e, d', evs) := runSync w configPath dryRun d in
     is_Some e ∧ d' = d ∧ driverCalls evs = []).
Proof.
  intros Hiam Hpw. split.
  - destruct (GetDatabaseConnection_without_password w d Hiam Hpw) as (evs & Hcalls & ->).
    auto.
  - pose proof (LoadConfig_driverCalls w configPath d) as Hload.
    unfold runSync. run.
    destruct (LoadConfig w configPath d) as [[[cfg|err] d1] evs1];
      destruct Hload as [-> Hcalls1]; simpl.
    + destruct (GetDatabaseConnection_without_password w d Hiam Hpw)
        as (evs & Hcalls & ->). simpl.
      rewrite app_nil_r.
      split; [eauto|]. split; [done|].
      by rewrite driverCalls_app, Hcalls1, Hcalls.
    + rewrite app_nil_r. split; [eauto|]. split; [done|]. exact Hcalls1.
Qed.

Lemma missing_password_fails_before_connecting_witness :
  getEnvOrDefault (scriptedWorld ∅ [] false) "POSTGRES_IAM_AUTH" "false" ≠ "true"
  ∧ Getenv (scriptedWorld ∅ [] false) "POSTGRES_PASSWORD" = ""
  ∧ (GetDatabaseConnection (scriptedWorld ∅ [] false) []).1.1
    = Err "POSTGRES_PASSWORD environment variable is required for password authentication"
  ∧ (let '(e, d', evs) := runSync (scriptedWorld ∅ [] false) "config.json" false [] in
     is_Some e ∧ d' = [] ∧ driverCalls evs = []).
Proof.
  assert (Hiam : getEnvOrDefault (scriptedWorld ∅ [] false) "POSTGRES_IAM_AUTH" "false"
                 ≠ "true") by (vm_compute; discriminate).
  split; [exact Hiam|]. split; [reflexivity|].
  destruct (missing_password_fails_before_connecting
              (scriptedWorld ∅ [] false) "config.json" false [] Hiam eq_refl)
    as [Hconn Hrun].
  split; [|exact Hrun].
  destruct (GetDatabaseConnection (scriptedWorld ∅ [] false) []) as [[conn d'] evs].
  destruct Hconn as (_ & _ & ->). reflexivity.
Defined.

(** [NewManager] itself does not look at the password: handed connection
    parameters with an empty one, it opens the handle and pings. *)
Lemma NewManager_opens_with_empty_password :
  driverCalls
    (NewManager (sqlOpen (scriptedWorld ∅ [] false))
       (DatabaseConnection.mk "localhost" 5432 "postgres" "postgres" "" "require"
          false "us-east-1" "") false []).2
  = [EvOpen "postgres"
       "host=localhost port=5432 user=postgres password= dbname=postgres sslmode=require";
     EvPing].
Proof. reflexivity. Qed.

(** ** The repository's own test cases, replayed *)

(** [TestHelperMethods]. *)
Example quoteIdentifier_plain :
  quoteIdentifier "test_user" = String dquote ("test_user" +:+ String dquote "").
Proof. reflexivity. Qed.

Example quoteIdentifier_embedded_quote :
  quoteIdentifier ("test" +:+ String dquote "user")
  = String dquote ("test" +:+ String dquote (String dquote ("user" +:+ String dquote ""))).
Proof. reflexivity. Qed.

Example escapeString_embedded_quote : escapeString "test'string" = "test''string".
Proof. reflexivity. Qed.

(** [TestDryRunMode]: the dry-run call succeeds and the user is not there
    afterwards. *)
Example dry_run_creates_nothing :
  let '(e, d', _) := CreateUser preview alice [] in
  e = None ∧ d' = [] ∧ (UserExists live "alice" d').1.1 = (false, None).
Proof. repeat split. Qed.

(** [TestCreateUserDuplicate]. *)
Example create_user_twice :
  let '(e1, d1, _) := CreateUser live alice [] in
  let '(e2, d2, _) := CreateUser live alice d1 in
  e1 = None ∧ e2 = None ∧ d2 = d1 ∧ d1 = [specCreateUserStatement alice].
Proof. repeat split. Qed.

(** [TestIAMAuthFlow]: no password clause, and the rds_iam grant follows. *)
Example create_iam_user :
  (CreateUser live
     (UserConfig.mk "iam_user" "ignored" [] [] [] true "" "iam" "arn:aws:iam::1:role/r" true 0)
     []).1
  = (None,
     ["CREATE USER " +:+ quoteIdentifier "iam_user" +:+ " LOGIN";
      "GRANT rds_iam TO " +:+ quoteIdentifier "iam_user"]).
Proof. reflexivity. Qed.

(** The scenario of the specification's §8: one group, one enabled user that
    belongs to it, one disabled user. *)
Example sync_scenario :
  let '(result, err, d', evs) :=
    SyncConfiguration live (Config.mk [alice; bob] [app_group]) [] in
  err = None
  ∧ SyncResult.GroupsCreated result = ["app_group"]
  ∧ SyncResult.UsersCreated result = ["alice"]
  ∧ SyncResult.Errors result = []
  ∧ execs evs
    = [createGroupQuery app_group; grantQuery "CONNECT" "app" "app_group";
       specCreateUserStatement alice; addUserToGroupQuery "alice" "app_group"]
  ∧ reads evs = [(groupExistsQuery, ["app_group"]); (userExistsQuery, ["alice"])].
Proof. vm_compute. repeat split. Qed.

(** A second run against the provisioned server creates nothing, and still
    lists the principals it skipped in [GroupsCreated] and [UsersCreated]:
    the orchestrator appends a name after every nil return of the creation
    call. *)
Example sync_lists_skipped_principals :
  let '(result, err, d', evs) :=
    SyncConfiguration live (Config.mk [alice; bob] [app_group]) provisioned in
  SyncResult.GroupsCreated result = ["app_group"]
  ∧ SyncResult.UsersCreated result = ["alice"]
  ∧ execs evs
    = [grantQuery "CONNECT" "app" "app_group"; addUserToGroupQuery "alice" "app_group"].
Proof. vm_compute. repeat split. Qed.

(** A grant over two databases and two privileges whose second statement the
    server rejects: the last two pairs are never sent. *)
Example grant_stops_at_first_rejection :
  let m := {| db := scripted [grantQuery "CREATE" "app" "alice"] false; dryRun := false |} in
  let '(e, d', evs) := GrantPrivileges m "alice" ["CONNECT"; "CREATE"] ["app"; "logs"] [] in
  e = Some "failed to grant CREATE on app to alice: rejected by the server"
  ∧ execs evs = [grantQuery "CONNECT" "app" "alice"; grantQuery "CREATE" "app" "alice"]
  ∧ d' = [grantQuery "CONNECT" "app" "alice"].
Proof. vm_compute. repeat split. Qed.

(** [TestGetDatabaseConnection] and [TestConfigPortParsing]. *)
Example connection_from_environment :
  (GetDatabaseConnection
     (scriptedWorld {[ "POSTGRES_PASSWORD" := "test_password" ]} [] false) []).1.1
  = Ok (DatabaseConnection.mk "localhost" 5432 "postgres" "postgres" "test_password"
          "require" false "us-east-1" "").
Proof. reflexivity. Qed.

Example connection_with_invalid_port :
  (GetDatabaseConnection
     (scriptedWorld (<[ "POSTGRES_PORT" := "invalid" ]> {[ "POSTGRES_PASSWORD" := "pw" ]})
        [] false) []).1.1
  = Err "invalid POSTGRES_PORT: invalid".
Proof. reflexivity. Qed.

(** * Further properties *)

(** ** quoteIdentifier and escapeString *)

Lemma append_snoc_inj (a b : string) (c : ascii) :
  a +:+ String c "" = b +:+ String c "" → a = b.
Proof.
  revert b. induction a as [|x a IH]; intros [|y b] Heq; auto.
  - rewrite append_cons in Heq. injection Heq as _ Heq.
    destruct b; discriminate.
  - rewrite append_cons in Heq. injection Heq as _ Heq.
    destruct a; discriminate.
  - rewrite !append_cons in Heq. injection Heq as -> Heq. f_equal. by apply IH.
Qed.

Lemma ReplaceAll_doubling_inj (q : ascii) (a b : string) :
  ReplaceAll a q (String q (String q "")) = ReplaceAll b q (String q (String q ""))
  → a = b.
Proof.
  revert b. induction a as [|x a IH]; intros [|y b]; simpl; auto.
  - case_decide; rewrite ?append_cons; discriminate.
  - case_decide; rewrite ?append_cons; discriminate.
  - destruct (decide (x = q)) as [->|Hx], (decide (y = q)) as [->|Hy];
      rewrite ?append_cons; intros Heq.
    + injection Heq as Heq. f_equal. by apply IH.
    + injection Heq as Heq. congruence.
    + injection Heq as Heq. congruence.
    + injection Heq as -> Heq. f_equal. by apply IH.
Qed.

(** X1. Distinct names never quote to the same identifier, and distinct
    strings never escape to the same literal body. *)
Theorem quoting_is_injective (a b : string) :
  (quoteIdentifier a = quoteIdentifier b → a = b)
  ∧ (escapeString a = escapeString b → a = b).
Proof.
  split.
  - unfold quoteIdentifier. rewrite !append_cons. intros Heq.
    injection Heq as Heq. apply append_snoc_inj in Heq.
    by apply ReplaceAll_doubling_inj in Heq.
  - apply ReplaceAll_doubling_inj.
Qed.

Lemma quoting_is_injective_witness :
  quoteIdentifier "o'brien" = quoteIdentifier "o'brien" ∧ "o'brien" = "o'brien"
  ∧ escapeString "o'brien" = escapeString "o'brien".
Proof.
  split; [reflexivity|]. split; [|reflexivity].
  exact (proj1 (quoting_is_injective "o'brien" "o'brien") eq_refl).
Defined.

Lemma append_nil_l (a : string) : "" +:+ a = a.
Proof. reflexivity. Qed.

Lemma ReplaceAll_length (q : ascii) (s : string) :
  String.length (ReplaceAll s q (String q (String q "")))
  = (String.length s + countByte q s)%nat.
Proof.
  induction s as [|x s IH]; simpl; [reflexivity|].
  case_decide; rewrite ?append_cons, ?append_nil_l; simpl; rewrite IH; lia.
Qed.

Lemma ReplaceAll_absent (q : ascii) (new s : string) :
  countByte q s = 0%nat → ReplaceAll s q new = s.
Proof.
  induction s as [|x s IH]; simpl; [reflexivity|].
  case_decide; [discriminate|]. intros Hc. by rewrite IH.
Qed.

Lemma length_append (a b : string) :
  String.length (a +:+ b) = (String.length a + String.length b)%nat.
Proof.
  induction a as [|x a IH]; [reflexivity|]. rewrite append_cons. simpl. by rewrite IH.
Qed.

(** X2. Quoting adds the two delimiters and one byte per embedded double
    quote; escaping adds one byte per embedded single quote.  A name without a
    double quote is only wrapped, a string without a single quote is
    unchanged. *)
Theorem quoting_adds_only_delimiters (s : string) :
  String.length (quoteIdentifier s) = (String.length s + countByte dquote s + 2)%nat
  ∧ String.length (escapeString s) = (String.length s + countByte squote s)%nat
  ∧ (countByte dquote s = 0%nat →
     quoteIdentifier s = String dquote (s +:+ String dquote ""))
  ∧ (countByte squote s = 0%nat → escapeString s = s).
Proof.
  split; [|split; [|split]].
  - unfold quoteIdentifier. rewrite append_cons. simpl.
    rewrite length_append, ReplaceAll_length. simpl. lia.
  - apply ReplaceAll_length.
  - intros Hc. unfold quoteIdentifier. by rewrite ReplaceAll_absent.
  - apply ReplaceAll_absent.
Qed.

Lemma quoting_adds_only_delimiters_witness :
  countByte dquote "app_group" = 0%nat ∧ countByte squote "app_group" = 0%nat
  ∧ quoteIdentifier "app_group" = String dquote ("app_group" +:+ String dquote "")
  ∧ escapeString "app_group" = "app_group".
Proof.
  destruct (quoting_adds_only_delimiters "app_group") as (_ & _ & Hq & He).
  split; [reflexivity|]. split; [reflexivity|].
  split; [exact (Hq eq_refl)|exact (He eq_refl)].
Defined.

(** ** DropUser *)

(** X3. Dropping a user that the catalog does not list is a success that
    executes nothing, in either mode.  Dropping one that it lists, with
    dry-run off, executes the one DROP USER statement for the quoted name and
    returns the server's rejection of it, if any, wrapped. *)
Theorem DropUser_is_guarded {DB} (h : sqlDB DB) (dry : bool) (username : string) (d : DB) :
  (sqlQueryRow h userExistsQuery [username] d = ErrNoRows →
   let '(e, d', evs) := DropUser {| db := h; dryRun := dry |} username d in
   e = None ∧ d' = d ∧ execs evs = [] ∧ previews evs = [])
  ∧ (sqlQueryRow h userExistsQuery [username] d = RowFound →
     let '(e, d', evs) := DropUser {| db := h; dryRun := false |} username d in
     execs evs = ["DROP USER " +:+ quoteIdentifier username]
     ∧ (d', e)
       = (let '(d1, r) := sqlExec h ("DROP USER " +:+ quoteIdentifier username) d in
          (d1, (λ err, "failed to drop user " +:+ username +:+ ": " +:+ err) <$> r))).
Proof.
  split; intros Hrow; unfold DropUser, UserExists, dropUserQuery; run; rewrite Hrow; simpl.
  - done.
  - by destruct (sqlExec h ("DROP USER " +:+ quoteIdentifier username) d) as [d1 [err|]].
Qed.

Lemma DropUser_is_guarded_witness :
  sqlQueryRow (scripted [] false) userExistsQuery ["nobody"] provisioned = ErrNoRows
  ∧ sqlQueryRow (scripted [] false) userExistsQuery ["alice"] provisioned = RowFound
  ∧ (DropUser preview "nobody" provisioned).1 = (None, provisioned)
  ∧ execs (DropUser live "alice" provisioned).2 = ["DROP USER " +:+ quoteIdentifier "alice"].
Proof.
  split; [reflexivity|]. split; [reflexivity|]. split.
  - pose proof (proj1 (DropUser_is_guarded (scripted [] false) true "nobody" provisioned)
                  eq_refl) as H.
    change {| db := scripted [] false; dryRun := true |} with preview in H.
    destruct (DropUser preview "nobody" provisioned) as [[e d'] evs].
    destruct H as (-> & -> & _). reflexivity.
  - pose proof (proj2 (DropUser_is_guarded (scripted [] false) false "alice" provisioned)
                  eq_refl) as H.
    change {| db := scripted [] false; dryRun := false |} with live in H.
    destruct (DropUser live "alice" provisioned) as [[e d'] evs].
    exact (proj1 H).
Defined.

(** ** CreateUser for IAM users *)

(** X4. For an "iam" user the CREATE statement never carries a password
    clause, whatever the [Password] field holds.  With dry-run off, when the
    user is absent and the server accepts the CREATE but rejects the
    GRANT rds_iam that follows, [CreateUser] returns that error although the
    user has been created: both statements were executed and the state is the
    one the server was left in. *)
Theorem CreateUser_iam_grant_failure {DB} (h : sqlDB DB) (user : UserConfig.t)
    (d d1 d2 : DB) (err : error) :
  UserConfig.AuthMethod user = "iam" →
  let create :=
    "CREATE USER " +:+ quoteIdentifier (UserConfig.Username user)
      +:+ specLoginClause user +:+ specConnectionLimitClause user in
  let grant := "GRANT rds_iam TO " +:+ quoteIdentifier (UserConfig.Username user) in
  sqlQueryRow h userExistsQuery [UserConfig.Username user] d = ErrNoRows →
  sqlExec h create d = (d1, None) →
  sqlExec h grant d1 = (d2, Some err) →
  let '(e, d', evs) := CreateUser {| db := h; dryRun := false |} user d in
  e = Some ("failed to grant rds_iam role to user " +:+ UserConfig.Username user
              +:+ ": failed to grant rds_iam role: " +:+ err)
  ∧ d' = d2 ∧ execs evs = [create; grant].
Proof.
  intros Hiam create grant Habsent Hcreate Hgrant.
  assert (Hstmt : specCreateUserStatement user = create).
  { unfold specCreateUserStatement, specPasswordClause, create.
    by rewrite decide_True. }
  unfold CreateUser, UserExists, grantRDSIAMRole, grantRDSIAMRoleQuery. run.
  rewrite Habsent. simpl. rewrite buildCreateUserQuery_run, Hstmt, Hcreate. simpl.
  rewrite (decide_True _ _ Hiam). simpl. fold grant. rewrite Hgrant. simpl.
  split; [reflexivity|]. split; [reflexivity|]. by rewrite (decide_True _ _ Hiam).
Qed.

Lemma CreateUser_iam_grant_failure_witness :
  UserConfig.AuthMethod iam_user = "iam"
  ∧ (let '(e, d', evs) := CreateUser without_rds_iam iam_user [] in
     e = Some ("failed to grant rds_iam role to user " +:+ UserConfig.Username iam_user
                 +:+ ": failed to grant rds_iam role: " +:+ "rejected by the server")
     ∧ d' = ["CREATE USER " +:+ quoteIdentifier "iam_user" +:+ " LOGIN"]
     ∧ execs evs
       = ["CREATE USER " +:+ quoteIdentifier (UserConfig.Username iam_user)
            +:+ specLoginClause iam_user +:+ specConnectionLimitClause iam_user;
          "GRANT rds_iam TO " +:+ quoteIdentifier (UserConfig.Username iam_user)]).
Proof.
  split; [reflexivity|].
  exact (CreateUser_iam_grant_failure (db without_rds_iam) iam_user []
           ["CREATE USER " +:+ quoteIdentifier "iam_user" +:+ " LOGIN"]
           ["CREATE USER " +:+ quoteIdentifier "iam_user" +:+ " LOGIN"]
           "rejected by the server" eq_refl eq_refl eq_refl eq_refl).
Defined.

(** ** What a dry run shows *)





(** ** GetUserInfo for an existing user *)

Lemma scanGroups_app (scanned : list string) (rest : list (result string))
    (groups : list string) :
  scanGroups (map Ok scanned ++ rest) groups = scanGroups rest (groups ++ scanned).
Proof.
  revert groups. induction scanned as [|g scanned IH]; intros groups; simpl.
  - by rewrite app_nil_r.
  - rewrite IH. by rewrite <- app_assoc.
Qed.

(** X6. For a user the catalog lists, [GetUserInfo] returns the rows of the
    membership query in the order the server gave them when every row scans;
    when a row fails to scan it returns that row's error and none of the
    groups scanned before it; and the query's own failure comes back wrapped.
    It executes nothing in either case. *)
Theorem GetUserInfo_lists_the_rows {DB} (m : Manager DB) (now : Z) (username : string)
    (d : DB) (groups : list string) (err : error) (rest : list (result string)) :
  sqlQueryRow (db m) userExistsQuery [username] d = RowFound →
  (sqlQuery (db m) groupQuery [username] d = Ok (map Ok groups) →
   GetUserInfo m now username d
   = (Ok (DatabaseUser.mk username groups [] [] true now), d,
      [EvQueryRow userExistsQuery [username]; EvQuery groupQuery [username]]))
  ∧ (sqlQuery (db m) groupQuery [username] d = Ok (map Ok groups ++ Err err :: rest) →
     (GetUserInfo m now username d).1 = (Err err, d))
  ∧ (sqlQuery (db m) groupQuery [username] d = Err err →
     (GetUserInfo m now username d).1 = (Err ("failed to get user groups: " +:+ err), d)).
Proof.
  intros Hfound. unfold GetUserInfo, UserExists. run. rewrite Hfound. simpl.
  split; [|split]; intros ->; simpl.
  - pose proof (scanGroups_app groups [] []) as Hs. rewrite app_nil_r in Hs.
    by rewrite Hs.
  - by rewrite scanGroups_app.
  - done.
Qed.

Lemma GetUserInfo_lists_the_rows_witness :
  let ok := {| db := canned (Ok (map Ok ["app_group"; "read_only"])); dryRun := false |} in
  let torn := {| db := canned (Ok (map Ok ["app_group"] ++ [Err "scan failed"]));
                 dryRun := false |} in
  let down := {| db := canned (Err "connection reset"); dryRun := false |} in
  (GetUserInfo ok 7 "alice" tt).1.1
  = Ok (DatabaseUser.mk "alice" ["app_group"; "read_only"] [] [] true 7)
  ∧ (GetUserInfo torn 7 "alice" tt).1 = (Err "scan failed", tt)
  ∧ (GetUserInfo down 7 "alice" tt).1
    = (Err ("failed to get user groups: " +:+ "connection reset"), tt).
Proof.
  intros ok torn down. split; [|split].
  - destruct (GetUserInfo_lists_the_rows ok 7 "alice" tt ["app_group"; "read_only"]
                "" [] eq_refl) as (H & _).
    by rewrite (H eq_refl).
  - destruct (GetUserInfo_lists_the_rows torn 7 "alice" tt ["app_group"]
                "scan failed" [] eq_refl) as (_ & H & _).
    exact (H eq_refl).
  - destruct (GetUserInfo_lists_the_rows down 7 "alice" tt []
                "connection reset" [] eq_refl) as (_ & _ & H).
    exact (H eq_refl).
Defined.

(** ** NewManager *)

Lemma NewManager_run {DB} (open : string → string → result (sqlDB DB))
    (conn : DatabaseConnection.t) (dry : bool) (d : DB) :
  let connStr := connString conn (connPassword conn) in
  let '(r, d', evs) := NewManager open conn dry d in
  d' = d
  ∧ execs evs = [] ∧ reads evs = []
  ∧ driverCalls evs
    = EvOpen "postgres" connStr
      :: match open "postgres" connStr with
         | Ok _ => if dry then [] else [EvPing]
         | Err _ => []
         end
  ∧ r = match open "postgres" connStr with
        | Err err => Err ("failed to open database connection: " +:+ err)
        | Ok h =>
            if dry then Ok {| db := h; dryRun := true |}
            else match sqlPing h d with
                 | Some err => Err ("failed to ping database: " +:+ err)
                 | None => Ok {| db := h; dryRun := false |}
                 end
        end.
Proof.
  unfold NewManager, connPassword. run.
  destruct (DatabaseConnection.IAMAuth conn); simpl.
  - destruct (decide (DatabaseConnection.IAMToken conn = "")); simpl;
      match goal with |- context [open "postgres" ?cs] =>
        destruct (open "postgres" cs) as [h|err] end; simpl; auto;
      destruct dry; simpl; auto; destruct (sqlPing h d); simpl; auto.
  - match goal with |- context [open "postgres" ?cs] =>
      destruct (open "postgres" cs) as [h|err] end; simpl; auto;
    destruct dry; simpl; auto; destruct (sqlPing h d); simpl; auto.
Qed.

(** X7. [NewManager] opens the handle with a connection string whose password
    is [connPassword]: the IAM token (or the placeholder when the token is
    empty) in IAM mode, where the [Password] field plays no part, and the
    password otherwise.  In dry-run mode it never pings and succeeds whenever
    [sql.Open] does; with dry-run off its driver calls are the open and, if
    that succeeded, one ping, and it succeeds when both do.  It never changes
    the server state, and the manager it returns carries the flag it was
    given. *)
Theorem NewManager_opens_and_pings {DB} (open : string → string → result (sqlDB DB))
    (conn : DatabaseConnection.t) (dry : bool) (d : DB) :
  let connStr := connString conn (connPassword conn) in
  let '(r, d', evs) := NewManager open conn dry d in
  d' = d
  ∧ execs evs = [] ∧ reads evs = []
  ∧ driverCalls evs
    = EvOpen "postgres" connStr
      :: match open "postgres" connStr with
         | Ok _ => if dry then [] else [EvPing]
         | Err _ => []
         end
  ∧ r = match open "postgres" connStr with
        | Err err => Err ("failed to open database connection: " +:+ err)
        | Ok h =>
            if dry then Ok {| db := h; dryRun := true |}
            else match sqlPing h d with
                 | Some err => Err ("failed to ping database: " +:+ err)
                 | None => Ok {| db := h; dryRun := false |}
                 end
        end.
Proof. apply NewManager_run. Qed.

(** ** What SyncConfiguration reports *)

Lemma grows_refl (r : SyncResult.t) : grows r r [] [] [].
Proof. unfold grows. rewrite !app_nil_r. by destruct r. Qed.

Lemma grows_trans (r r1 r2 : SyncResult.t) (g1 g2 u1 u2 : list string)
    (e1 e2 : list error) :
  grows r r1 g1 u1 e1 → grows r1 r2 g2 u2 e2 → grows r r2 (g1 ++ g2) (u1 ++ u2) (e1 ++ e2).
Proof. unfold grows. intros -> ->. simpl. by rewrite !app_assoc. Qed.

Lemma grows_addError (r : SyncResult.t) (e : error) :
  grows r (SyncResult.addError r e) [] [] [e].
Proof. unfold grows, SyncResult.addError. by rewrite !app_nil_r. Qed.

Lemma grows_addGroupCreated (r : SyncResult.t) (name : string) :
  grows r (SyncResult.addGroupCreated r name) [name] [] [].
Proof. unfold grows, SyncResult.addGroupCreated. by rewrite !app_nil_r. Qed.

Lemma grows_addUserCreated (r : SyncResult.t) (name : string) :
  grows r (SyncResult.addUserCreated r name) [] [name] [].
Proof. unfold grows, SyncResult.addUserCreated. by rewrite !app_nil_r. Qed.

Lemma sublist_full {A} (l1 l2 : list A) :
  l1 `sublist_of` l2 → (length l2 ≤ length l1)%nat → l1 = l2.
Proof.
  induction 1 as [|x l1 l2 Hsub IH|x l1 l2 Hsub IH]; simpl; intros Hlen.
  - reflexivity.
  - f_equal. apply IH. lia.
  - apply sublist_length in Hsub. lia.
Qed.

Lemma addUserToGroups_grows {DB} (m : Manager DB) (r : SyncResult.t)
    (username : string) (groups : list string) (d : DB) :
  ∃ errs, grows r (addUserToGroups m r username groups d).1.1 [] [] errs.
Proof.
  revert r d. induction groups as [|groupName groups IH]; intros r d; simpl.
  - exists []. apply grows_refl.
  - run. destruct (AddUserToGroup m username groupName d) as [[[err|] d1] evs1].
    + match goal with |- context [addUserToGroups m ?r1 username groups d1] =>
        destruct (IH r1 d1) as [errs Hg];
        destruct (addUserToGroups m r1 username groups d1) as [[r2 d2] evs2] end.
      simpl in *. eexists.
      exact (grows_trans _ _ _ [] [] [] [] _ _ (grows_addError r _) Hg).
    + destruct (IH r d1) as [errs Hg].
      destruct (addUserToGroups m r username groups d1) as [[r2 d2] evs2].
      simpl in *. by exists errs.
Qed.

Lemma syncGroups_grows {DB} (m : Manager DB) (r : SyncResult.t)
    (groups : list GroupConfig.t) (d : DB) :
  ∃ created errs,
    grows r (syncGroups m r groups d).1.1 created [] errs
    ∧ created `sublist_of` map GroupConfig.Name groups
    ∧ (length groups ≤ length created + length errs)%nat.
Proof.
  revert r d. induction groups as [|group groups IH]; intros r d; simpl.
  - exists [], []. split; [apply grows_refl|]. split; [constructor|lia].
  - unfold syncGroup. run.
    destruct (CreateGroup m group d) as [[[err|] d1] evs1]; simpl.
    + match goal with |- context [syncGroups m ?r1 groups d1] =>
        destruct (IH r1 d1) as (created & errs & Hg & Hsub & Hlen);
        destruct (syncGroups m r1 groups d1) as [[r2 d2] evs2] end.
      simpl in *. do 2 eexists. split; [|split].
      * exact (grows_trans _ _ _ [] created [] [] _ _ (grows_addError r _) Hg).
      * simpl. by apply sublist_cons.
      * simpl. lia.
    + destruct (GrantPrivileges m _ _ _ d1) as [[[err|] d2] evs2]; simpl;
        match goal with |- context [syncGroups m ?r1 groups d2] =>
          destruct (IH r1 d2) as (created & errs & Hg & Hsub & Hlen);
          destruct (syncGroups m r1 groups d2) as [[r3 d3] evs3] end; simpl in *.
      * do 2 eexists. split; [|split].
        -- exact (grows_trans _ _ _ [_] created [] [] [_] errs
                    (grows_trans _ _ _ [_] [] [] [] [] [_]
                       (grows_addGroupCreated r _) (grows_addError _ _)) Hg).
        -- simpl. by apply sublist_skip.
        -- simpl. lia.
      * do 2 eexists. split; [|split].
        -- exact (grows_trans _ _ _ [_] created [] [] [] errs
                    (grows_addGroupCreated r _) Hg).
        -- simpl. by apply sublist_skip.
        -- simpl. lia.
Qed.

Lemma syncUsers_grows {DB} (m : Manager DB) (r : SyncResult.t)
    (users : list UserConfig.t) (d : DB) :
  ∃ created errs,
    grows r (syncUsers m r users d).1.1 [] created errs
    ∧ created `sublist_of` map UserConfig.Username (List.filter UserConfig.Enabled users)
    ∧ (length (List.filter UserConfig.Enabled users) ≤ length created + length errs)%nat.
Proof.
  revert r d. induction users as [|user users IH]; intros r d; simpl.
  - exists [], []. split; [apply grows_refl|]. split; [constructor|lia].
  - unfold syncUser. destruct (UserConfig.Enabled user); run.
    + destruct (CreateUser m user d) as [[[err|] d1] evs1]; simpl.
      * match goal with |- context [syncUsers m ?r1 users d1] =>
          destruct (IH r1 d1) as (created & errs & Hg & Hsub & Hlen);
          destruct (syncUsers m r1 users d1) as [[r2 d2] evs2] end.
        simpl in *. do 2 eexists. split; [|split].
        -- exact (grows_trans _ _ _ [] [] [] created _ _ (grows_addError r _) Hg).
        -- simpl. by apply sublist_cons.
        -- simpl. lia.
      * match goal with |- context [addUserToGroups m ?r1 ?n ?g d1] =>
          destruct (addUserToGroups_grows m r1 n g d1) as [errsm Hm];
          destruct (addUserToGroups m r1 n g d1) as [[r2 d2] evs2] end.
        simpl in Hm.
        destruct (GrantPrivileges m _ _ _ d2) as [[[err|] d3] evs3]; simpl;
          match goal with |- context [syncUsers m ?r1 users d3] =>
            destruct (IH r1 d3) as (created & errs & Hg & Hsub & Hlen);
            destruct (syncUsers m r1 users d3) as [[r4 d4] evs4] end; simpl in *.
        -- do 2 eexists. split; [|split].
           ++ exact (grows_trans _ _ _ [] [] [_] created _ errs
                       (grows_trans _ _ _ [] [] [_] [] _ [_]
                          (grows_trans _ _ _ [] [] [_] [] [] errsm
                             (grows_addUserCreated r _) Hm)
                          (grows_addError _ _)) Hg).
           ++ simpl. by apply sublist_skip.
           ++ simpl. rewrite !length_app. simpl. lia.
        -- do 2 eexists. split; [|split].
           ++ exact (grows_trans _ _ _ [] [] [_] created _ errs
                       (grows_trans _ _ _ [] [] [_] [] [] errsm
                          (grows_addUserCreated r _) Hm) Hg).
           ++ simpl. by apply sublist_skip.
           ++ simpl. rewrite !length_app. simpl. lia.
    + destruct (IH r d) as (created & errs & Hg & Hsub & Hlen).
      destruct (syncUsers m r users d) as [[r2 d2] evs2]. simpl in *.
      by exists created, errs.
Qed.

(** X8. Whatever the server does, the result of [SyncConfiguration] never
    lists a modified or removed principal; [GroupsCreated] is a subsequence of
    the declared group names and [UsersCreated] of the enabled usernames, in
    configuration order; every declared group and enabled user missing from
    them has left an error; so a result without errors lists every declared
    group and every enabled user. *)
Theorem SyncConfiguration_result_shape {DB} (m : Manager DB) (config : Config.t) (d : DB) :
  let result := (SyncConfiguration m config d).1.1.1 in
  let groups := map GroupConfig.Name (Config.Groups config) in
  let users :=
    map UserConfig.Username (List.filter UserConfig.Enabled (Config.Users config)) in
  SyncResult.UsersModified result = [] ∧ SyncResult.UsersRemoved result = []
  ∧ SyncResult.GroupsModified result = [] ∧ SyncResult.GroupsRemoved result = []
  ∧ SyncResult.GroupsCreated result `sublist_of` groups
  ∧ SyncResult.UsersCreated result `sublist_of` users
  ∧ (length groups + length users
     ≤ length (SyncResult.GroupsCreated result) + length (SyncResult.UsersCreated result)
       + length (SyncResult.Errors result))%nat
  ∧ (SyncResult.Errors result = [] →
     SyncResult.GroupsCreated result = groups ∧ SyncResult.UsersCreated result = users).
Proof.
  intros result groups users. subst result. unfold SyncConfiguration. run.
  destruct (syncGroups_grows m SyncResult.empty (Config.Groups config) d)
    as (cg & eg & Hg & Hsubg & Hleng).
  destruct (syncGroups m SyncResult.empty (Config.Groups config) d) as [[r1 d1] evs1].
  destruct (syncUsers_grows m r1 (Config.Users config) d1)
    as (cu & eu & Hu & Hsubu & Hlenu).
  destruct (syncUsers m r1 (Config.Users config) d1) as [[r2 d2] evs2].
  simpl in *. unfold grows in Hg, Hu. subst r1 r2. simpl in *.
  rewrite app_nil_r. subst groups users.
  rewrite !length_map in *. rewrite length_app.
  repeat (split; [done || lia|]).
  intros Herr. apply app_eq_nil in Herr as [-> ->]. simpl in *.
  split; apply sublist_full; rewrite ?length_map; done || lia.
Qed.

Lemma SyncConfiguration_result_shape_witness :
  let result := (SyncConfiguration live (Config.mk [alice; bob] [app_group]) []).1.1.1 in
  SyncResult.Errors result = []
  ∧ SyncResult.GroupsCreated result = ["app_group"]
  ∧ SyncResult.UsersCreated result = ["alice"].
Proof.
  intros result.
  destruct (SyncConfiguration_result_shape live (Config.mk [alice; bob] [app_group]) [])
    as (_ & _ & _ & _ & _ & _ & _ & H).
  split; [reflexivity|]. exact (H eq_refl).
Defined.

(** ** Disabled users *)

Lemma syncUsers_enabled_only {DB} (m : Manager DB) (r : SyncResult.t)
    (users : list UserConfig.t) (d : DB) :
  (syncUsers m r users d).1 = (syncUsers m r (List.filter UserConfig.Enabled users) d).1
  ∧ driverCalls (syncUsers m r users d).2
    = driverCalls (syncUsers m r (List.filter UserConfig.Enabled users) d).2.
Proof.
  revert r d. induction users as [|user users IH]; intros r d; simpl; [done|].
  destruct (UserConfig.Enabled user) eqn:Hen; simpl.
  - run. destruct (syncUser m r user d) as [[r1 d1] evs1].
    destruct (IH r1 d1) as [Hres Hcalls].
    destruct (syncUsers m r1 users d1) as [[r2 d2] evs2].
    destruct (syncUsers m r1 (List.filter UserConfig.Enabled users) d1) as [[r3 d3] evs3].
    simpl in *. injection Hres as -> ->. by rewrite !driverCalls_app, Hcalls.
  - unfold syncUser. rewrite Hen. run.
    destruct (IH r d) as [Hres Hcalls].
    destruct (syncUsers m r users d) as [[r2 d2] evs2].
    destruct (syncUsers m r (List.filter UserConfig.Enabled users) d) as [[r3 d3] evs3].
    simpl in *. by injection Hres as -> ->.
Qed.

(** X9. A disabled user takes no part in a synchronization: the result, the
    final server state and the driver calls are those of the configuration
    with the disabled users taken out. *)
Theorem SyncConfiguration_ignores_disabled {DB} (m : Manager DB) (config : Config.t)
    (d : DB) :
  (SyncConfiguration m config d).1 = (SyncConfiguration m (enabledOnly config) d).1
  ∧ driverCalls (SyncConfiguration m config d).2
    = driverCalls (SyncConfiguration m (enabledOnly config) d).2.
Proof.
  unfold SyncConfiguration, enabledOnly. run.
  destruct (syncGroups m SyncResult.empty (Config.Groups config) d) as [[r1 d1] evs1].
  destruct (syncUsers_enabled_only m r1 (Config.Users config) d1) as [Hres Hcalls].
  destruct (syncUsers m r1 (Config.Users config) d1) as [[r2 d2] evs2].
  destruct (syncUsers m r1 (List.filter UserConfig.Enabled (Config.Users config)) d1)
    as [[r3 d3] evs3].
  simpl in *. injection Hres as -> ->. split; [done|].
  by rewrite !driverCalls_app, Hcalls.
Qed.

(** ** A dry-run synchronization *)

Lemma CreateGroup_dry_frame {DB} (h : sqlDB DB) (group : GroupConfig.t) (d : DB) :
  let '(_, d', evs) := CreateGroup {| db := h; dryRun := true |} group d in
  d' = d ∧ execs evs = [].
Proof.
  unfold CreateGroup, GroupExists. run.
  by destruct (sqlQueryRow h groupExistsQuery [GroupConfig.Name group] d).
Qed.

Lemma CreateUser_dry_frame {DB} (h : sqlDB DB) (user : UserConfig.t) (d : DB) :
  let '(_, d', evs) := CreateUser {| db := h; dryRun := true |} user d in
  d' = d ∧ execs evs = [].
Proof.
  unfold CreateUser, UserExists. run.
  destruct (sqlQueryRow h userExistsQuery [UserConfig.Username user] d); simpl; auto.
  rewrite buildCreateUserQuery_run. by case_decide.
Qed.

Lemma GrantPrivileges_dry_frame {DB} (h : sqlDB DB) (target : string)
    (privileges databases : list string) (d : DB) :
  let '(_, d', evs) :=
    GrantPrivileges {| db := h; dryRun := true |} target privileges databases d in
  d' = d ∧ execs evs = [].
Proof.
  pose proof (grantEachDatabase_dry_run h target privileges databases d) as Hloop.
  unfold GrantPrivileges. run.
  destruct (grantEachDatabase _ target privileges databases d) as [[e d1] evs].
  destruct Hloop as (-> & -> & He & _). simpl. by rewrite execs_app, He.
Qed.

Lemma addUserToGroups_dry_frame {DB} (h : sqlDB DB) (r : SyncResult.t)
    (username : string) (groups : list string) (d : DB) :
  let '(_, d', evs) :=
    addUserToGroups {| db := h; dryRun := true |} r username groups d in
  d' = d ∧ execs evs = [].
Proof.
  revert r. induction groups as [|groupName groups IH]; intros r; simpl; [done|].
  unfold AddUserToGroup. run. specialize (IH r).
  by destruct (addUserToGroups _ r username groups d) as [[r1 d1] evs1].
Qed.

Lemma syncGroups_dry_frame {DB} (h : sqlDB DB) (r : SyncResult.t)
    (groups : list GroupConfig.t) (d : DB) :
  let '(_, d', evs) := syncGroups {| db := h; dryRun := true |} r groups d in
  d' = d ∧ execs evs = [].
Proof.
  revert r. induction groups as [|group groups IH]; intros r; simpl; [done|].
  unfold syncGroup. run.
  pose proof (CreateGroup_dry_frame h group d) as Hc.
  destruct (CreateGroup _ group d) as [[[err|] d1] evs1]; destruct Hc as [-> Hc]; simpl.
  - match goal with |- context [syncGroups ?m ?r1 groups d] =>
      specialize (IH r1); destruct (syncGroups m r1 groups d) as [[r2 d2] evs2] end.
    destruct IH as [-> IH]. by rewrite app_nil_r, execs_app, Hc, IH.
  - pose proof (GrantPrivileges_dry_frame h (GroupConfig.Name group)
      (GroupConfig.Privileges group) (GroupConfig.Databases group) d) as Hg.
    destruct (GrantPrivileges _ _ _ _ d) as [[[err|] d2] evs2]; destruct Hg as [-> Hg];
      simpl;
      match goal with |- context [syncGroups ?m ?r1 groups d] =>
        specialize (IH r1); destruct (syncGroups m r1 groups d) as [[r3 d3] evs3] end;
      destruct IH as [-> IH]; by rewrite ?app_nil_r, !execs_app, Hc, Hg, IH.
Qed.

Lemma syncUsers_dry_frame {DB} (h : sqlDB DB) (r : SyncResult.t)
    (users : list UserConfig.t) (d : DB) :
  let '(_, d', evs) := syncUsers {| db := h; dryRun := true |} r users d in
  d' = d ∧ execs evs = [].
Proof.
  revert r. induction users as [|user users IH]; intros r; simpl; [done|].
  unfold syncUser. destruct (UserConfig.Enabled user); run.
  - pose proof (CreateUser_dry_frame h user d) as Hc.
    destruct (CreateUser _ user d) as [[[err|] d1] evs1]; destruct Hc as [-> Hc]; simpl.
    + match goal with |- context [syncUsers ?m ?r1 users d] =>
        specialize (IH r1); destruct (syncUsers m r1 users d) as [[r2 d2] evs2] end.
      destruct IH as [-> IH]. by rewrite app_nil_r, execs_app, Hc, IH.
    + match goal with |- context [addUserToGroups ?m ?r1 ?n ?g d] =>
        pose proof (addUserToGroups_dry_frame h r1 n g d) as Ha;
        destruct (addUserToGroups m r1 n g d) as [[r2 d2] evs2] end.
      destruct Ha as [-> Ha].
      pose proof (GrantPrivileges_dry_frame h (UserConfig.Username user)
        (UserConfig.Privileges user) (UserConfig.Databases user) d) as Hg.
      destruct (GrantPrivileges _ _ _ _ d) as [[[err|] d3] evs3]; destruct Hg as [-> Hg];
        simpl;
        match goal with |- context [syncUsers ?m ?r1 users d] =>
          specialize (IH r1); destruct (syncUsers m r1 users d) as [[r4 d4] evs4] end;
        destruct IH as [-> IH]; by rewrite ?app_nil_r, !execs_app, Hc, Ha, Hg, IH.
  - specialize (IH r). by destruct (syncUsers _ r users d) as [[r2 d2] evs2].
Qed.

Lemma SyncConfiguration_dry_frame {DB} (h : sqlDB DB) (config : Config.t) (d : DB) :
  let '(_, d', evs) := SyncConfiguration {| db := h; dryRun := true |} config d in
  d' = d ∧ execs evs = [].
Proof.
  unfold SyncConfiguration. run.
  pose proof (syncGroups_dry_frame h SyncResult.empty (Config.Groups config) d) as Hg.
  destruct (syncGroups _ SyncResult.empty (Config.Groups config) d) as [[r1 d1] evs1].
  destruct Hg as [-> Hg].
  pose proof (syncUsers_dry_frame h r1 (Config.Users config) d) as Hu.
  destruct (syncUsers _ r1 (Config.Users config) d) as [[r2 d2] evs2].
  destruct Hu as [-> Hu]. simpl. by rewrite !execs_app, Hg, Hu.
Qed.

(** ** The events of a synchronization *)

Ltac sync_events :=
  simpl;
  repeat match goal with
    | |- _ ∧ _ => split
    | |- Forall syncEvent [] => constructor
    | |- Forall syncEvent (_ :: _) => constructor
    | |- Forall syncEvent (_ ++ _) => apply Forall_app
    | |- syncEvent _ => simpl
    | |- additive _ => (left; reflexivity) || (right; reflexivity)
    end; auto.

Lemma additive_create_user (user : UserConfig.t) : additive (specCreateUserStatement user).
Proof. left. reflexivity. Qed.

Lemma additive_create_group (group : GroupConfig.t) : additive (createGroupQuery group).
Proof. left. unfold createGroupQuery. by destruct (GroupConfig.Inherit group). Qed.

Lemma additive_grant (priv db target : string) : additive (grantQuery priv db target).
Proof. right. unfold grantQuery. by destruct priv. Qed.

Lemma CreateGroup_events {DB} (m : Manager DB) (group : GroupConfig.t) (d : DB) :
  Forall syncEvent (CreateGroup m group d).2.
Proof.
  pose proof (additive_create_group group) as Ha.
  unfold CreateGroup, GroupExists. run.
  destruct (sqlQueryRow (db m) groupExistsQuery [GroupConfig.Name group] d);
    [sync_events| |sync_events].
  simpl. destruct (dryRun m); [sync_events|]. simpl.
  destruct (sqlExec (db m) (createGroupQuery group) d) as [d1 [err|]]; sync_events.
Qed.

Lemma CreateUser_events {DB} (m : Manager DB) (user : UserConfig.t) (d : DB) :
  Forall syncEvent (CreateUser m user d).2.
Proof.
  pose proof (additive_create_user user) as Ha.
  unfold CreateUser, UserExists, grantRDSIAMRole, grantRDSIAMRoleQuery. run.
  destruct (sqlQueryRow (db m) userExistsQuery [UserConfig.Username user] d);
    [sync_events| |sync_events].
  simpl. rewrite buildCreateUserQuery_run.
  destruct (dryRun m); [case_decide; sync_events|]. simpl.
  destruct (sqlExec (db m) (specCreateUserStatement user) d) as [d1 [err|]]; simpl.
  - case_decide; sync_events.
  - case_decide; simpl; [|sync_events].
    destruct (sqlExec (db m) _ d1) as [d2 [err|]]; sync_events.
Qed.

Lemma AddUserToGroup_events {DB} (m : Manager DB) (username groupName : string) (d : DB) :
  Forall syncEvent (AddUserToGroup m username groupName d).2.
Proof.
  unfold AddUserToGroup, addUserToGroupQuery. run. destruct (dryRun m); [sync_events|].
  simpl. destruct (sqlExec (db m) _ d) as [d1 [err|]]; sync_events.
Qed.

Lemma GrantPrivileges_events {DB} (m : Manager DB) (target : string)
    (privileges databases : list string) (d : DB) :
  Forall syncEvent (GrantPrivileges m target privileges databases d).2.
Proof.
  assert (Hinner : ∀ database d0,
            Forall syncEvent (grantEachPrivilege m target database privileges d0).2).
  { intros database. induction privileges as [|priv privileges IH]; intros d0; simpl;
      [constructor|]. pose proof (additive_grant priv database target) as Ha.
    run. destruct (dryRun m); simpl.
    - specialize (IH d0).
      destruct (grantEachPrivilege m target database privileges d0) as [[e d1] evs].
      simpl in IH. sync_events.
    - destruct (sqlExec (db m) _ d0) as [d1 [err|]]; [sync_events|]. simpl.
      specialize (IH d1).
      destruct (grantEachPrivilege m target database privileges d1) as [[e d2] evs].
      simpl in IH. sync_events. }
  assert (Houter : ∀ d0,
            Forall syncEvent (grantEachDatabase m target privileges databases d0).2).
  { induction databases as [|database databases IH]; intros d0; simpl; [constructor|].
    run. specialize (Hinner database d0).
    destruct (grantEachPrivilege m target database privileges d0) as [[[err|] d1] evs];
      simpl in *; [by rewrite app_nil_r|].
    specialize (IH d1).
    destruct (grantEachDatabase m target privileges databases d1) as [[e d2] evs2].
    simpl in *. by apply Forall_app. }
  unfold GrantPrivileges. run. specialize (Houter d).
  destruct (grantEachDatabase m target privileges databases d) as [[[err|] d1] evs];
    simpl in Houter; sync_events.
Qed.

Lemma addUserToGroups_events {DB} (m : Manager DB) (r : SyncResult.t)
    (username : string) (groups : list string) (d : DB) :
  Forall syncEvent (addUserToGroups m r username groups d).2.
Proof.
  revert r d. induction groups as [|groupName groups IH]; intros r d; simpl;
    [constructor|]. run.
  pose proof (AddUserToGroup_events m username groupName d) as Ha.
  destruct (AddUserToGroup m username groupName d) as [[e d1] evs1].
  match goal with |- context [addUserToGroups m ?r1 username groups d1] =>
    specialize (IH r1 d1);
    destruct (addUserToGroups m r1 username groups d1) as [[r2 d2] evs2] end.
  simpl in *. by apply Forall_app.
Qed.

Lemma syncGroups_events {DB} (m : Manager DB) (r : SyncResult.t)
    (groups : list GroupConfig.t) (d : DB) :
  Forall syncEvent (syncGroups m r groups d).2.
Proof.
  revert r d. induction groups as [|group groups IH]; intros r d; simpl;
    [constructor|]. unfold syncGroup. run.
  pose proof (CreateGroup_events m group d) as Hc.
  destruct (CreateGroup m group d) as [[[err|] d1] evs1]; simpl in *.
  - match goal with |- context [syncGroups m ?r1 groups d1] =>
      specialize (IH r1 d1); destruct (syncGroups m r1 groups d1) as [[r2 d2] evs2] end.
    simpl in *. rewrite app_nil_r. by apply Forall_app.
  - pose proof (GrantPrivileges_events m (GroupConfig.Name group)
      (GroupConfig.Privileges group) (GroupConfig.Databases group) d1) as Hg.
    destruct (GrantPrivileges m _ _ _ d1) as [[[err|] d2] evs2]; simpl in *;
      match goal with |- context [syncGroups m ?r1 groups d2] =>
        specialize (IH r1 d2); destruct (syncGroups m r1 groups d2) as [[r3 d3] evs3] end;
      simpl in *; rewrite ?app_nil_r; by rewrite !Forall_app.
Qed.

Lemma syncUsers_events {DB} (m : Manager DB) (r : SyncResult.t)
    (users : list UserConfig.t) (d : DB) :
  Forall syncEvent (syncUsers m r users d).2.
Proof.
  revert r d. induction users as [|user users IH]; intros r d; simpl;
    [constructor|]. unfold syncUser. destruct (UserConfig.Enabled user); run.
  - pose proof (CreateUser_events m user d) as Hc.
    destruct (CreateUser m user d) as [[[err|] d1] evs1]; simpl in *.
    + match goal with |- context [syncUsers m ?r1 users d1] =>
        specialize (IH r1 d1); destruct (syncUsers m r1 users d1) as [[r2 d2] evs2] end.
      simpl in *. rewrite app_nil_r. by apply Forall_app.
    + match goal with |- context [addUserToGroups m ?r1 ?n ?g d1] =>
        pose proof (addUserToGroups_events m r1 n g d1) as Ha;
        destruct (addUserToGroups m r1 n g d1) as [[r2 d2] evs2] end.
      pose proof (GrantPrivileges_events m (UserConfig.Username user)
        (UserConfig.Privileges user) (UserConfig.Databases user) d2) as Hg.
      destruct (GrantPrivileges m _ _ _ d2) as [[[err|] d3] evs3]; simpl in *;
        match goal with |- context [syncUsers m ?r1 users d3] =>
          specialize (IH r1 d3); destruct (syncUsers m r1 users d3) as [[r4 d4] evs4] end;
        simpl in *; rewrite ?app_nil_r; by rewrite !Forall_app.
  - specialize (IH r d). destruct (syncUsers m r users d) as [[r2 d2] evs2].
    simpl in *. by constructor.
Qed.

Lemma SyncConfiguration_events {DB} (m : Manager DB) (config : Config.t) (d : DB) :
  Forall syncEvent (SyncConfiguration m config d).2.
Proof.
  unfold SyncConfiguration. run.
  pose proof (syncGroups_events m SyncResult.empty (Config.Groups config) d) as Hg.
  destruct (syncGroups m SyncResult.empty (Config.Groups config) d) as [[r1 d1] evs1].
  pose proof (syncUsers_events m r1 (Config.Users config) d1) as Hu.
  destruct (syncUsers m r1 (Config.Users config) d1) as [[r2 d2] evs2].
  simpl in *. constructor; [done|]. rewrite !Forall_app. repeat split; auto.
  by repeat constructor.
Qed.

Lemma syncEvent_execs (evs : list Event) :
  Forall syncEvent evs → Forall additive (execs evs) ∧ (EvPing ∉ evs) ∧ (EvClose ∉ evs).
Proof.
  induction 1 as [|ev evs Hev Hall (IH1 & IH3 & IH4)].
  - repeat split; auto using not_elem_of_nil.
  - repeat split.
    + destruct ev; simpl in *; auto.
    + intros Hin. apply elem_of_cons in Hin as [Heq|Hin]; [by subst ev|by apply IH3].
    + intros Hin. apply elem_of_cons in Hin as [Heq|Hin]; [by subst ev|by apply IH4].
Qed.


(** X11. A dry-run synchronization executes no statement and leaves the
    server state as it found it, whatever the configuration. *)
Theorem SyncConfiguration_dry_run_changes_nothing {DB} (h : sqlDB DB) (config : Config.t)
    (d : DB) :
  let '(_, d', evs) := SyncConfiguration {| db := h; dryRun := true |} config d in
  d' = d ∧ execs evs = [].
Proof. apply SyncConfiguration_dry_frame. Qed.

(** ** GetDatabaseConnection *)

Lemma getEnvOrDefault_nonempty {DB} (w : World DB) (key defaultValue : string) :
  defaultValue ≠ "" → getEnvOrDefault w key defaultValue ≠ "".
Proof. unfold getEnvOrDefault. by case_decide. Qed.

Lemma Atoi_range (s : string) (n : Z) : Atoi s = Some n → - 2 ^ 63 ≤ n < 2 ^ 63.
Proof.
  unfold Atoi.
  destruct (match s with
            | String "+" rest => (false, rest)
            | String "-" rest => (true, rest)
            | _ => (false, s)
            end) as [neg digits].
  destruct digits as [|c digits]; [discriminate|].
  destruct (digitsFrom 0 (String c digits)) as [k|]; simpl; [|discriminate].
  case_decide; [|discriminate]. by intros [= <-].
Qed.

Lemma GetDatabaseConnection_run {DB} (w : World DB) (d : DB) :
  let iam := bool_decide (getEnvOrDefault w "POSTGRES_IAM_AUTH" "false" = "true") in
  let sslmode := getEnvOrDefault w "POSTGRES_SSLMODE" "require" in
  ∃ evs, driverCalls evs = []
    ∧ GetDatabaseConnection w d
      = (match Atoi (getEnvOrDefault w "POSTGRES_PORT" "5432") with
         | None =>
             Err ("invalid POSTGRES_PORT: " +:+ getEnvOrDefault w "POSTGRES_PORT" "5432")
         | Some port =>
             if iam then
               Ok (DatabaseConnection.mk
                     (getEnvOrDefault w "POSTGRES_HOST" "localhost") port
                     (getEnvOrDefault w "POSTGRES_DB" "postgres")
                     (getEnvOrDefault w "POSTGRES_USER" "postgres")
                     (Getenv w "POSTGRES_PASSWORD")
                     (if decide (sslmode = "disable") then "require" else sslmode)
                     true (getEnvOrDefault w "AWS_REGION" "us-east-1")
                     (Getenv w "POSTGRES_IAM_TOKEN"))
             else if decide (Getenv w "POSTGRES_PASSWORD" = "") then
               Err "POSTGRES_PASSWORD environment variable is required for password authentication"
             else
               Ok (DatabaseConnection.mk
                     (getEnvOrDefault w "POSTGRES_HOST" "localhost") port
                     (getEnvOrDefault w "POSTGRES_DB" "postgres")
                     (getEnvOrDefault w "POSTGRES_USER" "postgres")
                     (Getenv w "POSTGRES_PASSWORD") sslmode
                     false (getEnvOrDefault w "AWS_REGION" "us-east-1") "")
         end, d, evs).
Proof.
  intros iam sslmode. unfold GetDatabaseConnection. run. fold iam sslmode.
  pose proof (getEnvOrDefault_nonempty w "AWS_REGION" "us-east-1") as Hregion.
  destruct (Atoi (getEnvOrDefault w "POSTGRES_PORT" "5432")) as [port|]; simpl;
    [|eexists; split; [|reflexivity]; reflexivity].
  destruct iam; simpl.
  - rewrite decide_False by (by apply Hregion). simpl.
    destruct (decide (sslmode = "disable")); simpl;
      eexists; (split; [|reflexivity]); reflexivity.
  - destruct (decide (Getenv w "POSTGRES_PASSWORD" = "")); simpl;
      eexists; (split; [|reflexivity]); reflexivity.
Qed.

(** X12. [GetDatabaseConnection] makes no driver call and succeeds exactly when
    the port parses and either IAM authentication is on or a password is set:
    its only errors are the invalid port and the missing password (the
    AWS_REGION error cannot occur, the region having a default).  A connection
    it returns has a non-empty host, database, username, SSL mode and region
    and a port within the range of [int]; with IAM on its SSL mode is never
    "disable", and with IAM off its password is non-empty and its token
    empty. *)
Theorem GetDatabaseConnection_returns {DB} (w : World DB) (d : DB) :
  let '(r, d', evs) := GetDatabaseConnection w d in
  d' = d ∧ driverCalls evs = []
  ∧ match r with
    | Ok conn =>
        Atoi (getEnvOrDefault w "POSTGRES_PORT" "5432") = Some (DatabaseConnection.Port conn)
        ∧ (getEnvOrDefault w "POSTGRES_IAM_AUTH" "false" = "true"
           ∨ Getenv w "POSTGRES_PASSWORD" ≠ "")
        ∧ DatabaseConnection.Host conn ≠ "" ∧ DatabaseConnection.Database conn ≠ ""
        ∧ DatabaseConnection.Username conn ≠ "" ∧ DatabaseConnection.SSLMode conn ≠ ""
        ∧ DatabaseConnection.AWSRegion conn ≠ ""
        ∧ - 2 ^ 63 ≤ DatabaseConnection.Port conn < 2 ^ 63
        ∧ (if DatabaseConnection.IAMAuth conn
           then DatabaseConnection.SSLMode conn ≠ "disable"
           else DatabaseConnection.Password conn ≠ ""
                ∧ DatabaseConnection.IAMToken conn = "")
    | Err e =>
        (Atoi (getEnvOrDefault w "POSTGRES_PORT" "5432") = None
         ∧ e = "invalid POSTGRES_PORT: " +:+ getEnvOrDefault w "POSTGRES_PORT" "5432")
        ∨ (getEnvOrDefault w "POSTGRES_IAM_AUTH" "false" ≠ "true"
           ∧ Getenv w "POSTGRES_PASSWORD" = ""
           ∧ e = "POSTGRES_PASSWORD environment variable is required for password authentication")
    end.
Proof.
  destruct (GetDatabaseConnection_run w d) as (evs & Hcalls & ->).
  split; [done|]. split; [done|].
  destruct (Atoi (getEnvOrDefault w "POSTGRES_PORT" "5432")) as [port|] eqn:Hport;
    [|by left].
  pose proof (Atoi_range _ _ Hport) as Hrange.
  assert (Hne : ∀ key def, def ≠ "" → getEnvOrDefault w key def ≠ "")
    by (intros; by apply getEnvOrDefault_nonempty).
  case_bool_decide as Hiam; simpl.
  - repeat (split; [auto|]); case_decide; auto; done.
  - case_decide as Hpw; simpl.
    + right. done.
    + repeat (split; [auto|]); auto.
Qed.

(** ** The commands *)

Lemma reportErrors_run {DB} (errs : list error) (d : DB) :
  let '(_, d', evs) := reportErrors errs d in d' = d ∧ driverCalls evs = [].
Proof.
  induction errs as [|err errs IH]; simpl; [done|]. run.
  by destruct (reportErrors errs d) as [[u d1] evs].
Qed.

Lemma driverCalls_no_ping (evs : list Event) :
  EvPing ∉ driverCalls evs → EvPing ∉ evs.
Proof.
  intros Hno Hin. apply Hno. unfold driverCalls.
  apply list_elem_of_In, List.filter_In. split; [by apply list_elem_of_In|done].
Qed.

Lemma driverCalls_execs (evs : list Event) : execs (driverCalls evs) = execs evs.
Proof.
  induction evs as [|[] evs IH]; simpl; auto. by rewrite IH.
Qed.

(** X13. When the configuration loads, the connection parameters are
    complete and the manager is obtained, [runSync] runs the synchronization
    on that manager, closes the handle as its last driver call, and returns
    nil exactly when the result carries no error; otherwise its error gives
    the number of errors.  The state it leaves is the one the synchronization
    left. *)
Theorem runSync_reports {DB} (w : World DB) (configPath : string) (dry : bool)
    (d d2 : DB) (cfg : Config.t) (conn : DatabaseConnection.t) (mgr : Manager DB)
    (evs0 evs1 evs2 : list Event) :
  LoadConfig w configPath d = (Ok cfg, d, evs0) →
  GetDatabaseConnection w d = (Ok conn, d, evs1) →
  NewManager (sqlOpen w) conn dry d = (Ok mgr, d2, evs2) →
  let '(result, _, d3, evs3) := SyncConfiguration mgr cfg d2 in
  let '(e, d', evs) := runSync w configPath dry d in
  d' = d3
  ∧ driverCalls evs = driverCalls evs2 ++ driverCalls evs3 ++ [EvClose]
  ∧ e = match SyncResult.Errors result with
        | [] => None
        | errs => Some ("sync completed with " +:+ fmt_d (Z.of_nat (length errs))
                          +:+ " errors")
        end.
Proof.
  intros Hload Hconn Hmgr.
  pose proof (LoadConfig_driverCalls w configPath d) as H0. rewrite Hload in H0.
  destruct H0 as [_ H0].
  destruct (GetDatabaseConnection_run w d) as (evs1' & H1 & Heq).
  rewrite Hconn in Heq. injection Heq as _ <-.
  unfold runSync. run. rewrite Hload. simpl. rewrite Hconn. simpl. rewrite Hmgr. simpl.
  assert (Hnil : ∀ c, (SyncConfiguration mgr c d2).1.1.2 = None).
  { intros c. unfold SyncConfiguration. run.
    destruct (syncGroups mgr SyncResult.empty (Config.Groups c) d2) as [[r1 d1'] l1].
    by destruct (syncUsers mgr r1 (Config.Users c) d1') as [[r2 d2'] l2]. }
  specialize (Hnil cfg).
  destruct (SyncConfiguration mgr cfg d2) as [[[result err] d3] evs3]. simpl in Hnil.
  subst err. simpl.
  pose proof (reportErrors_run (SyncResult.Errors result) d3) as Hrep.
  destruct (reportErrors (SyncResult.Errors result) d3) as [[u d4] evs4].
  destruct Hrep as [-> Hrep].
  destruct (SyncResult.Errors result) as [|err errs] eqn:Herrs; simpl.
  - split; [done|]. split; [|done].
    rewrite !driverCalls_app, H0, H1. simpl. rewrite !driverCalls_app, Hrep. simpl.
    by rewrite ?app_nil_r, <- ?app_assoc.
  - split; [done|]. split; [|done].
    rewrite !driverCalls_app, H0, H1. simpl. rewrite !driverCalls_app, Hrep. simpl.
    by rewrite ?app_nil_r, <- ?app_assoc.
Qed.

Lemma runSync_reports_witness :
  let '(e, d', evs) := runSync troubledWorld "config.json" false [] in
  e = Some "sync completed with 2 errors"
  ∧ d' = [createGroupQuery app_group; grantQuery "CONNECT" "app" "app_group";
          specCreateUserStatement alice; addUserToGroupQuery "alice" "app_group"]
  ∧ last (driverCalls evs) = Some EvClose.
Proof.
  pose proof (runSync_reports troubledWorld "config.json" false [] [] troubled
    (DatabaseConnection.mk "localhost" 5432 "postgres" "postgres" "pw" "require"
       false "us-east-1" "")
    refusing _ _ _ eq_refl eq_refl eq_refl) as H.
  destruct (SyncConfiguration refusing troubled []) as [[[result err] d3] evs3] eqn:Hsync.
  vm_compute in Hsync. injection Hsync as <- <- <- <-.
  destruct (runSync troubledWorld "config.json" false []) as [[e d'] evs].
  destruct H as (-> & -> & ->). split; [reflexivity|]. split; reflexivity.
Defined.

Lemma syncEvent_driverCalls_no_ping (evs : list Event) :
  Forall syncEvent evs → EvPing ∉ driverCalls evs.
Proof.
  intros Hev Hin. apply list_elem_of_In, List.filter_In in Hin as [Hin _].
  apply list_elem_of_In in Hin. destruct (syncEvent_execs evs Hev) as (_ & Hp & _).
  by apply Hp.
Qed.

Lemma driverCalls_log lvl fields msg (evs : list Event) :
  driverCalls (EvLog lvl fields msg :: evs) = driverCalls evs.
Proof. reflexivity. Qed.

Lemma driverCalls_close (evs : list Event) :
  driverCalls (EvClose :: evs) = EvClose :: driverCalls evs.
Proof. reflexivity. Qed.

Lemma driverCalls_nil : driverCalls [] = [].
Proof. reflexivity. Qed.

Lemma quiet_calls (evs : list Event) :
  execs (driverCalls evs) = [] → EvPing ∉ driverCalls evs →
  execs evs = [] ∧ EvPing ∉ evs.
Proof.
  intros He Hp. split; [by rewrite <- driverCalls_execs|by apply driverCalls_no_ping].
Qed.

Ltac quiet :=
  match goal with |- _ ∧ EvPing ∉ ?l => apply (quiet_calls l) end.

Ltac calls :=
  repeat (rewrite driverCalls_log || rewrite driverCalls_app
          || rewrite driverCalls_close || rewrite driverCalls_nil).

(** X14. [runSync] in dry-run mode leaves the server state as it found it,
    executes no statement and never pings, whatever the environment, the
    configuration file and the server. *)
Theorem runSync_dry_run_changes_nothing {DB} (w : World DB) (configPath : string) (d : DB) :
  let '(_, d', evs) := runSync w configPath true d in
  d' = d ∧ execs evs = [] ∧ EvPing ∉ evs.
Proof.
  pose proof (LoadConfig_driverCalls w configPath d) as H0.
  destruct (GetDatabaseConnection_run w d) as (evs1 & H1 & Hconn).
  unfold runSync. run.
  destruct (LoadConfig w configPath d) as [[[cfg|err] d0] evs0]; destruct H0 as [-> H0];
    simpl.
  2:{ split; [done|]. quiet; calls; rewrite H0; simpl;
        [done|apply not_elem_of_nil]. }
  rewrite Hconn. clear Hconn.
  match goal with |- context [match ?r with Ok _ => _ | Err _ => _ end] =>
    destruct r as [conn|err] end; simpl.
  2:{ split; [done|]. quiet; calls; rewrite H0, H1; simpl;
        [done|apply not_elem_of_nil]. }
  pose proof (NewManager_run (sqlOpen w) conn true d) as Hmgr. cbv zeta in Hmgr.
  destruct (NewManager (sqlOpen w) conn true d) as [[r d2] evs2].
  destruct Hmgr as (-> & He2 & _ & Hc2 & Hr).
  destruct (sqlOpen w "postgres" _) as [h|err]; subst r; simpl.
  2:{ split; [done|]. quiet; calls; rewrite H0, H1, Hc2; simpl; [done|].
      intros Hin. apply list_elem_of_singleton in Hin. discriminate. }
  pose proof (SyncConfiguration_dry_frame h cfg d) as Hsync.
  pose proof (SyncConfiguration_events {| db := h; dryRun := true |} cfg d) as Hev.
  destruct (SyncConfiguration _ cfg d) as [[[result err] d3] evs3].
  destruct Hsync as [-> Hsync]. simpl in Hev.
  apply syncEvent_driverCalls_no_ping in Hev.
  rewrite <- driverCalls_execs in Hsync.
  destruct err as [err|]; simpl.
  - split; [done|]. quiet; calls; rewrite H0, H1, Hc2; simpl.
    + by rewrite execs_app, Hsync.
    + intros Hin. apply elem_of_cons in Hin as [Heq|Hin]; [discriminate|].
      apply elem_of_app in Hin as [Hin|Hin]; [done|].
      apply list_elem_of_singleton in Hin. discriminate.
  - pose proof (reportErrors_run (SyncResult.Errors result) d) as Hrep.
    destruct (reportErrors (SyncResult.Errors result) d) as [[u d4] evs4].
    destruct Hrep as [-> Hrep].
    case_decide; simpl; (split; [done|]);
      quiet; calls; rewrite H0, H1, Hc2, Hrep; simpl;
      try (by rewrite execs_app, Hsync);
      intros Hin; (apply elem_of_cons in Hin as [Heq|Hin]; [discriminate|]);
      (apply elem_of_app in Hin as [Hin|Hin]; [done|]);
      apply list_elem_of_singleton in Hin; discriminate.
Qed.

Lemma reads_driverCalls (evs : list Event) : reads (driverCalls evs) = reads evs.
Proof.
  induction evs as [|[] evs IH]; simpl; auto; by rewrite IH.
Qed.

(** X15. [runCreateUser] rejects an authentication method other than
    "password" and "iam" before it reads the environment or opens anything.
    Otherwise, once the connection is up and [CreateUser] has returned nil,
    the command returns nil whatever becomes of the memberships and of the
    grant, whose failures are only logged; and when [CreateUser] fails, the
    command returns that error and makes no further driver call but the
    close. *)
Theorem runCreateUser_outcome {DB} (w : World DB) (dry : bool) (username : string)
    (flags : CreateUserFlags.t) (d d2 : DB) (conn : DatabaseConnection.t)
    (mgr : Manager DB) (evs1 evs2 : list Event) :
  let method := CreateUserFlags.authMethod flags in
  let userConfig :=
    UserConfig.mk username (CreateUserFlags.password flags) (CreateUserFlags.groups flags)
      (CreateUserFlags.privileges flags) (CreateUserFlags.databases flags) true
      (CreateUserFlags.description flags) method (CreateUserFlags.iamRole flags)
      (CreateUserFlags.canLogin flags) (CreateUserFlags.connectionLimit flags) in
  (method ≠ "password" → method ≠ "iam" →
   runCreateUser w dry username flags d
   = (Some ("invalid auth-method: " +:+ method +:+ " (must be 'password' or 'iam')"), d,
      [EvLog InfoLevel [("username", VString username); ("auth_method", VString method)]
         "Creating user"]))
  ∧ (method = "password" ∨ method = "iam" →
     GetDatabaseConnection w d = (Ok conn, d, evs1) →
     NewManager (sqlOpen w) conn dry d = (Ok mgr, d2, evs2) →
     let '(e0, d3, evs3) := CreateUser mgr userConfig d2 in
     let '(e, d', evs) := runCreateUser w dry username flags d in
     match e0 with
     | None => e = None ∧ last (driverCalls evs) = Some EvClose
     | Some err =>
         e = Some ("failed to create user: " +:+ err) ∧ d' = d3
         ∧ driverCalls evs = driverCalls evs2 ++ driverCalls evs3 ++ [EvClose]
     end).
Proof.
  intros method userConfig. split.
  - intros Hp Hi. unfold runCreateUser. run. fold method.
    by rewrite decide_True.
  - intros Hvalid Hconn Hmgr.
    destruct (GetDatabaseConnection_run w d) as (evs1' & H1 & Heq).
    rewrite Hconn in Heq. injection Heq as _ <-.
    unfold runCreateUser. run. fold method. fold userConfig.
    rewrite decide_False by (intros [? ?]; destruct Hvalid; done). simpl.
    match goal with |- context [(if decide (method = "iam") then ?a else ?b) d] =>
      assert (Hwarn : ∃ l, (if decide (method = "iam") then a else b) d = (tt, d, l)
                           ∧ driverCalls l = [])
        by (repeat case_decide; eexists; (split; [reflexivity|]); reflexivity);
      destruct Hwarn as (lw & -> & Hlw) end.
    simpl. rewrite Hconn. simpl. rewrite Hmgr. simpl.
    destruct (CreateUser mgr userConfig d2) as [[[err|] d3] evs3]; simpl.
    + split; [done|]. split; [done|].
      calls. rewrite Hlw, H1. simpl. calls. by rewrite ?app_nil_r, <- ?app_assoc.
    + destruct (warnAddUserToGroups mgr username (CreateUserFlags.groups flags) d3)
        as [[u d4] evs4]. simpl.
      case_decide; simpl;
        [destruct (GrantPrivileges mgr username (CreateUserFlags.privileges flags)
                     (CreateUserFlags.databases flags) d4) as [[[e|] d5] evs5]; simpl|];
        (split; [done|]); calls; rewrite ?app_nil_r, ?app_assoc; apply last_snoc.
Qed.

Lemma runCreateUser_outcome_witness :
  CreateUserFlags.authMethod carolFlags = "password"
  ∧ (let '(e, d', evs) := runCreateUser pickyWorld false "carol" carolFlags [] in
     e = None ∧ last (driverCalls evs) = Some EvClose
     ∧ execs evs
       = [specCreateUserStatement carol; addUserToGroupQuery "carol" "ghost";
          addUserToGroupQuery "carol" "app_group"]
     ∧ d' = [specCreateUserStatement carol; addUserToGroupQuery "carol" "app_group"]).
Proof.
  split; [reflexivity|].
  pose proof (proj2 (runCreateUser_outcome pickyWorld false "carol" carolFlags [] []
    (DatabaseConnection.mk "localhost" 5432 "postgres" "postgres" "pw" "require"
       false "us-east-1" "") picky _ _) (or_introl eq_refl) eq_refl eq_refl) as H.
  destruct (CreateUser picky _ []) as [[e0 d3] evs3] eqn:Hc in H.
  vm_compute in Hc. injection Hc as <- <- <-.
  destruct (runCreateUser pickyWorld false "carol" carolFlags []) as [[e d'] evs] eqn:Hrun.
  destruct H as [-> Hlast]. split; [reflexivity|]. split; [exact Hlast|].
  vm_compute in Hrun. injection Hrun as <- <-. split; reflexivity.
Defined.

(** ** The commands in dry-run mode *)

Lemma inert_nil : inert [].
Proof. split; [done|apply not_elem_of_nil]. Qed.

Lemma inert_app (l1 l2 : list Event) : inert l1 → inert l2 → inert (l1 ++ l2).
Proof.
  intros [He1 Hp1] [He2 Hp2]. split; [by rewrite execs_app, He1, He2|].
  intros Hin. apply elem_of_app in Hin as [Hin|Hin]; auto.
Qed.

Lemma inert_cons (ev : Event) (l : list Event) :
  match ev with EvExec _ | EvPing => False | _ => True end → inert l → inert (ev :: l).
Proof.
  intros Hev [He Hp]. split; [by destruct ev|].
  intros Hin. apply elem_of_cons in Hin as [<-|Hin]; auto.
Qed.

Lemma inert_calls (evs : list Event) : driverCalls evs = [] → inert evs.
Proof.
  intros H. apply quiet_calls; rewrite H; [done|apply not_elem_of_nil].
Qed.

Lemma inert_sync (evs : list Event) : Forall syncEvent evs → execs evs = [] → inert evs.
Proof.
  intros Hev He. split; [done|]. by destruct (syncEvent_execs evs Hev) as (_ & Hp & _).
Qed.

Ltac inert :=
  repeat first
    [ assumption
    | apply inert_nil
    | apply inert_app
    | apply inert_cons; [exact I|] ].

Lemma GetDatabaseConnection_inert {DB} (w : World DB) (d : DB) :
  let '(_, d', evs) := GetDatabaseConnection w d in d' = d ∧ inert evs.
Proof.
  destruct (GetDatabaseConnection_run w d) as (evs & Hc & ->).
  split; [done|by apply inert_calls].
Qed.

Lemma NewManager_dry {DB} (open : string → string → result (sqlDB DB))
    (conn : DatabaseConnection.t) (d : DB) :
  let '(r, d', evs) := NewManager open conn true d in
  d' = d ∧ inert evs
  ∧ match r with Ok m => ∃ h, m = {| db := h; dryRun := true |} | Err _ => True end.
Proof.
  pose proof (NewManager_run open conn true d) as H. cbv zeta in H.
  destruct (NewManager open conn true d) as [[r d'] evs].
  destruct H as (-> & He & _ & Hc & ->). split; [done|]. split.
  - apply quiet_calls; rewrite Hc; [by destruct (open _ _)|].
    intros Hin. apply elem_of_cons in Hin as [?|Hin]; [discriminate|].
    destruct (open _ _); by apply not_elem_of_nil in Hin.
  - destruct (open _ _); eauto.
Qed.

Lemma DropUser_dry {DB} (h : sqlDB DB) (username : string) (d : DB) :
  let '(_, d', evs) := DropUser {| db := h; dryRun := true |} username d in
  d' = d ∧ inert evs.
Proof.
  unfold DropUser, UserExists. run.
  destruct (sqlQueryRow h userExistsQuery [username] d); simpl; (split; [done|]); inert.
Qed.

Lemma CreateUser_dry {DB} (h : sqlDB DB) (user : UserConfig.t) (d : DB) :
  let '(_, d', evs) := CreateUser {| db := h; dryRun := true |} user d in
  d' = d ∧ inert evs.
Proof.
  pose proof (CreateUser_dry_frame h user d) as H.
  pose proof (CreateUser_events {| db := h; dryRun := true |} user d) as Hev.
  destruct (CreateUser _ user d) as [[e d'] evs]. destruct H as [-> H].
  split; [done|]. by apply inert_sync.
Qed.

Lemma GrantPrivileges_dry {DB} (h : sqlDB DB) (target : string)
    (privileges databases : list string) (d : DB) :
  let '(_, d', evs) :=
    GrantPrivileges {| db := h; dryRun := true |} target privileges databases d in
  d' = d ∧ inert evs.
Proof.
  pose proof (GrantPrivileges_dry_frame h target privileges databases d) as H.
  pose proof (GrantPrivileges_events {| db := h; dryRun := true |} target
                privileges databases d) as Hev.
  destruct (GrantPrivileges _ target privileges databases d) as [[e d'] evs].
  destruct H as [-> H]. split; [done|]. by apply inert_sync.
Qed.

Lemma warnAddUserToGroups_dry {DB} (h : sqlDB DB) (username : string)
    (groups : list string) (d : DB) :
  let '(_, d', evs) :=
    warnAddUserToGroups {| db := h; dryRun := true |} username groups d in
  d' = d ∧ inert evs.
Proof.
  induction groups as [|group groups IH]; simpl; [split; [done|inert]|].
  unfold AddUserToGroup. run.
  destruct (warnAddUserToGroups _ username groups d) as [[u d1] evs1].
  destruct IH as [-> IH]. split; [done|]. inert.
Qed.

(** X16. With the dry-run flag, [runCreateUser] and [runDropUser] leave the
    server state as they found it, execute no statement and never ping,
    whatever the flags, the environment and the server. *)
Theorem commands_dry_run_change_nothing {DB} (w : World DB) (username : string)
    (flags : CreateUserFlags.t) (d : DB) :
  (let '(_, d', evs) := runCreateUser w true username flags d in d' = d ∧ inert evs)
  ∧ (let '(_, d', evs) := runDropUser w true username d in d' = d ∧ inert evs).
Proof.
  pose proof (GetDatabaseConnection_inert w d) as H1.
  split.
  - unfold runCreateUser. run. case_decide; simpl; [split; [done|inert]|].
    match goal with |- context [(if decide ?P then ?a else ?b) d] =>
      assert (Hwarn : ∃ l, (if decide P then a else b) d = (tt, d, l) ∧ inert l)
        by (repeat case_decide; eexists; (split; [reflexivity|]); inert);
      destruct Hwarn as (lw & -> & Hlw) end.
    simpl. destruct (GetDatabaseConnection w d) as [[[conn|err] d1] evs1];
      destruct H1 as [-> H1]; simpl; [|split; [done|inert]].
    pose proof (NewManager_dry (sqlOpen w) conn d) as H2.
    destruct (NewManager (sqlOpen w) conn true d) as [[[mgr|err] d2] evs2];
      destruct H2 as (-> & H2 & Hm); simpl; [|split; [done|inert]].
    destruct Hm as [h ->].
    match goal with |- context [CreateUser _ ?u d] =>
      pose proof (CreateUser_dry h u d) as H3;
      destruct (CreateUser {| db := h; dryRun := true |} u d) as [[[err|] d3] evs3] end;
      destruct H3 as [-> H3]; simpl; [split; [done|inert]|].
    pose proof (warnAddUserToGroups_dry h username (CreateUserFlags.groups flags) d) as H4.
    destruct (warnAddUserToGroups _ username (CreateUserFlags.groups flags) d)
      as [[u d4] evs4]. destruct H4 as [-> H4]. simpl.
    case_decide; simpl; [|split; [done|inert]].
    pose proof (GrantPrivileges_dry h username (CreateUserFlags.privileges flags)
                  (CreateUserFlags.databases flags) d) as H5.
    destruct (GrantPrivileges _ username _ _ d) as [[[err|] d5] evs5];
      destruct H5 as [-> H5]; simpl; (split; [done|inert]).
  - unfold runDropUser. run.
    destruct (GetDatabaseConnection w d) as [[[conn|err] d1] evs1];
      destruct H1 as [-> H1]; simpl; [|split; [done|inert]].
    pose proof (NewManager_dry (sqlOpen w) conn d) as H2.
    destruct (NewManager (sqlOpen w) conn true d) as [[[mgr|err] d2] evs2];
      destruct H2 as (-> & H2 & Hm); simpl; [|split; [done|inert]].
    destruct Hm as [h ->].
    pose proof (DropUser_dry h username d) as H3.
    destruct (DropUser _ username d) as [[[err|] d3] evs3];
      destruct H3 as [-> H3]; simpl; (split; [done|inert]).
Qed.

(** ** drop-user, list-users, validate *)

(** X17. Once the connection parameters are complete and the manager is
    obtained, [runDropUser] is [DropUser] on that manager: it returns
    [DropUser]'s error behind "failed to drop user: ", or nil; the server is
    left as [DropUser] left it; and the driver calls are those of
    [NewManager], those of [DropUser], and the close of the handle, in that
    order. *)
Theorem runDropUser_pipeline {DB} (w : World DB) (dry : bool) (username : string)
    (d d2 : DB) (conn : DatabaseConnection.t) (mgr : Manager DB)
    (evs1 evs2 : list Event) :
  GetDatabaseConnection w d = (Ok conn, d, evs1) →
  NewManager (sqlOpen w) conn dry d = (Ok mgr, d2, evs2) →
  let '(e0, d3, evs3) := DropUser mgr username d2 in
  let '(e, d', evs) := runDropUser w dry username d in
  e = (λ err, "failed to drop user: " +:+ err) <$> e0
  ∧ d' = d3
  ∧ driverCalls evs = driverCalls evs2 ++ driverCalls evs3 ++ [EvClose].
Proof.
  intros Hconn Hmgr.
  destruct (GetDatabaseConnection_run w d) as (evs1' & H1 & Heq).
  rewrite Hconn in Heq. injection Heq as _ <-.
  unfold runDropUser. run. rewrite Hconn. simpl. rewrite Hmgr. simpl.
  destruct (DropUser mgr username d2) as [[[err|] d3] evs3]; simpl;
    (split; [done|]); (split; [done|]); calls; rewrite H1; simpl;
    by rewrite ?app_nil_r.
Qed.

Lemma runDropUser_pipeline_witness :
  let w := scriptedWorld {[ "POSTGRES_PASSWORD" := "pw" ]} [] false in
  let '(e, d', evs) := runDropUser w false "alice" provisioned in
  e = None
  ∧ d' = provisioned ++ [dropUserQuery "alice"]
  ∧ driverCalls evs
    = [EvOpen "postgres"
         "host=localhost port=5432 user=postgres password=pw dbname=postgres sslmode=require";
       EvPing; EvQueryRow userExistsQuery ["alice"]; EvExec (dropUserQuery "alice");
       EvClose].
Proof.
  intros w.
  pose proof (runDropUser_pipeline w false "alice" provisioned provisioned
    (DatabaseConnection.mk "localhost" 5432 "postgres" "postgres" "pw" "require"
       false "us-east-1" "") live _ _ eq_refl eq_refl) as H.
  destruct (DropUser live "alice" provisioned) as [[e0 d3] evs3] eqn:Hdrop in H.
  vm_compute in Hdrop. injection Hdrop as <- <- <-.
  destruct (runDropUser w false "alice" provisioned) as [[e d'] evs].
  destruct H as (-> & -> & ->). split; [reflexivity|]. split; reflexivity.
Defined.

(** X18. [runListUsers] never queries and never executes: it leaves the
    server state as it found it, and it prints its one placeholder line when
    it returns nil and nothing when it returns an error. *)
Theorem runListUsers_lists_nothing {DB} (w : World DB) (dry : bool) (d : DB) :
  let '(out, e, d', evs) := runListUsers w dry d in
  d' = d ∧ execs evs = [] ∧ reads evs = []
  ∧ out = match e with
          | None => ["User listing functionality to be implemented"]
          | Some _ => []
          end.
Proof.
  destruct (GetDatabaseConnection_run w d) as (evs1 & H1 & Hconn).
  unfold runListUsers. run. rewrite Hconn. clear Hconn.
  assert (He1 : execs evs1 = []) by (by rewrite <- driverCalls_execs, H1).
  assert (Hr1 : reads evs1 = []) by (by rewrite <- reads_driverCalls, H1).
  match goal with |- context [match ?r with Ok _ => _ | Err _ => _ end] =>
    destruct r as [conn|err] end; simpl.
  2:{ by rewrite app_nil_r. }
  pose proof (NewManager_run (sqlOpen w) conn dry d) as Hmgr. cbv zeta in Hmgr.
  destruct (NewManager (sqlOpen w) conn dry d) as [[[mgr|err] d2] evs2];
    destruct Hmgr as (-> & He2 & Hr2 & _); simpl;
    by rewrite ?app_nil_r, ?execs_app, ?reads_app, ?He1, ?Hr1, ?He2, ?Hr2.
Qed.

(** X19. [runValidate] makes no driver call and does not touch the server;
    it accepts a configuration exactly when the file can be read and
    decodes, whatever the decoded configuration holds (duplicate or empty
    names included). *)
Theorem runValidate_accepts_what_decodes {DB} (w : World DB) (configPath : string)
    (d : DB) :
  let '(e, d', evs) := runValidate w configPath d in
  d' = d ∧ driverCalls evs = []
  ∧ (e = None ↔ ∃ data config,
       readFile w configPath = Content data ∧ jsonUnmarshal w data = Ok config).
Proof.
  unfold runValidate, LoadConfig. run.
  destruct (readFile w configPath) as [] eqn:Hread; simpl.
  3:{ destruct (jsonUnmarshal w data) as [config|err] eqn:Hdec; simpl;
        (split; [done|]); (split; [done|]); split; eauto; try done.
      intros (data' & config & [= <-] & Hdec'). congruence. }
  all: split; [done|]; split; [done|]; split; [done|]; by intros (? & ? & ? & _).
Qed.

Lemma runValidate_accepts_what_decodes_witness :
  let w := scriptedWorld ∅ [] true in
  (runValidate w "config.json" []).1.1 = None.
Proof.
  intros w.
  pose proof (runValidate_accepts_what_decodes w "config.json" []) as H.
  destruct (runValidate w "config.json" []) as [[e d'] evs].
  destruct H as (_ & _ & H). apply H. by exists "{}", (Config.mk [] []).
Defined.

(** ** internal/events *)

Lemma mapGroups_acc (groups roles : list string) :
  mapGroups groups roles = roles ++ ((λ g, default g (roleMapping !! g)) <$> groups).
Proof.
  revert roles. induction groups as [|g groups IH]; intros roles; simpl;
    [by rewrite app_nil_r|].
  destruct (roleMapping !! g) as [role|]; simpl; by rewrite IH, <- app_assoc.
Qed.

Lemma roleMapping_lookup (g role : string) :
  roleMapping !! g = Some role →
  (g = "Admins" ∧ role = "admin_group") ∨ (g = "Users" ∧ role = "app_group")
  ∨ (g = "ReadOnly" ∧ role = "read_only") ∨ (g = "Developers" ∧ role = "dev_group").
Proof.
  unfold roleMapping. intros H.
  repeat (apply lookup_insert_Some in H as [[<- <-]|[_ H]]; [tauto|]).
  by rewrite lookup_empty in H.
Qed.

Lemma roleMapping_stable (g : string) :
  roleMapping !! default g (roleMapping !! g) = roleMapping !! g ∨
  roleMapping !! default g (roleMapping !! g) = None.
Proof.
  destruct (roleMapping !! g) as [role|] eqn:Hg; simpl; [|by left].
  right. apply roleMapping_lookup in Hg as [[_ ->]|[[_ ->]|[[_ ->]|[_ ->]]]];
    reflexivity.
Qed.

(** X20. [MapCognitoGroupsToRoles] maps the names one by one, in order: a
    name among the four keys of the table to its role, any other name to
    itself.  So the result has the length of the input, and mapping it a
    second time changes nothing, no role of the table being one of its
    keys. *)
Theorem MapCognitoGroupsToRoles_maps_each (groups : list string) :
  let roles := (MapCognitoGroupsToRoles groups).2 in
  roles = (λ g, default g (roleMapping !! g)) <$> groups
  ∧ length roles = length groups
  ∧ (MapCognitoGroupsToRoles roles).2 = roles
  ∧ (Forall (λ g, g ∉ ["Admins"; "Users"; "ReadOnly"; "Developers"]) groups ↔
     roles = groups).
Proof.
  unfold MapCognitoGroupsToRoles. simpl. rewrite !mapGroups_acc. simpl.
  split; [done|]. split; [by rewrite length_fmap|]. split.
  - induction groups as [|g groups IH]; simpl; [done|]. f_equal; [|exact IH].
    destruct (roleMapping_stable g) as [H|H]; rewrite H; [|done].
    by destruct (roleMapping !! g).
  - induction groups as [|g groups IH]; csimpl; [split; auto|].
    rewrite Forall_cons, IH. split.
    + intros [Hg Hrest]. f_equal; [|exact Hrest].
      destruct (roleMapping !! g) as [role|] eqn:Hrole; [|done].
      exfalso. apply Hg.
      apply roleMapping_lookup in Hrole as [[-> _]|[[-> _]|[[-> _]|[-> _]]]];
        apply list_elem_of_In; simpl; tauto.
    + intros [= Hg Hrest]. split; [|done]. intros Hin.
      destruct (roleMapping !! g) as [role|] eqn:Hrole; simpl in Hg.
      * subst role. apply roleMapping_lookup in Hrole.
        destruct Hrole as [[-> ?]|[[-> ?]|[[-> ?]|[-> ?]]]]; discriminate.
      * repeat (apply elem_of_cons in Hin as [->|Hin]; [discriminate|]).
        by apply not_elem_of_nil in Hin.
Qed.

Lemma MapCognitoGroupsToRoles_maps_each_witness :
  (MapCognitoGroupsToRoles ["Admins"; "qa"; "Users"]).2 = ["admin_group"; "qa"; "app_group"]
  ∧ (MapCognitoGroupsToRoles ["qa"; "dev_group"]).2 = ["qa"; "dev_group"].
Proof.
  split.
  - destruct (MapCognitoGroupsToRoles_maps_each ["Admins"; "qa"; "Users"]) as (H & _).
    rewrite H. reflexivity.
  - destruct (MapCognitoGroupsToRoles_maps_each ["qa"; "dev_group"]) as (_ & _ & _ & H).
    apply H.
    repeat constructor; intros Hin; apply list_elem_of_In in Hin; simpl in Hin;
      intuition discriminate.
Defined.

(** X21. For an event that decodes, [ProcessEvent] decides on the event
    type alone: it returns a configuration exactly for the four handled
    types, and the error "unknown event type: <type>" otherwise.  It does not
    apply [ValidateEvent], [MapCognitoGroupsToRoles] or [SanitizeUsername]:
    the configuration carries the event's username and groups as they are,
    is enabled, has no password and cannot log in, so that the statement
    [buildCreateUserQuery] builds for it is CREATE USER <quoted name>
    NOLOGIN. *)
Theorem ProcessEvent_decides_on_the_type {Value Time DB : Type}
    (unmarshalEvent : string → result (EventPayload.t Value Time))
    (formatRFC3339 : Time → string) (eventData : string)
    (event : EventPayload.t Value Time) (m : Manager DB) (d : DB) :
  unmarshalEvent eventData = Ok event →
  match (ProcessEvent unmarshalEvent formatRFC3339 eventData).2 with
  | Ok userConfig =>
      (EventPayload.EventType event ∈ handledEventTypes)
      ∧ UserConfig.Username userConfig = EventPayload.Username event
      ∧ UserConfig.Groups userConfig = EventPayload.Groups event
      ∧ UserConfig.Enabled userConfig = true
      ∧ UserConfig.Password userConfig = ""
      ∧ UserConfig.CanLogin userConfig = false
      ∧ (buildCreateUserQuery m userConfig d).1.1
        = "CREATE USER " +:+ quoteIdentifier (EventPayload.Username event) +:+ " NOLOGIN"
  | Err err =>
      (EventPayload.EventType event ∉ handledEventTypes)
      ∧ err = "unknown event type: " +:+ EventPayload.EventType event
  end.
Proof.
  intros Hdec. unfold ProcessEvent, handledEventTypes. rewrite Hdec.
  assert (Hq : ∀ descr,
    (buildCreateUserQuery m
       (UserConfig.mk (EventPayload.Username event) "" (EventPayload.Groups event)
          [] [] true descr "" "" false 0) d).1.1
    = "CREATE USER " +:+ quoteIdentifier (EventPayload.Username event) +:+ " NOLOGIN").
  { intros descr. rewrite buildCreateUserQuery_run. simpl.
    unfold specCreateUserStatement, specPasswordClause, specLoginClause,
      specConnectionLimitClause. simpl.
    by rewrite !append_nil_r. }
  repeat case_decide;
    cbn [snd UserConfig.Username UserConfig.Groups UserConfig.Enabled
         UserConfig.Password UserConfig.CanLogin].
  1-4: split; [apply list_elem_of_In; simpl; intuition congruence|];
       repeat (split; [done|]); exact (Hq _).
  split; [|done]. intros Hin. apply list_elem_of_In in Hin. simpl in Hin.
  intuition congruence.
Qed.

Lemma ProcessEvent_decides_on_the_type_witness :
  let decode := λ _ : string, Ok nameless in
  ValidateEvent nameless = Some "username is required"
  ∧ ∃ userConfig,
      (ProcessEvent decode (λ _, "2024-01-01T00:00:00Z") "{}").2 = Ok userConfig
      ∧ UserConfig.Username userConfig = ""
      ∧ UserConfig.Groups userConfig = ["Admins"]
      ∧ (buildCreateUserQuery live userConfig []).1.1
        = "CREATE USER " +:+ String dquote (String dquote " NOLOGIN").
Proof.
  intros decode. split; [reflexivity|].
  pose proof (ProcessEvent_decides_on_the_type decode (λ _, "2024-01-01T00:00:00Z")
    "{}" nameless live [] eq_refl) as H.
  destruct (ProcessEvent decode _ "{}").2 as [userConfig|err] eqn:Hrun;
    [|vm_compute in Hrun; discriminate].
  exists userConfig. destruct H as (_ & Hname & Hgroups & _ & _ & _ & Hq).
  split; [reflexivity|]. split; [exact Hname|]. split; [exact Hgroups|].
  rewrite Hq. reflexivity.
Defined.

(** ** Synchronizing against a server that has everything *)






Section Existing.

Context {DB : Type} (m : Manager DB).
Hypothesis Hfound : ∀ query args d, sqlQueryRow (db m) query args d = RowFound.





End Existing.


